(** * zamapp — FHEVM client utilities: a shallow embedding and its properties

    The development follows the TypeScript sources of the front end:

    - [utils/fhevm/mock/fhevmMock.ts]   (MockFhevmInstance, MockFhevmEncryptedInput)
    - [utils/fhevm/validation.ts]       (hasProperty, isValidRelayerSDK, isValidAddress,
                                         diagnosticSDK)
    - [utils/fhevm/createFhevmInstance.ts] (getChainId, resolve, the Hardhat probe,
                                            initFhevmSDK, createFhevmInstance)
    - [utils/fhevm/relayerSDKLoader.ts] (RelayerSDKLoader)
    - [utils/fhevm/providerUtils.ts]    (isValidEip1193Provider)
    - [utils/fhevm.ts]                  (FHEVMClient.createEncryptedInput, on a mock
                                         instance)
    - [hooks/useFhevm.ts]               (the useFhevm hook, isFhevmSupported,
                                         getChainName)

    JavaScript strings are modelled as lists of characters ([list ascii]); a
    character stands for one UTF-8 byte, which is one UTF-16 code unit on the
    ASCII strings the code produces itself.  JavaScript numbers that the code
    handles are integers (chain ids, plaintexts, millisecond clocks), all
    within the range in which a double is exact, and are modelled in [Z];
    BigInt values are modelled in [Z] as well and kept apart by their
    constructor.  Asynchronous functions are modelled by the value
    their promise settles with: [Return v] for a fulfilled promise, [Throw e]
    for a rejected one. *)

From Stdlib Require Import ZArith NArith Ascii String Lia.
From stdpp Require Import base list gmap.

#[local] Open Scope Z_scope.

(** ** JavaScript built-ins used by the sources *)

Module JS.

Definition jsstring := list ascii.

(** A string literal of the source. *)
Definition str (s : string) : jsstring := list_ascii_of_string s.

(** What is thrown: the errors that the sources throw, or that a built-in
    throws for them, and, from outside (a wallet, a node, the SDK), also
    values that are not instances of [Error]. *)
Inductive exn : Type :=
| TypeError (msg : jsstring)
| Error (msg : jsstring)
| FhevmError (code : jsstring) (msg : jsstring)
| FhevmAbortError
| NonError.

(** [e instanceof Error] *)
Definition instanceofError (e : exn) : bool :=
  match e with
  | NonError => false
  | _ => true
  end.

(** What a call, or the promise it returns, ends with. *)
Inductive outcome (A : Type) : Type :=
| Return (a : A)
| Throw (e : exn).
Arguments Return {A} a.
Arguments Throw {A} e.

Definition bind {A B} (m : outcome A) (k : A -> outcome B) : outcome B :=
  match m with
  | Return a => k a
  | Throw e => Throw e
  end.

(** A JavaScript number, as far as the sources go: an integer or [NaN]. *)
Inductive number : Type :=
| Num (z : Z)
| NaN.

#[global] Instance number_eq_dec : EqDecision number.
Proof. solve_decision. Defined.

(** *** Digits *)

(** The character of a digit [d < 36]: 0-9 then a-z, as [Number.prototype.toString]
    and [BigInt.prototype.toString] print them. *)
Definition digit_char (d : N) : ascii :=
  if (d <? 10)%N then ascii_of_N (48 + d) else ascii_of_N (87 + d).

(** The digits of [n] in [base], most significant first.  [fuel] bounds the
    number of digits. *)
Fixpoint to_digits (base : N) (fuel : nat) (n : N) : jsstring :=
  match fuel with
  | O => []
  | S fuel' =>
      if (n <? base)%N then [digit_char n]
      else to_digits base fuel' (n / base) ++ [digit_char (n mod base)]
  end.

(** A natural number has at most as many digits as bits (for [base >= 2]). *)
Definition N_to_string (base : N) (n : N) : jsstring :=
  to_digits base (S (N.to_nat (N.log2 n))) n.

(** [z.toString(radix)] for an integral number or a BigInt [z]. *)
Definition Z_to_string (base : N) (z : Z) : jsstring :=
  if z <? 0 then "-"%char :: N_to_string base (Z.to_N (- z))
  else N_to_string base (Z.to_N z).

Definition toString16 (z : Z) : jsstring := Z_to_string 16 z.
Definition toString10 (z : Z) : jsstring := Z_to_string 10 z.

(** The value of a character as a digit, if it is one of 0-9, a-z, A-Z. *)
Definition digit_value (c : ascii) : option N :=
  let n := N_of_ascii c in
  if ((48 <=? n) && (n <=? 57))%N then Some (n - 48)%N
  else if ((97 <=? n) && (n <=? 122))%N then Some (n - 87)%N
  else if ((65 <=? n) && (n <=? 90))%N then Some (n - 55)%N
  else None.

(** *** String methods *)

(** [s.startsWith(p)] *)
Fixpoint startsWith (s p : jsstring) {struct p} : bool :=
  match p, s with
  | [], _ => true
  | _ :: _, [] => false
  | a :: p', b :: s' => if Ascii.eqb a b then startsWith s' p' else false
  end.

(** [s.endsWith(p)] *)
Definition endsWith (s p : jsstring) : bool :=
  startsWith (rev s) (rev p).

(** [s.includes(p)] *)
Fixpoint includes (s p : jsstring) : bool :=
  startsWith s p ||
  match s with
  | [] => false
  | _ :: s' => includes s' p
  end.

(** [s.replace(p, r)] for a string pattern [p] and a replacement [r] free
    of [$]: the first occurrence of [p] is replaced. *)
Fixpoint replace (s p r : jsstring) {struct s} : jsstring :=
  if startsWith s p then r ++ drop (length p) s
  else match s with
       | [] => []
       | c :: s' => c :: replace s' p r
       end.

(** [s.substring(i, j)] for indices [0 <= i], [0 <= j]. *)
Definition substring (s : jsstring) (i j : nat) : jsstring :=
  take (Nat.max i j - Nat.min i j) (drop (Nat.min i j) s).

(** [s.padStart(n, c)] for a one-character filler [c]. *)
Definition padStart (s : jsstring) (n : nat) (c : ascii) : jsstring :=
  replicate (n - length s) c ++ s.

(** [s.repeat(n)] *)
Fixpoint repeat (s : jsstring) (n : nat) : jsstring :=
  match n with
  | O => []
  | S n' => s ++ repeat s n'
  end.

(** [s.toLowerCase()] on ASCII letters; other characters are kept. *)
Definition lower_char (c : ascii) : ascii :=
  let n := N_of_ascii c in
  if ((65 <=? n) && (n <=? 90))%N then ascii_of_N (n + 32) else c.

Definition toLowerCase (s : jsstring) : jsstring := map lower_char s.

(** *** parseInt *)

(** ASCII white space and line terminators skipped by [parseInt]. *)
Definition is_space (c : ascii) : bool :=
  let n := N_of_ascii c in
  ((n =? 32) || ((9 <=? n) && (n <=? 13)))%N.

Fixpoint skip_spaces (s : jsstring) : jsstring :=
  match s with
  | c :: s' => if is_space c then skip_spaces s' else s
  | [] => []
  end.

(** The longest prefix of digits below [base], folded into a number;
    the flag tells whether any digit was read. *)
Fixpoint read_digits (base : N) (acc : N) (seen : bool) (s : jsstring) : N * bool :=
  match s with
  | c :: s' =>
      match digit_value c with
      | Some d => if (d <? base)%N then read_digits base (acc * base + d) true s'
                  else (acc, seen)
      | None => (acc, seen)
      end
  | [] => (acc, seen)
  end.

(** [parseInt(s, 16)] *)
Definition parseInt16 (s : jsstring) : number :=
  let s1 := skip_spaces s in
  let '(neg, s2) :=
    match s1 with
    | c :: s' =>
        if Ascii.eqb c "-" then (true, s')
        else if Ascii.eqb c "+" then (false, s')
        else (false, s1)
    | [] => (false, s1)
    end in
  let s3 :=
    if startsWith s2 (str "0x") || startsWith s2 (str "0X") then drop 2 s2 else s2 in
  match read_digits 16 0 false s3 with
  | (n, true) => Num (if neg then - Z.of_N n else Z.of_N n)
  | (_, false) => NaN
  end.

(** *** JSON.stringify and Buffer *)

Definition dquote : ascii := ascii_of_nat 34.
Definition backslash : ascii := ascii_of_nat 92.

(** Two lower-case hexadecimal digits of a byte. *)
Definition hex2 (c : ascii) : jsstring :=
  let n := N_of_ascii c in [digit_char (n / 16); digit_char (n mod 16)].

(** One character inside a JSON string literal (QuoteJSONString). *)
Definition json_escape (c : ascii) : jsstring :=
  let n := N_of_ascii c in
  if Ascii.eqb c dquote then [backslash; dquote]
  else if Ascii.eqb c backslash then [backslash; backslash]
  else if (n =? 8)%N then backslash :: str "b"
  else if (n =? 9)%N then backslash :: str "t"
  else if (n =? 10)%N then backslash :: str "n"
  else if (n =? 12)%N then backslash :: str "f"
  else if (n =? 13)%N then backslash :: str "r"
  else if (n <? 32)%N then backslash :: str "u00" ++ hex2 c
  else [c].

Definition json_quote (s : jsstring) : jsstring :=
  dquote :: concat (map json_escape s) ++ [dquote].

(** [Buffer.from(s).toString('hex')] *)
Definition buffer_hex (s : jsstring) : jsstring := concat (map hex2 s).

(** *** Readers, used to state that the writers above lose nothing *)

(** The number whose digits are [s]. *)
Definition of_digits (base : N) (s : jsstring) : N :=
  fold_left (fun acc c => (acc * base + default 0 (digit_value c))%N) s 0%N.

(** The integer printed as [s], with its sign. *)
Definition Z_of_string (base : N) (s : jsstring) : Z :=
  match s with
  | c :: s' => if Ascii.eqb c "-" then - Z.of_N (of_digits base s')
               else Z.of_N (of_digits base s)
  | [] => 0
  end.

(** The bytes whose hexadecimal digits are [s]. *)
Fixpoint buffer_unhex (s : jsstring) : jsstring :=
  match s with
  | a :: b :: s' =>
      ascii_of_N (default 0 (digit_value a) * 16 + default 0 (digit_value b))%N
      :: buffer_unhex s'
  | _ => []
  end.

(** *** Values and objects *)

(** The values the validators and the probes inspect.  An object is given by
    its own properties, in the order [Object.getOwnPropertyNames] lists them;
    reading a name gives the first property of that name. *)
#[local] Set Warnings "-register-all".
Inductive value : Type :=
| VUndefined
| VNull
| VBoolean (b : bool)
| VNumber (n : number)
| VString (s : jsstring)
| VFunction
| VObject (props : list (jsstring * value)).

(** [typeof v] *)
Definition typeof (v : value) : jsstring :=
  match v with
  | VUndefined => str "undefined"
  | VNull => str "object"
  | VBoolean _ => str "boolean"
  | VNumber _ => str "number"
  | VString _ => str "string"
  | VFunction => str "function"
  | VObject _ => str "object"
  end.

(** [!v] is [negb (truthy v)] *)
Definition truthy (v : value) : bool :=
  match v with
  | VUndefined | VNull => false
  | VBoolean b => b
  | VNumber (Num z) => negb (z =? 0)
  | VNumber NaN => false
  | VString s => negb (bool_decide (s = []))
  | VFunction | VObject _ => true
  end.

Fixpoint lookup_prop (props : list (jsstring * value)) (name : jsstring) : option value :=
  match props with
  | [] => None
  | (k, v) :: rest => if bool_decide (k = name) then Some v else lookup_prop rest name
  end.

(** [Object.getOwnPropertyNames(v)] for an object [v]. *)
Definition getOwnPropertyNames (v : value) : list jsstring :=
  match v with
  | VObject props => map fst props
  | _ => []
  end.

(** [name in v] for an object [v] whose prototype does not carry [name]. *)
Definition has (v : value) (name : jsstring) : bool :=
  match v with
  | VObject props => bool_decide (is_Some (lookup_prop props name))
  | _ => false
  end.

(** [v[name]] *)
Definition get (v : value) (name : jsstring) : value :=
  match v with
  | VObject props => default VUndefined (lookup_prop props name)
  | _ => VUndefined
  end.

(** [o[name] = v] on an object: an own property is overwritten in place,
    a new one comes last. *)
Fixpoint assign_prop (props : list (jsstring * value)) (name : jsstring) (v : value)
  : list (jsstring * value) :=
  match props with
  | [] => [(name, v)]
  | (k, x) :: rest =>
      if bool_decide (k = name) then (k, v) :: rest
      else (k, x) :: assign_prop rest name v
  end.

Definition set (o : value) (name : jsstring) (v : value) : value :=
  match o with
  | VObject props => VObject (assign_prop props name v)
  | _ => o
  end.

(** [e.message] of a thrown error; the sources read it from instances of
    [Error] only. *)
Definition message (e : exn) : jsstring :=
  match e with
  | TypeError msg | Error msg | FhevmError _ msg => msg
  | FhevmAbortError => str "FHEVM operation was cancelled"
  | NonError => []
  end.

End JS.

(** ** Capability checks (validation.ts) *)

Module Validation.
Import JS.

(** [hasProperty(obj, propertyName, propertyType)] *)
Definition hasProperty (obj : value) (propertyName propertyType : jsstring) : bool :=
  if negb (truthy obj) || negb (bool_decide (typeof obj = str "object")) then false
  else if negb (has obj propertyName) then false
  else
    let value := get obj propertyName in
    match value with
    | VNull | VUndefined => false
    | _ => bool_decide (typeof value = propertyType)
    end.

Definition requiredMethods : list jsstring := [str "initSDK"; str "createInstance"].

(** The own property names of [obj] whose value is callable. *)
Definition availableMethods (obj : value) : list jsstring :=
  filter (fun prop => typeof (get obj prop) = str "function") (getOwnPropertyNames obj).

(** The count of [requiredMethods] that [availableMethods.includes]. *)
Definition foundRequiredMethods (obj : value) : nat :=
  length (filter (fun method => method ∈ availableMethods obj) requiredMethods).

(** [isValidRelayerSDK(obj)].  The tracing calls are left out; the tests
    whose only effect is a trace line (the count of core methods, the
    [SepoliaConfig] and [__initialized__] probes) decide nothing. *)
Definition isValidRelayerSDK (obj : value) : bool :=
  match obj with
  | VUndefined => false
  | VNull => false
  | _ =>
    if negb (bool_decide (typeof obj = str "object")) then false
    else if bool_decide (length (availableMethods obj) = 0%nat)
            && bool_decide (foundRequiredMethods obj = 0%nat) then false
    else
      let allProps := getOwnPropertyNames obj in
      let totalProps := length allProps in
      if bool_decide (totalProps = 0%nat) then false
      else true
  end.

(** The minimum bar in the words of the specification (section 4.4): a
    non-null object that exposes [initSDK] or [createInstance] as a
    function, or three or more callable members. *)
Definition minimum_bar_of_spec (obj : value) : bool :=
  match obj with
  | VObject _ =>
      bool_decide (typeof (get obj (str "initSDK")) = str "function")
      || bool_decide (typeof (get obj (str "createInstance")) = str "function")
      || bool_decide (3 <= length (availableMethods obj))%nat
  | _ => false
  end.

(** [isValidFhevmWindow(win)] *)
Definition isValidFhevmWindow (win : value) : bool :=
  match win with
  | VUndefined => false
  | VNull => false
  | _ =>
    if negb (bool_decide (typeof win = str "object")) then false
    else if negb (has win (str "relayerSDK")) then false
    else isValidRelayerSDK (get win (str "relayerSDK"))
  end.

(** A character matched by [[0-9a-fA-F]]. *)
Definition is_hex_char (c : ascii) : bool :=
  match digit_value c with
  | Some d => (d <? 16)%N
  | None => false
  end.

(** [isValidAddress(address)] *)
Definition isValidAddress (address : value) : bool :=
  match address with
  | VString a =>
      if negb (startsWith a (str "0x")) then false
      else if negb (bool_decide (length a = 42%nat)) then false
      else forallb is_hex_char (drop 2 a)
  | _ => false
  end.

End Validation.

(** ** The mock instance and its encrypted-input builder (mock/fhevmMock.ts) *)

Module Mock.
Import JS.

(** A value handed to the instance or stored by the builder:
    a [number], a [bigint] or a [boolean]. *)
Inductive plain : Type :=
| PNumber (z : Z)
| PBigInt (z : Z)
| PBoolean (b : bool).

(** [v ? ... : ...] *)
Definition plain_truthy (v : plain) : bool :=
  match v with
  | PNumber z | PBigInt z => negb (z =? 0)
  | PBoolean b => b
  end.

(** [v.toString(16)]; [Boolean.prototype.toString] takes no radix. *)
Definition plain_toString16 (v : plain) : jsstring :=
  match v with
  | PNumber z | PBigInt z => toString16 z
  | PBoolean b => if b then str "true" else str "false"
  end.

Record MockFhevmInstance : Type := {
  chainId : number;
  rpcUrl : jsstring;
  metadata : JS.value;
  publicKey : jsstring;
  publicParams : jsstring
}.

(** [new MockFhevmInstance(options)] *)
Definition newMockFhevmInstance (chain : number) (url : jsstring) (md : JS.value)
  : MockFhevmInstance :=
  {| chainId := chain;
     rpcUrl := url;
     metadata := md;
     publicKey := str "0x" ++ repeat (str "mock") 16;
     publicParams := str "0x" ++ repeat (str "params") 32 |}.

(** [createFhevmMockInstance(options)], after its 100 ms delay. *)
Definition createFhevmMockInstance (chain : number) (url : jsstring) (md : JS.value)
  : outcome MockFhevmInstance :=
  Return (newMockFhevmInstance chain url md).

Definition encrypt8 (self : MockFhevmInstance) (value : Z) : jsstring :=
  str "0x" ++ padStart (toString16 value) 64 "0".

Definition encrypt16 (self : MockFhevmInstance) (value : Z) : jsstring :=
  str "0x" ++ padStart (toString16 value) 64 "0".

Definition encrypt32 (self : MockFhevmInstance) (value : Z) : jsstring :=
  str "0x" ++ padStart (toString16 value) 64 "0".

Definition encrypt64 (self : MockFhevmInstance) (value : Z) : jsstring :=
  str "0x" ++ padStart (toString16 value) 64 "0".

Definition encryptBool (self : MockFhevmInstance) (value : bool) : jsstring :=
  str "0x" ++ repeat (if value then str "01" else str "00") 32.

(** What [decrypt] resolves with: [number | boolean]. *)
Inductive decrypted : Type :=
| DBoolean (b : bool)
| DNumber (n : number).

Definition decrypt (self : MockFhevmInstance) (ciphertext type : jsstring) : decrypted :=
  if bool_decide (type = str "bool") || bool_decide (type = str "ebool") then
    DBoolean (endsWith ciphertext (str "01"))
  else
    let hex := replace ciphertext (str "0x") [] in
    let value := parseInt16 (substring hex 0 8) in
    DNumber value.

(** One accumulated input [{ value, type }]. *)
Record input : Type := {
  value : plain;
  type : jsstring
}.

Record MockFhevmEncryptedInput : Type := {
  contractAddress : jsstring;
  userAddress : jsstring;
  inputs : list input
}.

(** [new MockFhevmEncryptedInput(contractAddress, userAddress)] *)
Definition newMockFhevmEncryptedInput (contract user : jsstring) : MockFhevmEncryptedInput :=
  {| contractAddress := contract; userAddress := user; inputs := [] |}.

Definition createEncryptedInput (self : MockFhevmInstance) (contract user : jsstring)
  : MockFhevmEncryptedInput :=
  newMockFhevmEncryptedInput contract user.

(** [this.inputs.push(i); return this] *)
Definition push (self : MockFhevmEncryptedInput) (i : input) : MockFhevmEncryptedInput :=
  {| contractAddress := contractAddress self;
     userAddress := userAddress self;
     inputs := inputs self ++ [i] |}.

Definition add8 (self : MockFhevmEncryptedInput) (v : Z) : MockFhevmEncryptedInput :=
  push self {| value := PNumber v; type := str "euint8" |}.

Definition add16 (self : MockFhevmEncryptedInput) (v : Z) : MockFhevmEncryptedInput :=
  push self {| value := PNumber v; type := str "euint16" |}.

Definition add32 (self : MockFhevmEncryptedInput) (v : Z) : MockFhevmEncryptedInput :=
  push self {| value := PNumber v; type := str "euint32" |}.

Definition add64 (self : MockFhevmEncryptedInput) (v : Z) : MockFhevmEncryptedInput :=
  push self {| value := PBigInt v; type := str "euint64" |}.

Definition addBool (self : MockFhevmEncryptedInput) (v : bool) : MockFhevmEncryptedInput :=
  push self {| value := PBoolean v; type := str "ebool" |}.

(** The body of the loop of [encrypt]: the handle of one input. *)
Definition handle_of (i : input) : jsstring :=
  if bool_decide (type i = str "ebool") then
    str "0x" ++ repeat (if plain_truthy (value i) then str "01" else str "00") 32
  else
    let valueHex := plain_toString16 (value i) in
    str "0x" ++ padStart valueHex 64 "0".

(** [JSON.stringify] of a stored value: a BigInt cannot be serialised.  A
    number is an integer here and is written with all its decimal digits,
    as [JSON.stringify] does below [10^21]; [NaN] and the infinities, which
    it writes as [null], numbers from [10^21] up, which it writes with an
    exponent, and numbers with a fraction are not values of [plain]. *)
Definition json_plain (v : plain) : outcome jsstring :=
  match v with
  | PNumber z => Return (toString10 z)
  | PBoolean b => Return (if b then str "true" else str "false")
  | PBigInt _ => Throw (TypeError (str "Do not know how to serialize a BigInt"))
  end.

(** [JSON.stringify] of one [{ value, type }]. *)
Definition json_input (i : input) : outcome jsstring :=
  bind (json_plain (value i)) (fun v =>
  Return (str "{" ++ json_quote (str "value") ++ str ":" ++ v ++ str ","
          ++ json_quote (str "type") ++ str ":" ++ json_quote (type i) ++ str "}")).

(** The elements of a JSON array, serialised from left to right and
    separated by commas. *)
Fixpoint json_elements (l : list input) : outcome jsstring :=
  match l with
  | [] => Return []
  | [i] => json_input i
  | i :: l' =>
      bind (json_input i) (fun s =>
      bind (json_elements l') (fun rest => Return (s ++ str "," ++ rest)))
  end.

(** [JSON.stringify(proofData)], with [timestamp] the value of [Date.now()]. *)
Definition json_proofData (self : MockFhevmEncryptedInput) (timestamp : Z)
  : outcome jsstring :=
  bind (json_elements (inputs self)) (fun elems =>
  Return (str "{" ++ json_quote (str "contractAddress") ++ str ":"
          ++ json_quote (contractAddress self) ++ str ","
          ++ json_quote (str "userAddress") ++ str ":"
          ++ json_quote (userAddress self) ++ str ","
          ++ json_quote (str "inputs") ++ str ":[" ++ elems ++ str "],"
          ++ json_quote (str "timestamp") ++ str ":" ++ toString10 timestamp
          ++ str "}")).

Record EncryptResult : Type := {
  handles : list jsstring;
  inputProof : jsstring
}.

(** [encrypt()], called when [Date.now()] reads [now]. The builder itself
    is left as it was. *)
Definition encrypt (self : MockFhevmEncryptedInput) (now : Z) : outcome EncryptResult :=
  let handles := map handle_of (inputs self) in
  bind (json_proofData self now) (fun json =>
  let inputProof := str "0x" ++ buffer_hex json in
  Return {| handles := handles; inputProof := inputProof |}).

(** A call of the builder's interface. *)
Inductive call : Type :=
| Add8 (v : Z)
| Add16 (v : Z)
| Add32 (v : Z)
| Add64 (v : Z)
| AddBool (v : bool).

Definition apply_call (self : MockFhevmEncryptedInput) (c : call) : MockFhevmEncryptedInput :=
  match c with
  | Add8 v => add8 self v
  | Add16 v => add16 self v
  | Add32 v => add32 self v
  | Add64 v => add64 self v
  | AddBool v => addBool self v
  end.

(** The entry a call pushes. *)
Definition input_of_call (c : call) : input :=
  match c with
  | Add8 v => {| value := PNumber v; type := str "euint8" |}
  | Add16 v => {| value := PNumber v; type := str "euint16" |}
  | Add32 v => {| value := PNumber v; type := str "euint32" |}
  | Add64 v => {| value := PBigInt v; type := str "euint64" |}
  | AddBool v => {| value := PBoolean v; type := str "ebool" |}
  end.

(** [b.addX(..).addY(..)...] *)
Definition apply_calls (self : MockFhevmEncryptedInput) (cs : list call)
  : MockFhevmEncryptedInput :=
  foldl apply_call self cs.

(** The handle the instance itself gives for the plaintext of a call. *)
Definition instance_handle (inst : MockFhevmInstance) (c : call) : jsstring :=
  match c with
  | Add8 v => encrypt8 inst v
  | Add16 v => encrypt16 inst v
  | Add32 v => encrypt32 inst v
  | Add64 v => encrypt64 inst v
  | AddBool v => encryptBool inst v
  end.

(** A Hardhat node's relayer metadata and the mock instance made for it,
    used as a running example. *)
Definition hardhat_metadata : JS.value :=
  VObject [(str "ACLAddress", VString (str "0x50157CFfD6bBFA2DECe204a89ec419c23ef5755D"));
           (str "InputVerifierAddress", VString (str "0x901F8942346f7AB3a01F6D7613119Bca447Bb030"));
           (str "KMSVerifierAddress", VString (str "0x1364cBBf2cDF5032C47d8226a6f6FBD2AFCDacAC"))].

Definition hardhat_instance : MockFhevmInstance :=
  newMockFhevmInstance (Num 31337) (str "http://localhost:8545") hardhat_metadata.

Definition is_add64 (c : call) : bool :=
  match c with
  | Add64 _ => true
  | _ => false
  end.

End Mock.


(** ** Network resolution, the Hardhat probe and instance creation
       (createFhevmInstance.ts, constants.ts) *)

Module Instance.
Import JS Validation.

(** [FHEVM_CONFIG.SEPOLIA.chainId] *)
Definition SEPOLIA_chainId : Z := 11155111.

(** What lies outside the function: the JSON-RPC nodes, the wallet, the
    page's [window] and the relayer SDK found there. *)
Record world : Type := {
  (** [Number((await new JsonRpcProvider(url).getNetwork()).chainId)] *)
  rpc_getNetwork : jsstring -> outcome Z;
  (** [new JsonRpcProvider(url).send(method, [])] *)
  rpc_send : jsstring -> jsstring -> outcome value;
  (** [provider.request({ method })]: the reply is read as a string *)
  provider_request : value -> jsstring -> outcome jsstring;
  (** [window.relayerSDK], if ["relayerSDK" in window] *)
  window_relayerSDK : option value;
  (** [new RelayerSDKLoader(..).load()]: the SDK object the page holds once
      the promise is fulfilled, if any *)
  sdk_load : outcome (option value);
  (** [relayerSDK.initSDK(options)] *)
  sdk_initSDK : outcome value;
  (** [relayerSDK.createInstance(config)] *)
  sdk_createInstance : value -> outcome value;
  (** [import("./mock/fhevmMock")] *)
  import_fhevmMock : outcome unit
}.

(** The [window] object as the validators see it. *)
Definition window_of (sdk : option value) : value :=
  match sdk with
  | Some v => VObject [(str "relayerSDK", v)]
  | None => VObject []
  end.

(** [getChainId(providerOrUrl)] *)
Definition getChainId (w : world) (providerOrUrl : value) : outcome number :=
  match providerOrUrl with
  | VString url => bind (rpc_getNetwork w url) (fun c => Return (Num c))
  | _ =>
    if negb (truthy providerOrUrl) then
      Throw (Error (str "Provider is null or undefined"))
    else if negb (bool_decide (typeof providerOrUrl = str "object")) then
      Throw (Error (str "Provider must be an object with request method"))
    else if negb (bool_decide (typeof (get providerOrUrl (str "request")) = str "function")) then
      Throw (Error (str "Invalid provider: must be EIP-1193 compatible provider with request method"))
    else
      match provider_request w providerOrUrl (str "eth_chainId") with
      | Return chainId => Return (parseInt16 chainId)
      | Throw error =>
          Throw (Error (str "Failed to get chainId: "
                        ++ if instanceofError error then message error
                           else str "Unknown error"))
      end
  end.

(** [getWeb3Client(rpcUrl)] *)
Definition getWeb3Client (w : world) (rpcUrl : jsstring) : outcome value :=
  match rpc_send w rpcUrl (str "web3_clientVersion") with
  | Return version => Return version
  | Throw e =>
      Throw (FhevmError (str "WEB3_CLIENTVERSION_ERROR")
               (str "The URL " ++ rpcUrl
                ++ str " is not a Web3 node or is not reachable. Please check the endpoint."))
  end.

(** [getFHEVMRelayerMetadata(rpcUrl)] *)
Definition getFHEVMRelayerMetadata (w : world) (rpcUrl : jsstring) : outcome value :=
  match rpc_send w rpcUrl (str "fhevm_relayer_metadata") with
  | Return metadata => Return metadata
  | Throw e =>
      Throw (FhevmError (str "FHEVM_RELAYER_METADATA_ERROR")
               (str "The URL " ++ rpcUrl
                ++ str " is not a FHEVM Hardhat node or is not reachable. Please check the endpoint."))
  end.

Definition requiredFields : list jsstring :=
  [str "ACLAddress"; str "InputVerifierAddress"; str "KMSVerifierAddress"].

(** The test of the loop over [requiredFields]: the field makes the probe
    give up. *)
Definition field_rejected (metadata : value) (field : jsstring) : bool :=
  negb (has metadata field)
  || negb (bool_decide (typeof (get metadata field) = str "string"))
  || negb (match get metadata field with
           | VString s => startsWith s (str "0x")
           | _ => false
           end).

(** The test on the client version: the node is not a Hardhat node. *)
Definition not_hardhat (version : value) : bool :=
  negb (bool_decide (typeof version = str "string"))
  || negb (match version with
           | VString s => includes (toLowerCase s) (str "hardhat")
           | _ => false
           end).

(** [tryFetchFHEVMHardhatNodeRelayerMetadata(rpcUrl)]; [None] is [undefined]. *)
Definition tryFetchFHEVMHardhatNodeRelayerMetadata (w : world) (rpcUrl : jsstring)
  : outcome (option value) :=
  bind (getWeb3Client w rpcUrl) (fun version =>
  if not_hardhat version then Return None
  else
    match getFHEVMRelayerMetadata w rpcUrl with
    | Return metadata =>
        if negb (truthy metadata) || negb (bool_decide (typeof metadata = str "object"))
        then Return None
        else if existsb (field_rejected metadata) requiredFields then Return None
        else Return (Some metadata)
    | Throw _ => Return None
    end).

Record ResolveResult : Type := {
  isMock : bool;
  chainId : number;
  rpcUrl : option jsstring
}.

(** [{ 31337: "http://localhost:8545", ...(mockChains ?? {}) }] *)
Definition merged_mockChains (mockChains : option (gmap Z jsstring)) : gmap Z jsstring :=
  default ∅ mockChains ∪ {[ 31337 := str "http://localhost:8545" ]}.

(** [table[chainId]] on a table keyed by chain ids. *)
Definition table_lookup (table : gmap Z jsstring) (chainId : number) : option jsstring :=
  match chainId with
  | Num c => table !! c
  | NaN => None
  end.

(** [!rpcUrl] *)
Definition no_url (rpcUrl : option jsstring) : bool :=
  match rpcUrl with
  | None => true
  | Some u => bool_decide (u = [])
  end.

(** [resolve(providerOrUrl, mockChains)] *)
Definition resolve (w : world) (providerOrUrl : value) (mockChains : option (gmap Z jsstring))
  : outcome ResolveResult :=
  bind (getChainId w providerOrUrl) (fun chainId =>
  let rpcUrl := match providerOrUrl with VString u => Some u | _ => None end in
  let _mockChains := merged_mockChains mockChains in
  if bool_decide (is_Some (table_lookup _mockChains chainId)) then
    let rpcUrl := if no_url rpcUrl then table_lookup _mockChains chainId else rpcUrl in
    Return {| isMock := true; chainId := chainId; rpcUrl := rpcUrl |}
  else
    Return {| isMock := false; chainId := chainId; rpcUrl := rpcUrl |}).

(** A created instance: the mock one or the relayer SDK's. *)
Inductive FhevmInstance : Type :=
| MockInstance (m : Mock.MockFhevmInstance)
| SdkInstance (v : value).

(** The abort signal: [signal k] is [signal.aborted] as the [k]-th
    [throwIfAborted()] of the function text reads it. *)
Definition AbortSignal := nat -> bool.

Definition throwIfAborted (signal : AbortSignal) (k : nat) : outcome unit :=
  if signal k then Throw FhevmAbortError else Return tt.

(** [isFhevmInitialized()] *)
Definition isFhevmInitialized (sdk : option value) : bool :=
  if negb (isValidFhevmWindow (window_of sdk)) then false
  else match get (default VUndefined sdk) (str "__initialized__") with
       | VBoolean true => true
       | _ => false
       end.

(** [obj.f(...)] where [call] is what the function returns: a [TypeError]
    when [obj.f] is not callable. *)
Definition call_method {A} (obj : value) (f : jsstring) (call : outcome A) : outcome A :=
  if bool_decide (typeof (get obj f) = str "function") then call
  else Throw (TypeError (f ++ str " is not a function")).

(** [o.p] on a value that may be [undefined] or [null]. *)
Definition member (o : value) (p : jsstring) : outcome value :=
  match o with
  | VUndefined | VNull => Throw (TypeError (str "Cannot read properties of undefined"))
  | _ => Return (get o p)
  end.

(** [initFhevmSDK(options)]; it returns the SDK object with its
    [__initialized__] property set. *)
Definition initFhevmSDK (w : world) (sdk : option value) : outcome value :=
  if negb (isValidFhevmWindow (window_of sdk)) then
    Throw (Error (str "window.relayerSDK is not available"))
  else
    let relayerSDK := default VUndefined sdk in
    bind (call_method relayerSDK (str "initSDK") (sdk_initSDK w)) (fun result =>
    let relayerSDK' := set relayerSDK (str "__initialized__") result in
    if negb (truthy result) then Throw (Error (str "window.relayerSDK.initSDK failed"))
    else Return relayerSDK').

(** The part of [createFhevmInstance] that uses the real relayer SDK.  The
    message of the error for an invalid ACL address goes on with the
    address in the code, and the [TypeError]s of [call_method] and
    [member] carry the engine's texts, which name the receiver; the texts
    are cut short here. *)
Definition createSepoliaInstance (w : world) (providerOrUrl : value) (signal : AbortSignal)
  : outcome FhevmInstance :=
  bind (throwIfAborted signal 2) (fun _ =>
  bind (if negb (isValidFhevmWindow (window_of (window_relayerSDK w))) then
          bind (sdk_load w) (fun sdk =>
          bind (throwIfAborted signal 3) (fun _ => Return sdk))
        else Return (window_relayerSDK w)) (fun sdk =>
  bind (if negb (isFhevmInitialized sdk) then
          bind (initFhevmSDK w sdk) (fun sdk' =>
          bind (throwIfAborted signal 4) (fun _ => Return sdk'))
        else Return (default VUndefined sdk)) (fun relayerSDK =>
  bind (member (get relayerSDK (str "SepoliaConfig")) (str "aclContractAddress")) (fun aclAddress =>
  if negb (isValidAddress aclAddress) then
    Throw (Error (str "Invalid ACL address"))
  else
    bind (throwIfAborted signal 5) (fun _ =>
    let config :=
      set (set (set (VObject (match get relayerSDK (str "SepoliaConfig") with
                              | VObject props => props
                              | _ => []
                              end))
                  (str "network") providerOrUrl)
             (str "publicKey") (VString []))
        (str "publicParams") (VString []) in
    bind (call_method relayerSDK (str "createInstance") (sdk_createInstance w config))
      (fun instance =>
    bind (throwIfAborted signal 6) (fun _ =>
    Return (SdkInstance instance)))))))).

(** The mock branch of [createFhevmInstance], inside its [try]. *)
Definition createMockInstance (w : world) (rpcUrl : jsstring) (chainId : number)
    (signal : AbortSignal) : outcome (option FhevmInstance) :=
  bind (tryFetchFHEVMHardhatNodeRelayerMetadata w rpcUrl) (fun fhevmRelayerMetadata =>
  match fhevmRelayerMetadata with
  | Some metadata =>
      bind (import_fhevmMock w) (fun _ =>
      bind (Mock.createFhevmMockInstance chainId rpcUrl metadata) (fun mockInstance =>
      bind (throwIfAborted signal 1) (fun _ =>
      Return (Some (MockInstance mockInstance)))))
  | None => Return None
  end).

(** The text of the error for an unsupported network. *)
Definition number_toString (n : number) : jsstring :=
  match n with
  | Num z => toString10 z
  | NaN => str "NaN"
  end.

Definition unsupported_network (chainId : number) : exn :=
  Error (str "Unsupported network: chainId=" ++ number_toString chainId).

(** [createFhevmInstance({ provider, mockChains, signal })]; the status
    notifications are not recorded. *)
Definition createFhevmInstance (w : world) (providerOrUrl : value)
    (mockChains : option (gmap Z jsstring)) (signal : AbortSignal) : outcome FhevmInstance :=
  bind (resolve w providerOrUrl mockChains) (fun r =>
  bind (throwIfAborted signal 0) (fun _ =>
  let mock :=
    match rpcUrl r with
    | Some url =>
        if isMock r && negb (no_url (rpcUrl r)) then
          match createMockInstance w url (chainId r) signal with
          | Return (Some mockInstance) => Some mockInstance
          | Return None => None
          | Throw error => None
          end
        else None
    | None => None
    end in
  match mock with
  | Some mockInstance => Return mockInstance
  | None =>
      if bool_decide (chainId r = Num SEPOLIA_chainId) then
        createSepoliaInstance w providerOrUrl signal
      else Throw (unsupported_network (chainId r))
  end)).

(** The three addresses as the probe wants them, said without the code:
    the reply is an object and each required field is a string that begins
    with ["0x"]. *)
Definition prefixed_addresses (metadata : value) : Prop :=
  exists props, metadata = VObject props /\
    forall field, field ∈ requiredFields ->
      exists rest, lookup_prop props field = Some (VString (str "0x" ++ rest)).

(** A mock environment, as [createFhevmInstance] takes it: the chain is a
    mock chain with an RPC URL, the node behind the URL names Hardhat in
    its client version and answers [fhevm_relayer_metadata] with an object
    whose three addresses are strings that begin with ["0x"].  Nothing more
    is asked of the addresses: their length and their digits are not
    looked at, so metadata that [isValidAddress] would refuse makes a mock
    environment too. *)
Definition mock_environment (w : world) (r : ResolveResult) : Prop :=
  isMock r = true /\
  exists url version metadata,
    rpcUrl r = Some url /\ url <> [] /\
    rpc_send w url (str "web3_clientVersion") = Return (VString version) /\
    (exists pre post, toLowerCase version = pre ++ str "hardhat" ++ post) /\
    rpc_send w url (str "fhevm_relayer_metadata") = Return metadata /\
    prefixed_addresses metadata.

(** *** Example worlds *)

(** A wallet: an object with a [request] function. *)
Definition wallet : value := VObject [(str "request", VFunction)].

(** A world with one kind of node behind every URL: it is on chain [chain],
    answers [web3_clientVersion] with [version] and
    [fhevm_relayer_metadata] with [metadata]; the wallet reports
    [chainHex]; the page holds no SDK and cannot load one. *)
Definition node_world (chain : Z) (chainHex : jsstring) (version : value)
    (metadata : outcome value) : world :=
  {| rpc_getNetwork := fun _ => Return chain;
     rpc_send := fun _ method =>
       if bool_decide (method = str "web3_clientVersion") then Return version
       else if bool_decide (method = str "fhevm_relayer_metadata") then metadata
       else Throw (Error (str "Method not found"));
     provider_request := fun _ _ => Return chainHex;
     window_relayerSDK := None;
     sdk_load := Throw (Error (str "offline"));
     sdk_initSDK := Throw (Error (str "offline"));
     sdk_createInstance := fun _ => Throw (Error (str "offline"));
     import_fhevmMock := Return tt |}.

Definition hardhat_version : value :=
  VString (str "HardhatNetwork/2.22.17/@nomicfoundation/ethereumjs-vm/5.0.4").

(** A Hardhat node with the FHEVM plugin, on chain 31337. *)
Definition hardhat_world : world :=
  node_world 31337 (str "0x7a69") hardhat_version (Return Mock.hardhat_metadata).

(** The same node answering with addresses that are 0x-prefixed but far
    from 40 hexadecimal digits. *)
Definition short_metadata : value :=
  VObject [(str "ACLAddress", VString (str "0x12"));
           (str "InputVerifierAddress", VString (str "0xzz"));
           (str "KMSVerifierAddress", VString (str "0x"))].

Definition short_address_world : world :=
  node_world 31337 (str "0x7a69") hardhat_version (Return short_metadata).

(** A node that is not Hardhat, on chain 1. *)
Definition geth_world : world :=
  node_world 1 (str "0x1") (VString (str "Geth/v1.13.14-stable/linux-amd64/go1.21.7"))
    (Throw (Error (str "Method not found"))).

End Instance.

(** ** The SDK loader (relayerSDKLoader.ts) *)

Module Loader.
Import JS Validation.

Definition SDK_CDN_URL : jsstring :=
  str "https://cdn.zama.ai/relayer-sdk-js/0.1.2/relayer-sdk-js.umd.cjs".

Inductive promise_state : Type :=
| Pending
| Fulfilled
| Rejected (e : exn).

(** A callback waiting in [setTimeout], with the promise it settles. *)
Inductive timer : Type :=
| CheckExisting (p : nat)   (* 100 ms: a script tag was already there *)
| Validate (p : nat)        (* 50 ms after the script's load event *)
| LoadTimeout (p : nat).    (* 30 s *)

(** The page the loader runs in.  Promises and timers are named by their
    index; [script_tags] counts the [script] elements of the document whose
    [src] is [SDK_CDN_URL], and [appended] those that [_performLoad] has
    added to it, each of which starts a fetch from the CDN. *)
Record page : Type := {
  in_browser : bool;
  relayerSDK : option value;
  script_tags : nat;
  appended : nat;
  promises : list promise_state;
  timers : list (option timer);
  handlers : list (nat * nat)
}.

(** The loader object: its [_loadPromise] field. *)
Record RelayerSDKLoader : Type := {
  _loadPromise : option nat
}.

(** [new RelayerSDKLoader(options)] *)
Definition newRelayerSDKLoader : RelayerSDKLoader := {| _loadPromise := None |}.

Definition window (w : page) : value :=
  match relayerSDK w with
  | Some v => VObject [(str "relayerSDK", v)]
  | None => VObject []
  end.

Definition with_promises (w : page) (ps : list promise_state) : page :=
  {| in_browser := in_browser w; relayerSDK := relayerSDK w;
     script_tags := script_tags w; appended := appended w;
     promises := ps; timers := timers w; handlers := handlers w |}.

Definition with_timers (w : page) (ts : list (option timer)) : page :=
  {| in_browser := in_browser w; relayerSDK := relayerSDK w;
     script_tags := script_tags w; appended := appended w;
     promises := promises w; timers := ts; handlers := handlers w |}.

Definition with_relayerSDK (w : page) (sdk : option value) : page :=
  {| in_browser := in_browser w; relayerSDK := sdk;
     script_tags := script_tags w; appended := appended w;
     promises := promises w; timers := timers w; handlers := handlers w |}.

Definition with_script_tags (w : page) (n : nat) : page :=
  {| in_browser := in_browser w; relayerSDK := relayerSDK w;
     script_tags := n; appended := appended w;
     promises := promises w; timers := timers w; handlers := handlers w |}.

(** A new promise in state [st]; its name is returned. *)
Definition new_promise (w : page) (st : promise_state) : nat * page :=
  (length (promises w), with_promises w (promises w ++ [st])).

(** [resolve()] or [reject(e)] of a promise: only a pending promise changes. *)
Definition settle (w : page) (p : nat) (st : promise_state) : page :=
  match promises w !! p with
  | Some Pending => with_promises w (<[p := st]> (promises w))
  | _ => w
  end.

(** [setTimeout(callback, ms)]; the timer's name is returned. *)
Definition setTimeout (w : page) (t : timer) : nat * page :=
  (length (timers w), with_timers w (timers w ++ [Some t])).

(** [clearTimeout(t)] *)
Definition clearTimeout (w : page) (t : nat) : page :=
  with_timers w (<[t := None]> (timers w)).

(** [isLoaded()] *)
Definition isLoaded (w : page) : outcome bool :=
  if negb (in_browser w) then
    Throw (Error (str "RelayerSDKLoader: can only be used in the browser"))
  else Return (isValidFhevmWindow (window w)).

(** [_performLoad()]: the executor of the new promise runs at once. *)
Definition _performLoad (w : page) : nat * page :=
  let '(p, w) := new_promise w Pending in
  if bool_decide (0 < script_tags w)%nat then
    (* existingScript *)
    let '(_, w) := setTimeout w (CheckExisting p) in
    (p, w)
  else
    let '(timeout, w) := setTimeout w (LoadTimeout p) in
    (* document.head.appendChild(script) *)
    (p, {| in_browser := in_browser w; relayerSDK := relayerSDK w;
           script_tags := S (script_tags w); appended := S (appended w);
           promises := promises w; timers := timers w;
           handlers := handlers w ++ [(p, timeout)] |}).

(** [load()] *)
Definition load (self : RelayerSDKLoader) (w : page) : nat * RelayerSDKLoader * page :=
  match _loadPromise self with
  | Some p => (p, self, w)
  | None =>
    if negb (in_browser w) then
      let '(p, w) :=
        new_promise w (Rejected (Error (str "RelayerSDKLoader: can only be used in the browser"))) in
      (p, self, w)
    else
      let continue (w : page) :=
        let '(p, w) := _performLoad w in
        (p, {| _loadPromise := Some p |}, w) in
      match relayerSDK w with
      | Some sdk =>
          if negb (isValidRelayerSDK sdk) then
            (* delete window.relayerSDK; remove the script tags *)
            continue (with_script_tags (with_relayerSDK w None) 0)
          else
            let '(p, w) := new_promise w Fulfilled in
            (p, self, w)
      | None => continue w
      end
  end.

(** [forceReload()].  It reads [document] before it tests [window]: outside
    a browser, where neither is defined, the call itself throws (a
    [ReferenceError]) and returns no promise; [None] stands for that.
    As in [load], [window.relayerSDK] is a property that [delete] removes
    (one set by assignment is). *)
Definition forceReload (self : RelayerSDKLoader) (w : page)
  : option (nat * RelayerSDKLoader * page) :=
  let self := {| _loadPromise := None |} in
  if negb (in_browser w) then None
  else
    let w := with_script_tags w 0 in
    let w := match relayerSDK w with
             | Some _ => with_relayerSDK w None
             | None => w
             end in
    Some (load self w).

(** What happens on the page between two calls. *)
Inductive event : Type :=
| FireTimer (t : nat)
| ScriptLoad (k : nat)       (* the load event of the [k]-th appended script *)
| ScriptError (k : nat)      (* its error event *)
| SetSDK (sdk : option value). (* a script defines or changes [window.relayerSDK] *)

Definition invalid_existing : exn :=
  Error (str "RelayerSDKLoader: Script exists but window.relayerSDK is invalid").
Definition invalid_loaded : exn :=
  Error (str "RelayerSDKLoader: Script loaded from " ++ SDK_CDN_URL
         ++ str " but window.relayerSDK is invalid").
Definition load_failed : exn :=
  Error (str "RelayerSDKLoader: Failed to load SDK from " ++ SDK_CDN_URL).
Definition load_timeout : exn :=
  Error (str "RelayerSDKLoader: Load timeout for " ++ SDK_CDN_URL).

Definition step (w : page) (e : event) : page :=
  match e with
  | FireTimer t =>
      match timers w !! t with
      | Some (Some tm) =>
          let w := clearTimeout w t in
          match tm with
          | CheckExisting p =>
              if negb (isValidFhevmWindow (window w)) then settle w p (Rejected invalid_existing)
              else settle w p Fulfilled
          | Validate p =>
              if negb (isValidFhevmWindow (window w)) then settle w p (Rejected invalid_loaded)
              else settle w p Fulfilled
          | LoadTimeout p => settle w p (Rejected load_timeout)
          end
      | _ => w
      end
  | ScriptLoad k =>
      match handlers w !! k with
      | Some (p, timeout) =>
          let w := clearTimeout w timeout in
          snd (setTimeout w (Validate p))
      | None => w
      end
  | ScriptError k =>
      match handlers w !! k with
      | Some (p, timeout) =>
          let w := clearTimeout w timeout in
          settle w p (Rejected load_failed)
      | None => w
      end
  | SetSDK sdk => with_relayerSDK w sdk
  end.

Definition run (w : page) (es : list event) : page := foldl step w es.

(** Whether a call of [load()] adds the script tag, and so starts a fetch:
    no load is in progress on this loader, the page has no valid SDK, and
    no tag for the CDN URL is left in the document (the tags are removed
    together with an invalid SDK). *)
Definition adds_script (self : RelayerSDKLoader) (w : page) : bool :=
  match _loadPromise self with
  | Some _ => false
  | None =>
      in_browser w
      && match relayerSDK w with
         | Some sdk => negb (isValidRelayerSDK sdk)
         | None => bool_decide (script_tags w = 0%nat)
         end
  end.

(** *** Example pages *)

(** A fresh page: no SDK, no script tag. *)
Definition fresh_page : page :=
  {| in_browser := true; relayerSDK := None; script_tags := 0; appended := 0;
     promises := []; timers := []; handlers := [] |}.

(** The page after another loader object (each call of
    [createFhevmInstance] makes its own) has begun to load the SDK on a
    fresh page: its script tag is in the document and
    [window.relayerSDK] is not defined yet. *)
Definition page_with_tag : page := (load newRelayerSDKLoader fresh_page).2.

End Loader.

(** ** The lifecycle hook (hooks/useFhevm.ts) *)

Module Hook.
Import JS.

(** [FhevmGoState] *)
Inductive FhevmGoState : Type :=
| idle
| loading
| ready
| error_state.

Section Controller.

(** The wallet transports ([provider]), compared by [===], and the
    instances that [createFhevmInstance] resolves with. *)
Context {Provider : Type} `{EqDecision Provider} {FhevmInstance : Type}.

(** One call of [createFhevmInstance] by the main effect, with what its
    [then] and [catch] callbacks have captured. *)
Record attempt : Type := {
  thisSignal : nat;
  thisProvider : Provider
}.

(** The state of a mounted hook: the [useState] cells, the [useRef] cells,
    every [AbortController] made so far ([controllers !! c] is
    [signal.aborted] of the [c]-th one), and the attempts started so far. *)
Record state : Type := {
  instance : option FhevmInstance;
  status : FhevmGoState;
  error : option exn;
  _isRunning : bool;
  _providerChanged : nat;
  _abortControllerRef : option nat;
  _providerRef : option Provider;
  _chainIdRef : option Z;
  controllers : list bool;
  started : list attempt
}.

(** The first render of [useFhevm({ provider, chainId, enabled })]. *)
Definition mount (provider : option Provider) (chainId : option Z) (enabled : bool) : state :=
  {| instance := None; status := idle; error := None;
     _isRunning := enabled; _providerChanged := 0;
     _abortControllerRef := None; _providerRef := provider; _chainIdRef := chainId;
     controllers := []; started := [] |}.

(** What the caller reads: [{ instance, error, status }]. *)
Definition observable (s : state) : option FhevmInstance * option exn * FhevmGoState :=
  (instance s, error s, status s).

(** [signal.aborted] of controller [c]. *)
Definition aborted (s : state) (c : nat) : bool :=
  default false (controllers s !! c).

(** [_setInstance(i); _setError(e); _setStatus(st)] *)
Definition set_result (s : state) (i : option FhevmInstance) (e : option exn)
    (st : FhevmGoState) : state :=
  {| instance := i; status := st; error := e;
     _isRunning := _isRunning s; _providerChanged := _providerChanged s;
     _abortControllerRef := _abortControllerRef s; _providerRef := _providerRef s;
     _chainIdRef := _chainIdRef s;
     controllers := controllers s; started := started s |}.

(** [_abortControllerRef.current.abort()] *)
Definition abort (s : state) (c : nat) : state :=
  {| instance := instance s; status := status s; error := error s;
     _isRunning := _isRunning s; _providerChanged := _providerChanged s;
     _abortControllerRef := _abortControllerRef s; _providerRef := _providerRef s;
     _chainIdRef := _chainIdRef s;
     controllers := <[c := true]> (controllers s); started := started s |}.

Definition set_abortControllerRef (s : state) (r : option nat) : state :=
  {| instance := instance s; status := status s; error := error s;
     _isRunning := _isRunning s; _providerChanged := _providerChanged s;
     _abortControllerRef := r; _providerRef := _providerRef s;
     _chainIdRef := _chainIdRef s;
     controllers := controllers s; started := started s |}.

Definition set_refs (s : state) (p : option Provider) (c : option Z) : state :=
  {| instance := instance s; status := status s; error := error s;
     _isRunning := _isRunning s; _providerChanged := _providerChanged s;
     _abortControllerRef := _abortControllerRef s; _providerRef := p;
     _chainIdRef := c;
     controllers := controllers s; started := started s |}.

(** [refresh()], as made by a render with the given [provider] and [chainId]. *)
Definition refresh (provider : option Provider) (chainId : option Z) (s : state) : state :=
  let s :=
    match _abortControllerRef s with
    | Some c =>
        let s := set_refs s None None in
        let s := abort s c in
        set_abortControllerRef s None
    | None => s
    end in
  let s := set_refs s provider chainId in
  let s := set_result s None None idle in
  match provider with
  | Some _ =>
      {| instance := instance s; status := status s; error := error s;
         _isRunning := _isRunning s; _providerChanged := S (_providerChanged s);
         _abortControllerRef := _abortControllerRef s; _providerRef := _providerRef s;
         _chainIdRef := _chainIdRef s;
         controllers := controllers s; started := started s |}
  | None => s
  end.

(** The effect on [enabled]: [_setIsRunning(enabled)]. *)
Definition setIsRunning (enabled : bool) (s : state) : state :=
  {| instance := instance s; status := status s; error := error s;
     _isRunning := enabled; _providerChanged := _providerChanged s;
     _abortControllerRef := _abortControllerRef s; _providerRef := _providerRef s;
     _chainIdRef := _chainIdRef s;
     controllers := controllers s; started := started s |}.

(** The main effect, up to and including the call of [createFhevmInstance]. *)
Definition mainEffect (s : state) : state :=
  if negb (_isRunning s) then
    let s :=
      match _abortControllerRef s with
      | Some c => set_abortControllerRef (abort s c) None
      | None => s
      end in
    set_result s None None idle
  else
    match _providerRef s with
    | None => set_result s None None idle
    | Some provider =>
        let '(c, s) :=
          match _abortControllerRef s with
          | Some c => (c, s)
          | None =>
              (* new AbortController() *)
              let c := length (controllers s) in
              (c, {| instance := instance s; status := status s; error := error s;
                     _isRunning := _isRunning s; _providerChanged := _providerChanged s;
                     _abortControllerRef := Some c; _providerRef := _providerRef s;
                     _chainIdRef := _chainIdRef s;
                     controllers := controllers s ++ [false]; started := started s |})
          end in
        if aborted s c then
          (* _assert throws: the effect stops here *)
          s
        else
          let s := set_result s (instance s) None loading in
          {| instance := instance s; status := status s; error := error s;
             _isRunning := _isRunning s; _providerChanged := _providerChanged s;
             _abortControllerRef := _abortControllerRef s; _providerRef := _providerRef s;
             _chainIdRef := _chainIdRef s;
             controllers := controllers s;
             started := started s ++ [{| thisSignal := c; thisProvider := provider |}] |}
    end.

(** The guards shared by the [then] and the [catch] callback of an attempt:
    the callback goes on to set the state only if the signal is not aborted
    and the provider is still the current one (else [_assert] throws). *)
Definition may_set (s : state) (a : attempt) : bool :=
  negb (aborted s (thisSignal a))
  && bool_decide (Some (thisProvider a) = _providerRef s).

(** The [then] callback of attempt [a], called with [newInstance]. *)
Definition onResolved (a : attempt) (newInstance : FhevmInstance) (s : state) : state :=
  if may_set s a then set_result s (Some newInstance) None ready else s.

(** The [catch] callback of attempt [a], called with [e]. *)
Definition onRejected (a : attempt) (e : exn) (s : state) : state :=
  if may_set s a then set_result s None (Some e) error_state else s.

(** The cleanup on unmount. *)
Definition unmount (s : state) : state :=
  match _abortControllerRef s with
  | Some c => abort s c
  | None => s
  end.

(** What can happen to a mounted hook: a render runs [refresh] (the caller
    asked for it, or [provider] or [chainId] changed), the [enabled] effect,
    the main effect; the promise of the [k]-th attempt settles; the
    component unmounts. *)
Inductive event : Type :=
| Refresh (provider : option Provider) (chainId : option Z)
| SetIsRunning (enabled : bool)
| MainEffect
| Resolved (k : nat) (newInstance : FhevmInstance)
| Rejected (k : nat) (e : exn)
| Unmount.

Definition step (s : state) (e : event) : state :=
  match e with
  | Refresh provider chainId => refresh provider chainId s
  | SetIsRunning enabled => setIsRunning enabled s
  | MainEffect => mainEffect s
  | Resolved k newInstance =>
      match started s !! k with
      | Some a => onResolved a newInstance s
      | None => s
      end
  | Rejected k e =>
      match started s !! k with
      | Some a => onRejected a e s
      | None => s
      end
  | Unmount => unmount s
  end.

Definition run (s : state) (es : list event) : state := foldl step s es.

(** What holds of every state the hook can reach: an attempt whose signal
    is not aborted runs on the controller that [_abortControllerRef] holds,
    and every controller named anywhere has been created. *)
Record invariant (s : state) : Prop := {
  live_is_current :
    forall a : attempt, a ∈ started s -> aborted s (thisSignal a) = false ->
              _abortControllerRef s = Some (thisSignal a);
  ref_created :
    forall c, _abortControllerRef s = Some c -> (c < length (controllers s))%nat;
  signal_created :
    forall a : attempt, a ∈ started s -> (thisSignal a < length (controllers s))%nat
}.

End Controller.

End Hook.

(** ** Builders whose numbers are written in full *)

Module Plain.
Import JS Mock.

(** A stored value that [JSON.stringify] writes so that it can be read
    back: a boolean, or a number that is an integer below [10^21] in
    absolute value. *)
Definition written_in_full (v : plain) : Prop :=
  match v with
  | PNumber z => Z.abs z < 10 ^ 21
  | PBigInt _ => False
  | PBoolean _ => True
  end.

(** A builder all of whose inputs are such values. *)
Definition inputs_written_in_full (b : MockFhevmEncryptedInput) : Prop :=
  Forall (fun i => written_in_full (value i)) (inputs b).

End Plain.

(** ** A page that holds the relayer SDK, on Sepolia *)

Module Worlds.
Import JS Instance.

(** The SDK object as the CDN script defines it, before [initSDK]. *)
Definition relayer_sdk : value :=
  VObject [(str "initSDK", VFunction); (str "createInstance", VFunction);
           (str "SepoliaConfig",
            VObject [(str "aclContractAddress",
                      VString (str "0x687820221192C5B662b25367F70076A37bc79b6c"));
                     (str "kmsVerifierAddress",
                      VString (str "0x1364cBBf2cDF5032C47d8226a6f6FBD2AFCDacAC"))])].

(** A wallet on Sepolia, in a page that has loaded the SDK; [initSDK]
    resolves to [true] and [createInstance] to an instance object. *)
Definition sepolia_world : world :=
  {| rpc_getNetwork := fun _ => Return SEPOLIA_chainId;
     rpc_send := fun _ _ => Throw (Error (str "Method not found"));
     provider_request := fun _ _ => Return (str "0xaa36a7");
     window_relayerSDK := Some relayer_sdk;
     sdk_load := Return (Some relayer_sdk);
     sdk_initSDK := Return (VBoolean true);
     sdk_createInstance := fun _ => Return (VObject [(str "encrypt32", VFunction)]);
     import_fhevmMock := Return tt |}.

(** A wallet that rejects every request with a value that is not an
    [Error] (a bare object with a code, say), on a page without the SDK. *)
Definition rejecting_wallet_world : world :=
  {| rpc_getNetwork := fun _ => Throw NonError;
     rpc_send := fun _ _ => Throw NonError;
     provider_request := fun _ _ => Throw NonError;
     window_relayerSDK := None;
     sdk_load := Throw (Error (str "offline"));
     sdk_initSDK := Throw (Error (str "offline"));
     sdk_createInstance := fun _ => Throw (Error (str "offline"));
     import_fhevmMock := Return tt |}.

(** A signal that is never aborted. *)
Definition never_aborted : AbortSignal := fun _ => false.

(** An object that [isValidRelayerSDK] accepts although it has neither
    [initSDK] nor [createInstance]. *)
Definition stub_sdk : value :=
  VObject [(str "version", VString (str "0.1.2")); (str "foo", VFunction)].

End Worlds.

(** ** Words for the states and renders of the hook *)

Module HookStates.
Import Hook.

Section States.
Context {Provider : Type} {FhevmInstance : Type}.

(** [status] and the two payloads agree. *)
Definition coherent (s : @Hook.state Provider FhevmInstance) : Prop :=
  match status s with
  | idle => instance s = None /\ error s = None
  | loading => error s = None
  | ready => is_Some (instance s) /\ error s = None
  | error_state => instance s = None /\ is_Some (error s)
  end.

(** A render that passes no provider. *)
Definition without_provider (e : @Hook.event Provider FhevmInstance) : Prop :=
  match e with
  | Refresh (Some _) _ => False
  | _ => True
  end.

End States.

End HookStates.

(** ** The loader's status report and the SDK diagnosis
       (relayerSDKLoader.ts, validation.ts) *)

Module Status.
Import JS Validation Loader.

(** What [getStatus()] returns. *)
Record LoaderStatus : Type := {
  isLoaded_ : bool;
  isLoading : bool;
  hasWindow : bool;
  hasScript : bool;
  loader_sdkMethods : list jsstring
}.

(** [getStatus()] *)
Definition getStatus (self : RelayerSDKLoader) (w : page) : LoaderStatus :=
  let hasWindow := in_browser w in
  let isLoaded := hasWindow && isValidFhevmWindow (window w) in
  let isLoading := bool_decide (is_Some (_loadPromise self)) && negb isLoaded in
  let hasScript := hasWindow && bool_decide (0 < script_tags w)%nat in
  let sdkMethods :=
    if hasWindow then
      match relayerSDK w with
      | Some sdk =>
          if truthy sdk && bool_decide (typeof sdk = str "object")
          then availableMethods sdk else []
      | None => []
      end
    else [] in
  {| isLoaded_ := isLoaded; isLoading := isLoading; hasWindow := hasWindow;
     hasScript := hasScript; loader_sdkMethods := sdkMethods |}.

(** What [diagnosticSDK()] returns. *)
Record Diagnosis : Type := {
  windowExists : bool;
  relayerSDKExists : bool;
  sdkMethods : list jsstring;
  sdkConfig : value;
  initialized : value;
  issues : list jsstring
}.

Definition missing_method (method : jsstring) : jsstring :=
  str "Required method '" ++ method ++ str "' not found".

(** [Object.getOwnPropertyNames(sdk)] and ['name' in sdk] as
    [diagnosticSDK] applies them to whatever [window.relayerSDK] holds:
    the first throws on [undefined] and [null], the second on every value
    that is not an object. *)
Definition can_list_properties (sdk : value) : bool :=
  match sdk with
  | VUndefined | VNull => false
  | _ => true
  end.

Definition can_test_in (sdk : value) : bool :=
  match sdk with
  | VObject _ | VFunction => true
  | _ => false
  end.

(** [diagnosticSDK()] on a page.  The texts of the two [TypeError]s are
    the engine's and are cut short here (the engine goes on with the
    operand).  A function in [window.relayerSDK] is taken without members
    of its own, as [VFunction] carries none: for a function that has
    [SepoliaConfig], [initSDK] or [createInstance] as static members the
    code finds them, and the issues listed here are not the code's. *)
Definition diagnosticSDK (w : page) : outcome Diagnosis :=
  let windowExists := in_browser w in
  let issues1 :=
    if negb windowExists
    then [str "Window object not available (not in browser environment)"] else [] in
  let relayerSDKExists := windowExists && bool_decide (is_Some (relayerSDK w)) in
  let issues2 :=
    if negb relayerSDKExists && windowExists
    then issues1 ++ [str "window.relayerSDK not found"] else issues1 in
  if relayerSDKExists then
    let sdk := default VUndefined (relayerSDK w) in
    if negb (can_list_properties sdk) then
      Throw (TypeError (str "Cannot convert undefined or null to object"))
    else
      let sdkMethods := availableMethods sdk in
      if negb (can_test_in sdk) then
        Throw (TypeError (str "Cannot use 'in' operator to search for 'SepoliaConfig'"))
      else
        let sdkConfig := if has sdk (str "SepoliaConfig")
                         then get sdk (str "SepoliaConfig") else VNull in
        let issues3 := if has sdk (str "SepoliaConfig") then issues2
                       else issues2 ++ [str "SepoliaConfig not found in SDK"] in
        let initialized := if has sdk (str "__initialized__")
                           then get sdk (str "__initialized__") else VUndefined in
        let issues4 :=
          issues3 ++ map missing_method
                       (filter (fun method => method ∉ sdkMethods) requiredMethods) in
        Return {| windowExists := windowExists; relayerSDKExists := relayerSDKExists;
                  sdkMethods := sdkMethods; sdkConfig := sdkConfig;
                  initialized := initialized; issues := issues4 |}
  else
    Return {| windowExists := windowExists; relayerSDKExists := relayerSDKExists;
              sdkMethods := []; sdkConfig := VNull;
              initialized := VUndefined; issues := issues2 |}.

End Status.

(** ** Provider checks (providerUtils.ts) and chain names (useFhevm.ts) *)

Module Providers.
Import JS.

(** [isValidEip1193Provider(provider)]: the value of
    [provider && typeof provider === 'object' && typeof provider.request === 'function']. *)
Definition isValidEip1193Provider (provider : value) : value :=
  if negb (truthy provider) then provider
  else if negb (bool_decide (typeof provider = str "object")) then VBoolean false
  else VBoolean (bool_decide (typeof (get provider (str "request")) = str "function")).

(** [isFhevmSupported(chainId)]; [None] is [undefined]. *)
Definition isFhevmSupported (chainId : option number) : bool :=
  match chainId with
  | None | Some NaN => false
  | Some (Num c) =>
      if c =? 0 then false
      else (c =? 11155111) || (c =? 31337)
  end.

(** [getChainName(chainId)]; the number in the default case is printed in
    decimal, as it is for an integer below [10^21]. *)
Definition getChainName (chainId : option number) : jsstring :=
  match chainId with
  | Some (Num c) =>
      if c =? 11155111 then str "Sepolia Testnet"
      else if c =? 31337 then str "Hardhat Local"
      else str "Unknown (" ++ toString10 c ++ str ")"
  | Some NaN => str "Unknown (NaN)"
  | None => str "Unknown (undefined)"
  end.

End Providers.

(** ** The deprecated client on a mock instance (utils/fhevm.ts) *)

Module Client.
Import JS Mock.

(** What [createEncryptedInput] returns: [{ handle, proof }]. *)
Record EncryptedInput : Type := {
  handle : jsstring;
  proof : jsstring
}.

(** The [type] argument: ['euint32' | 'ebool']. *)
Inductive input_type : Type :=
| euint32
| ebool.

(** [!s] for a string that may be [undefined]. *)
Definition missing (s : option jsstring) : bool :=
  match s with
  | None => true
  | Some s => bool_decide (s = [])
  end.

(** [FHEVMClient.createEncryptedInput(contractAddress, value, type)] for a
    client whose [fhevmInstance] is [null] or a mock instance.
    [getAddress] is what [(await provider.getSigner()).getAddress()] ends
    with, [compatible k] what the [k]-th call of the fallback
    [createCompatibleEncryptedInput] (built on keccak256, the ABI coder of
    ethers and [Math.random]) ends with, [now] the clock. *)
Definition createEncryptedInput (fhevmInstance : option MockFhevmInstance)
    (getAddress : outcome jsstring) (compatible : nat -> outcome EncryptedInput)
    (contractAddress : jsstring) (value : Z) (type : input_type) (now : Z)
  : outcome EncryptedInput :=
  match fhevmInstance with
  | Some inst =>
      let attempt :=
        bind getAddress (fun userAddress =>
        let encryptedInput := Mock.createEncryptedInput inst contractAddress userAddress in
        let encryptedInput :=
          match type with
          | euint32 => add32 encryptedInput value
          | ebool => addBool encryptedInput (negb (value =? 0))
          end in
        bind (encrypt encryptedInput now) (fun result =>
        if missing (handles result !! 0%nat) || missing (Some (inputProof result))
        then Throw (Error (str "Encrypted input missing handle or proof"))
        else Return {| handle := default [] (handles result !! 0%nat);
                       proof := inputProof result |})) in
      match attempt with
      | Return r => Return r
      | Throw _ => compatible 0%nat
      end
  | None =>
      (* the fallback is called inside the [try]: when it throws, the
         [catch] calls it again *)
      match compatible 0%nat with
      | Return r => Return r
      | Throw _ => compatible 1%nat
      end
  end.

(** [FHEVMClient.isFHEVMSupported(chainId)] *)
Definition isFHEVMSupported (chainId : number) : bool :=
  match chainId with
  | Num c => (c =? 11155111) || (c =? 31337)
  | NaN => false
  end.

End Client.

(** ** Readers of what [encrypt()] writes *)

Module Reader.
Import JS.

(** The character written as [\u00hh]. *)
Definition unhex2 (a b : ascii) : ascii :=
  ascii_of_N (default 0 (digit_value a) * 16 + default 0 (digit_value b))%N.

(** Reads the characters of a JSON string literal after its opening quote,
    up to the closing quote, undoing [json_escape]; returns them with what
    follows the literal. *)
Fixpoint read_json_chars (s : jsstring) : option (jsstring * jsstring) :=
  match s with
  | [] => None
  | c :: s' =>
      if Ascii.eqb c dquote then Some ([], s')
      else if Ascii.eqb c backslash then
        match s' with
        | e :: s'' =>
            let continue (x : ascii) (rest : option (jsstring * jsstring)) :=
              match rest with
              | Some (body, after) => Some (x :: body, after)
              | None => None
              end in
            if Ascii.eqb e dquote then continue dquote (read_json_chars s'')
            else if Ascii.eqb e backslash then continue backslash (read_json_chars s'')
            else if Ascii.eqb e "b" then continue (ascii_of_nat 8) (read_json_chars s'')
            else if Ascii.eqb e "t" then continue (ascii_of_nat 9) (read_json_chars s'')
            else if Ascii.eqb e "n" then continue (ascii_of_nat 10) (read_json_chars s'')
            else if Ascii.eqb e "f" then continue (ascii_of_nat 12) (read_json_chars s'')
            else if Ascii.eqb e "r" then continue (ascii_of_nat 13) (read_json_chars s'')
            else if Ascii.eqb e "u" then
              match s'' with
              | z1 :: z2 :: a :: b :: s3 =>
                  if Ascii.eqb z1 "0" && Ascii.eqb z2 "0"
                  then continue (unhex2 a b) (read_json_chars s3)
                  else None
              | _ => None
              end
            else None
        | [] => None
        end
      else
        match read_json_chars s' with
        | Some (body, after) => Some (c :: body, after)
        | None => None
        end
  end.

(** Reads a JSON string literal at the head of [s]. *)
Definition read_json_string (s : jsstring) : option (jsstring * jsstring) :=
  match s with
  | c :: s' => if Ascii.eqb c dquote then read_json_chars s' else None
  | [] => None
  end.

End Reader.

(** * Properties *)

Import JS.

(** ** Facts about the built-ins *)

Section Builtins.

Lemma startsWith_app (p rest : jsstring) : startsWith (p ++ rest) p = true.
Proof.
  induction p as [|a p IH]; simpl; [done|].
  rewrite Ascii.eqb_refl. exact IH.
Qed.

(** [startsWith] decides whether the string begins with the pattern. *)
Lemma startsWith_spec (s p : jsstring) :
  startsWith s p = true <-> exists rest, s = p ++ rest.
Proof.
  split.
  - revert s. induction p as [|a p IH]; intros s H.
    + exists s. reflexivity.
    + destruct s as [|b s]; simpl in H; [discriminate|].
      destruct (Ascii.eqb a b) eqn:E; [|discriminate].
      apply Ascii.eqb_eq in E. subst b.
      destruct (IH s H) as [rest ->]. exists rest. reflexivity.
  - intros [rest ->]. apply startsWith_app.
Qed.

(** [includes] decides whether the pattern occurs somewhere in the string. *)
Lemma includes_spec (s p : jsstring) :
  includes s p = true <-> exists pre post, s = pre ++ p ++ post.
Proof.
  split.
  - induction s as [|c s IH]; simpl; intros H.
    + apply orb_true_iff in H as [H|H]; [|discriminate].
      apply startsWith_spec in H as [rest ->]. exists [], rest. reflexivity.
    + apply orb_true_iff in H as [H|H].
      * apply startsWith_spec in H as [rest ->]. exists [], rest. reflexivity.
      * destruct (IH H) as (pre & post & ->). exists (c :: pre), post. reflexivity.
  - intros (pre & post & ->).
    induction pre as [|c pre IH].
    + simpl. destruct (p ++ post) eqn:E; simpl; rewrite <- E, startsWith_app; reflexivity.
    + simpl. rewrite IH. apply orb_true_r.
Qed.

Lemma replace_prefix (p rest r : jsstring) :
  replace (p ++ rest) p r = r ++ rest.
Proof.
  destruct (p ++ rest) eqn:E; simpl; rewrite <- E, startsWith_app;
    rewrite drop_app_length; reflexivity.
Qed.

Lemma length_padStart (s : jsstring) (n : nat) (c : ascii) :
  length (padStart s n c) = Nat.max n (length s).
Proof. unfold padStart. rewrite length_app, length_replicate. lia. Qed.

(** The digits of a number below [base ^ k] are at most [k]. *)
Lemma length_to_digits (base : N) (fuel : nat) :
  forall (k : nat) (n : N),
    (1 < base)%N -> (0 < k)%nat -> (n < base ^ N.of_nat k)%N ->
    (length (to_digits base fuel n) <= k)%nat.
Proof.
  induction fuel as [|fuel IH]; intros k n Hb Hk Hn; simpl; [lia|].
  destruct (N.ltb_spec n base) as [Hlt|Hge]; simpl; [lia|].
  rewrite length_app. simpl.
  destruct k as [|[|k]]; [lia| |].
  - simpl in Hn. rewrite N.pow_1_r in Hn. lia.
  - enough (length (to_digits base fuel (n / base)) <= S k)%nat by lia.
    apply IH; [lia|lia|].
    apply N.Div0.div_lt_upper_bound.
    rewrite <- N.pow_succ_r'. rewrite <- Nat2N.inj_succ. exact Hn.
Qed.

Lemma to_digits_nonempty (base : N) (fuel : nat) (n : N) :
  to_digits base (S fuel) n <> [].
Proof.
  simpl. destruct (n <? base)%N; [discriminate|].
  intros H. apply app_eq_nil in H as [_ H]. discriminate.
Qed.

End Builtins.

(** ** The mock instance: encrypt32 and decrypt *)

Section MockInstance.
Import Mock.

(** The hexadecimal text of a 32-bit plaintext has at most eight digits. *)
Lemma length_toString16_u32 (v : Z) :
  0 <= v < 2 ^ 32 -> (1 <= length (toString16 v) <= 8)%nat.
Proof.
  intros Hv. unfold toString16, Z_to_string.
  destruct (Z.ltb_spec v 0) as [?|_]; [lia|].
  unfold N_to_string. split.
  - pose proof (to_digits_nonempty 16 (N.to_nat (N.log2 (Z.to_N v))) (Z.to_N v)) as Hne.
    destruct (to_digits 16 _ _); [done|simpl; lia].
  - apply length_to_digits; [lia|lia|].
    change (16 ^ N.of_nat 8)%N with (Z.to_N (2 ^ 32)). lia.
Qed.

(** A handle of [encrypt32] is ["0x"], at least 56 zeros, then the digits. *)
Lemma encrypt32_shape (inst : MockFhevmInstance) (v : Z) :
  0 <= v < 2 ^ 32 ->
  exists k, (56 <= k)%nat /\
    encrypt32 inst v = str "0x" ++ replicate k "0"%char ++ toString16 v.
Proof.
  intros Hv. pose proof (length_toString16_u32 v Hv) as Hl.
  exists (64 - length (toString16 v))%nat. split; [lia|]. reflexivity.
Qed.

(** [decrypt] reads the first eight hexadecimal digits of the handle, which
    are padding: whatever 32-bit plaintext went in, zero comes out. *)
Lemma decrypt_encrypt32_zero (inst : MockFhevmInstance) (v : Z) (ty : jsstring) :
  0 <= v < 2 ^ 32 -> ty <> str "bool" -> ty <> str "ebool" ->
  decrypt inst (encrypt32 inst v) ty = DNumber (Num 0).
Proof.
  intros Hv Hb He.
  destruct (encrypt32_shape inst v Hv) as (k & Hk & ->).
  unfold decrypt.
  rewrite (bool_decide_false _ Hb), (bool_decide_false _ He). simpl orb. cbv iota.
  rewrite replace_prefix. simpl app at 1.
  unfold substring. simpl Nat.max. simpl Nat.min. rewrite drop_0.
  replace (8 - 0)%nat with 8%nat by lia.
  rewrite take_app_le by (rewrite length_replicate; lia).
  rewrite take_replicate. replace (8 `min` k)%nat with 8%nat by lia.
  reflexivity.
Qed.

End MockInstance.

(** ** Printing numbers and bytes loses nothing *)

Section RoundTrips.

Lemma digit_value_digit_char (d : N) :
  (d < 36)%N -> digit_value (digit_char d) = Some d.
Proof.
  intros Hd. unfold digit_value, digit_char.
  destruct (N.ltb_spec d 10).
  - rewrite N_ascii_embedding by lia.
    destruct (N.leb_spec 48 (48 + d)); [|lia].
    destruct (N.leb_spec (48 + d) 57); [|lia].
    simpl. f_equal. lia.
  - rewrite N_ascii_embedding by lia.
    destruct (N.leb_spec 48 (87 + d)); [|lia].
    destruct (N.leb_spec (87 + d) 57); [lia|].
    destruct (N.leb_spec 97 (87 + d)); [|lia].
    destruct (N.leb_spec (87 + d) 122); [|lia].
    simpl. f_equal. lia.
Qed.

Lemma digit_char_not_minus (d : N) :
  (d < 36)%N -> Ascii.eqb (digit_char d) "-" = false.
Proof.
  intros Hd. apply Ascii.eqb_neq. intros H.
  pose proof (digit_value_digit_char d Hd) as Hv. rewrite H in Hv. discriminate.
Qed.

Lemma of_digits_snoc (base : N) (s : jsstring) (c : ascii) :
  of_digits base (s ++ [c]) = (of_digits base s * base + default 0 (digit_value c))%N.
Proof. unfold of_digits. rewrite fold_left_app. reflexivity. Qed.

Lemma of_digits_to_digits (base : N) (fuel : nat) :
  forall n : N,
    (1 < base <= 36)%N -> (0 < fuel)%nat -> (n < 2 ^ N.of_nat fuel)%N ->
    of_digits base (to_digits base fuel n) = n.
Proof.
  induction fuel as [|fuel IH]; intros n Hb Hf Hn; [lia|].
  simpl. destruct (N.ltb_spec n base) as [Hlt|Hge].
  - unfold of_digits. simpl. rewrite digit_value_digit_char by lia. reflexivity.
  - rewrite of_digits_snoc.
    assert (Hmod : (n mod base < base)%N) by (apply N.mod_lt; lia).
    rewrite digit_value_digit_char by lia. simpl.
    assert (Hdiv : (n / base < 2 ^ N.of_nat fuel)%N).
    { apply N.Div0.div_lt_upper_bound.
      rewrite Nat2N.inj_succ, N.pow_succ_r' in Hn.
      assert (2 * 2 ^ N.of_nat fuel <= base * 2 ^ N.of_nat fuel)%N
        by (apply N.mul_le_mono_r; lia).
      lia. }
    destruct fuel as [|fuel'].
    + simpl in Hn. lia.
    + rewrite IH by (try lia; exact Hdiv).
      rewrite N.mul_comm. symmetry. apply N.div_mod. lia.
Qed.

Lemma N_lt_pow2_log2 (n : N) : (n < 2 ^ N.of_nat (S (N.to_nat (N.log2 n))))%N.
Proof.
  rewrite Nat2N.inj_succ, N2Nat.id.
  destruct (N.eq_dec n 0%N) as [->|Hn]; [reflexivity|].
  apply N.log2_spec. lia.
Qed.

Lemma of_digits_N_to_string (base n : N) :
  (1 < base <= 36)%N -> of_digits base (N_to_string base n) = n.
Proof.
  intros Hb. unfold N_to_string.
  apply of_digits_to_digits; [exact Hb|lia|apply N_lt_pow2_log2].
Qed.

(** The first character of a printed natural number is a digit. *)
Lemma to_digits_head (base : N) (fuel : nat) :
  forall n : N, (1 < base)%N ->
    exists d rest, (d < base)%N /\ to_digits base (S fuel) n = digit_char d :: rest.
Proof.
  induction fuel as [|fuel IH]; intros n Hb.
  - simpl. destruct (N.ltb_spec n base).
    + exists n, []. split; [lia|reflexivity].
    + exists (n mod base)%N, []. split; [apply N.mod_lt; lia|reflexivity].
  - change (to_digits base (S (S fuel)) n) with
      (if (n <? base)%N then [digit_char n]
       else to_digits base (S fuel) (n / base) ++ [digit_char (n mod base)]).
    destruct (N.ltb_spec n base).
    + exists n, []. split; [lia|reflexivity].
    + destruct (IH (n / base)%N Hb) as (d & rest & Hd & ->).
      exists d, (rest ++ [digit_char (n mod base)]). split; [exact Hd|reflexivity].
Qed.

(** Reading back a printed integer gives the integer. *)
Lemma Z_of_string_to_string (base : N) (z : Z) :
  (1 < base <= 36)%N -> Z_of_string base (Z_to_string base z) = z.
Proof.
  intros Hb. unfold Z_to_string.
  destruct (Z.ltb_spec z 0) as [Hneg|Hpos].
  - simpl. rewrite of_digits_N_to_string by exact Hb. lia.
  - unfold N_to_string at 1.
    destruct (to_digits_head base (N.to_nat (N.log2 (Z.to_N z))) (Z.to_N z))
      as (d & rest & Hd & E); [lia|].
    rewrite E. unfold Z_of_string.
    rewrite digit_char_not_minus by lia.
    rewrite <- E. fold (N_to_string base (Z.to_N z)).
    rewrite of_digits_N_to_string by exact Hb. lia.
Qed.

Lemma toString10_inj (a b : Z) : toString10 a = toString10 b -> a = b.
Proof.
  intros H. apply (f_equal (Z_of_string 10)) in H.
  unfold toString10 in H. rewrite !Z_of_string_to_string in H by lia. exact H.
Qed.

Lemma buffer_unhex_hex (s : jsstring) : buffer_unhex (buffer_hex s) = s.
Proof.
  induction s as [|c s IH]; [reflexivity|].
  unfold buffer_hex in *. simpl. rewrite IH. f_equal.
  destruct c as [[] [] [] [] [] [] [] []]; reflexivity.
Qed.

Lemma buffer_hex_inj (a b : jsstring) : buffer_hex a = buffer_hex b -> a = b.
Proof.
  intros H. apply (f_equal buffer_unhex) in H.
  rewrite !buffer_unhex_hex in H. exact H.
Qed.

End RoundTrips.

(** ** The encrypted-input builder *)

Section Builder.
Import Mock.

Lemma inputs_apply_calls (b : MockFhevmEncryptedInput) (cs : list call) :
  inputs (apply_calls b cs) = inputs b ++ map input_of_call cs.
Proof.
  revert b. induction cs as [|c cs IH]; intros b; simpl.
  - rewrite app_nil_r. reflexivity.
  - unfold apply_calls in *. simpl. rewrite IH.
    destruct c; simpl; rewrite <- app_assoc; reflexivity.
Qed.

Lemma contractAddress_apply_calls (b : MockFhevmEncryptedInput) (cs : list call) :
  contractAddress (apply_calls b cs) = contractAddress b
  /\ userAddress (apply_calls b cs) = userAddress b.
Proof.
  revert b. induction cs as [|c cs IH]; intros b; [done|].
  unfold apply_calls in *. simpl.
  destruct (IH (apply_call b c)) as [-> ->]. destruct c; done.
Qed.

(** The loop of [encrypt] gives each pushed entry the handle that the
    instance gives the same plaintext. *)
Lemma handle_of_input_of_call (inst : MockFhevmInstance) (c : call) :
  handle_of (input_of_call c) = instance_handle inst c.
Proof. destruct c as [v|v|v|v|[|]]; reflexivity. Qed.

(** Serialising the entries succeeds when none of them holds a BigInt. *)
Lemma json_elements_numbers (cs : list call) :
  forallb (fun c => negb (is_add64 c)) cs = true ->
  exists s, json_elements (map input_of_call cs) = Return s.
Proof.
  induction cs as [|c cs IH]; intros H; [eexists; reflexivity|].
  simpl in H. apply andb_true_iff in H as [Hc Hcs].
  destruct (IH Hcs) as [rest Hrest].
  assert (exists s, json_input (input_of_call c) = Return s) as [s Hs]
    by (destruct c as [v|v|v|v|[|]]; try discriminate; eexists; reflexivity).
  destruct cs as [|c' cs].
  - exists s. exact Hs.
  - change (json_elements (map input_of_call (c :: c' :: cs))) with
      (bind (json_input (input_of_call c)) (fun s =>
       bind (json_elements (map input_of_call (c' :: cs))) (fun rest =>
       Return (s ++ str "," ++ rest)))).
    rewrite Hs, Hrest. eexists; reflexivity.
Qed.

(** It throws as soon as one of them does. *)
Lemma json_elements_bigint (cs : list call) :
  existsb is_add64 cs = true ->
  json_elements (map input_of_call cs)
  = Throw (TypeError (str "Do not know how to serialize a BigInt")).
Proof.
  induction cs as [|c cs IH]; intros H; [discriminate|].
  simpl in H.
  destruct cs as [|c' cs].
  - destruct c; try discriminate. reflexivity.
  - change (json_elements (map input_of_call (c :: c' :: cs))) with
      (bind (json_input (input_of_call c)) (fun s =>
       bind (json_elements (map input_of_call (c' :: cs))) (fun rest =>
       Return (s ++ str "," ++ rest)))).
    destruct (is_add64 c) eqn:E.
    + destruct c; try discriminate. reflexivity.
    + simpl in H. rewrite (IH H).
      destruct c as [v|v|v|v|[|]]; try discriminate; reflexivity.
Qed.

(** With 8-, 16-, 32-bit and boolean inputs only, [encrypt()] returns one
    handle per call, in the order of the calls, each the instance's own
    encoding of the plaintext of that call. *)
Lemma encrypt_handles_in_order (inst : MockFhevmInstance) (contract user : jsstring)
    (cs : list call) (now : Z) :
  forallb (fun c => negb (is_add64 c)) cs = true ->
  exists proof,
    encrypt (apply_calls (createEncryptedInput inst contract user) cs) now
    = Return {| handles := map (instance_handle inst) cs; inputProof := proof |}.
Proof.
  intros H. unfold encrypt, json_proofData.
  rewrite inputs_apply_calls. simpl app.
  destruct (json_elements_numbers cs H) as [s ->]. simpl.
  eexists. f_equal. f_equal.
  rewrite map_map. apply map_ext. intros c. apply handle_of_input_of_call.
Qed.

(** With a 64-bit input among the calls, [encrypt()] rejects. *)
Lemma encrypt_add64_rejects (inst : MockFhevmInstance) (contract user : jsstring)
    (cs : list call) (now : Z) :
  existsb is_add64 cs = true ->
  encrypt (apply_calls (createEncryptedInput inst contract user) cs) now
  = Throw (TypeError (str "Do not know how to serialize a BigInt")).
Proof.
  intros H. unfold encrypt, json_proofData.
  rewrite inputs_apply_calls. simpl app.
  rewrite (json_elements_bigint cs H). reflexivity.
Qed.

End Builder.

Section MockClaims.
Import Mock.

(** C1 (the code departs from the claim).  The claim: on the mock instance,
    [decrypt] of the handle of [encrypt32(v)], with a numeric type, gives
    [v] back for every [v] in [0, 2^32-1].  What the code does: [encrypt32]
    writes the digits of [v] at the end of a 64-digit handle and [decrypt]
    parses the first eight digits, so the result is 0 for every such [v];
    it is [v] only when [v] is 0. *)
Theorem mock_decrypt_encrypt32 (inst : MockFhevmInstance) (v : Z) (ty : jsstring) :
  0 <= v < 2 ^ 32 -> ty <> str "bool" -> ty <> str "ebool" ->
  decrypt inst (encrypt32 inst v) ty = DNumber (Num 0)
  /\ (decrypt inst (encrypt32 inst v) ty = DNumber (Num v) <-> v = 0).
Proof.
  intros Hv Hb He.
  rewrite (decrypt_encrypt32_zero inst v ty Hv Hb He).
  split; [reflexivity|].
  split; [intros H; injection H; auto | intros ->; reflexivity].
Qed.

Lemma mock_decrypt_encrypt32_at_1 :
  decrypt hardhat_instance (encrypt32 hardhat_instance 1) (str "euint32") = DNumber (Num 0)
  /\ (decrypt hardhat_instance (encrypt32 hardhat_instance 1) (str "euint32")
      = DNumber (Num 1) <-> 1 = 0).
Proof.
  apply (mock_decrypt_encrypt32 hardhat_instance 1 (str "euint32")).
  - lia.
  - discriminate.
  - discriminate.
Defined.

(** C2 (the code departs from the claim).  The claim: after any sequence of
    add8/add16/add32/add64/addBool calls, [encrypt()] returns one handle per
    input, in insertion order.  What the code does: without an [add64] call
    in the sequence it returns exactly those handles, the [i]-th one being
    the instance's encoding of the plaintext of the [i]-th call; with an
    [add64] call anywhere in the sequence the handles are computed, but
    [JSON.stringify] of the proof data then throws on the BigInt, so
    [encrypt()] rejects and returns no handles. *)
Theorem encrypt_after_calls (inst : MockFhevmInstance) (contract user : jsstring)
    (cs : list call) (now : Z) :
  if existsb is_add64 cs then
    encrypt (apply_calls (createEncryptedInput inst contract user) cs) now
    = Throw (TypeError (str "Do not know how to serialize a BigInt"))
  else
    exists proof,
      encrypt (apply_calls (createEncryptedInput inst contract user) cs) now
      = Return {| handles := map (instance_handle inst) cs; inputProof := proof |}.
Proof.
  destruct (existsb is_add64 cs) eqn:E.
  - by apply encrypt_add64_rejects.
  - apply encrypt_handles_in_order.
    apply forallb_forall. intros c Hc.
    destruct (is_add64 c) eqn:Ec; [|reflexivity].
    assert (existsb is_add64 cs = true) by (apply existsb_exists; eauto).
    congruence.
Qed.

(** The shortest failing sequence: one [add64] call. *)
Lemma encrypt_after_add64_throws :
  encrypt (add64 (createEncryptedInput hardhat_instance (str "0xC0") (str "0xA1")) 5)
    1700000000000
  = Throw (TypeError (str "Do not know how to serialize a BigInt")).
Proof. reflexivity. Qed.

(** C3 (as amended).  Two calls of [encrypt()] on the same builder, made
    when [Date.now()] reads [t1] and [t2], either both reject with the same
    error, or both return, with the same handles; their [inputProof]s are
    equal exactly when [t1 = t2], because the proof encodes the timestamp
    of the call. *)
Theorem encrypt_twice (b : MockFhevmEncryptedInput) (t1 t2 : Z) :
  match encrypt b t1, encrypt b t2 with
  | Return r1, Return r2 =>
      handles r1 = handles r2 /\ (inputProof r1 = inputProof r2 <-> t1 = t2)
  | Throw e1, Throw e2 => e1 = e2
  | _, _ => False
  end.
Proof.
  unfold encrypt, json_proofData.
  destruct (json_elements (inputs b)) as [elems|e];
    cbn [bind handles inputProof]; [|reflexivity].
  split; [reflexivity|]. split.
  - intros H. apply app_inv_head in H. apply buffer_hex_inj in H.
    repeat (apply app_inv_head in H).
    apply app_inv_tail in H. apply toString10_inj. exact H.
  - intros ->. reflexivity.
Qed.

(** C3, the claim as stated fails: the same builder, asked twice one
    millisecond apart, gives two different proofs. *)
Lemma encrypt_twice_proofs_differ :
  let b := add32 (createEncryptedInput hardhat_instance (str "0xC0") (str "0xA1")) 5 in
  exists r1 r2,
    encrypt b 1700000000000 = Return r1 /\ encrypt b 1700000000001 = Return r2
    /\ inputProof r1 <> inputProof r2.
Proof.
  eexists _, _. split; [reflexivity|]. split; [reflexivity|].
  vm_compute. discriminate.
Qed.

End MockClaims.

(** ** The SDK validator *)

Section Validator.
Import Validation.

Lemma filter_elem_of_nil (l : list jsstring) :
  filter (fun m : jsstring => m ∈ ([] : list jsstring)) l = [].
Proof.
  induction l as [|a l IH]; [reflexivity|].
  rewrite filter_cons_False by apply not_elem_of_nil. exact IH.
Qed.

(** Without a callable member no core method is found either. *)
Lemma foundRequiredMethods_none (obj : value) :
  availableMethods obj = [] -> foundRequiredMethods obj = 0%nat.
Proof.
  intros E. unfold foundRequiredMethods. rewrite E, filter_elem_of_nil. reflexivity.
Qed.

Lemma availableMethods_elem (obj : value) (name : jsstring) :
  name ∈ availableMethods obj
  <-> name ∈ getOwnPropertyNames obj /\ typeof (get obj name) = str "function".
Proof. unfold availableMethods. rewrite list_elem_of_filter. tauto. Qed.

(** An object with a callable own member is accepted. *)
Lemma accepted_with_method (props : list (jsstring * value)) (name : jsstring) :
  name ∈ getOwnPropertyNames (VObject props) ->
  typeof (get (VObject props) name) = str "function" ->
  isValidRelayerSDK (VObject props) = true.
Proof.
  intros Hin Hfun. unfold isValidRelayerSDK.
  change (bool_decide (typeof (VObject props) = str "object")) with true.
  cbn [negb].
  assert (name ∈ availableMethods (VObject props)) as Hm
    by (apply availableMethods_elem; done).
  destruct (availableMethods (VObject props)) as [|m ms];
    [by apply not_elem_of_nil in Hm|].
  cbn [length]. rewrite bool_decide_false by discriminate. cbn [andb].
  rewrite bool_decide_false; [reflexivity|].
  destruct (getOwnPropertyNames (VObject props)); [by apply not_elem_of_nil in Hin|].
  discriminate.
Qed.

(** Whatever is accepted is an object with a callable own member. *)
Lemma accepted_has_method (obj : value) :
  isValidRelayerSDK obj = true ->
  exists props, obj = VObject props
    /\ exists name, name ∈ getOwnPropertyNames obj
                    /\ typeof (get obj name) = str "function".
Proof.
  destruct obj as [| |b|n|s| |props]; try (cbv; discriminate).
  unfold isValidRelayerSDK.
  change (bool_decide (typeof (VObject props) = str "object")) with true.
  cbn [negb].
  destruct (availableMethods (VObject props)) as [|m ms] eqn:E.
  - rewrite (foundRequiredMethods_none _ E). cbn. discriminate.
  - intros _. exists props. split; [reflexivity|]. exists m.
    apply availableMethods_elem. rewrite E. left.
Qed.

(** C4 (as amended).  The validator accepts a candidate exactly when it is a
    non-null object with at least one own member that is callable, whatever
    its name: neither [initSDK] nor [createInstance] nor a count of three is
    needed. *)
Theorem isValidRelayerSDK_iff (obj : value) :
  isValidRelayerSDK obj = true
  <-> exists props, obj = VObject props
      /\ exists name, name ∈ getOwnPropertyNames obj
                      /\ typeof (get obj name) = str "function".
Proof.
  split.
  - apply accepted_has_method.
  - intros (props & -> & name & Hin & Hfun).
    exact (accepted_with_method props name Hin Hfun).
Qed.

(** The bar of the specification is enough to be accepted; it is not needed. *)
Lemma minimum_bar_sufficient (obj : value) :
  minimum_bar_of_spec obj = true -> isValidRelayerSDK obj = true.
Proof.
  intros H.
  destruct obj as [| |b|n|s| |props]; try discriminate.
  enough (exists name, name ∈ getOwnPropertyNames (VObject props)
                       /\ typeof (get (VObject props) name) = str "function")
    as (name & Hin & Hfun) by exact (accepted_with_method props name Hin Hfun).
  assert (forall name, typeof (get (VObject props) name) = str "function" ->
                       name ∈ getOwnPropertyNames (VObject props)) as Hown.
  { intros name. cbn [get getOwnPropertyNames]. clear H.
    induction props as [|[k v] props IH]; cbn; [discriminate|].
    case_bool_decide as Hk; [subst k; intros _; left|intros Hf; right; by apply IH]. }
  cbn [minimum_bar_of_spec] in H.
  apply orb_true_iff in H as [H|H]; [apply orb_true_iff in H as [H|H]|].
  - apply bool_decide_eq_true in H. eexists. split; [by apply Hown|exact H].
  - apply bool_decide_eq_true in H. eexists. split; [by apply Hown|exact H].
  - apply bool_decide_eq_true in H.
    destruct (availableMethods (VObject props)) as [|m ms] eqn:E; [cbn in H; lia|].
    assert (m ∈ availableMethods (VObject props)) as Hm by (rewrite E; left).
    apply availableMethods_elem in Hm. exists m. exact Hm.
Qed.

(** C4, the claim as stated fails: an object whose only callable member is
    neither [initSDK] nor [createInstance] is accepted by the validator,
    though it is below the bar the claim describes. *)
Lemma isValidRelayerSDK_one_other_method :
  isValidRelayerSDK (VObject [(str "version", VString (str "0.1.2")); (str "foo", VFunction)])
  = true
  /\ minimum_bar_of_spec
       (VObject [(str "version", VString (str "0.1.2")); (str "foo", VFunction)])
     = false.
Proof. split; vm_compute; reflexivity. Qed.

End Validator.

(** ** The Hardhat probe *)

Section Probe.
Import Instance.

Lemma existsb_false {A} (f : A -> bool) (l : list A) :
  existsb f l = false <-> forall x, x ∈ l -> f x = false.
Proof.
  induction l as [|a l IH]; simpl.
  - split; [intros _ x Hx; by apply not_elem_of_nil in Hx|done].
  - rewrite orb_false_iff, IH. split.
    + intros [Ha Hl] x Hx. apply elem_of_cons in Hx as [->|Hx]; auto.
    + intros H. split; [apply H; left|intros x Hx; apply H; by right].
Qed.

(** The loop's test passes a field exactly when it is an own property
    holding a string that begins with ["0x"]. *)
Lemma field_rejected_false (props : list (jsstring * value)) (field : jsstring) :
  field_rejected (VObject props) field = false
  <-> exists rest, lookup_prop props field = Some (VString (str "0x" ++ rest)).
Proof.
  unfold field_rejected, has, get.
  destruct (lookup_prop props field) as [v|] eqn:E; unfold default; cbn [from_option id].
  - rewrite bool_decide_true by (exists v; reflexivity). cbn [negb orb].
    destruct v as [| |b|n|s| |ps];
      try (split; [cbv; discriminate | intros [rest H]; discriminate]).
    change (bool_decide (typeof (VString s) = str "string")) with true.
    cbn [negb orb].
    rewrite negb_false_iff, startsWith_spec.
    split; intros [rest H]; exists rest; congruence.
  - rewrite bool_decide_false by (intros [? ?]; discriminate).
    split; [discriminate|intros [rest H]; discriminate].
Qed.

(** What the probe answers once the node has said it is Hardhat and has
    replied to the metadata query. *)
Lemma probe_on_reply (w : world) (url : jsstring) (version metadata : value) :
  rpc_send w url (str "web3_clientVersion") = Return version ->
  not_hardhat version = false ->
  rpc_send w url (str "fhevm_relayer_metadata") = Return metadata ->
  tryFetchFHEVMHardhatNodeRelayerMetadata w url
  = if negb (truthy metadata) || negb (bool_decide (typeof metadata = str "object"))
    then Return None
    else if existsb (field_rejected metadata) requiredFields then Return None
    else Return (Some metadata).
Proof.
  intros Hv Hh Hm.
  unfold tryFetchFHEVMHardhatNodeRelayerMetadata, getWeb3Client, getFHEVMRelayerMetadata.
  rewrite Hv. cbn [bind]. rewrite Hh, Hm. reflexivity.
Qed.

(** C5 (as amended).  Once the node has identified itself as Hardhat and
    answered the metadata query, the probe returns the reply when it is an
    object whose three addresses are strings beginning with ["0x"], and
    returns absent (never an error) when the reply is not an object or one
    of the three is missing, not a string or not 0x-prefixed.  Nothing past
    the prefix is checked: neither the length nor the digits. *)
Theorem probe_checks_prefix_only (w : world) (url : jsstring) (version metadata : value) :
  rpc_send w url (str "web3_clientVersion") = Return version ->
  not_hardhat version = false ->
  rpc_send w url (str "fhevm_relayer_metadata") = Return metadata ->
  (prefixed_addresses metadata ->
   tryFetchFHEVMHardhatNodeRelayerMetadata w url = Return (Some metadata))
  /\ (~ prefixed_addresses metadata ->
      tryFetchFHEVMHardhatNodeRelayerMetadata w url = Return None).
Proof.
  intros Hv Hh Hm. rewrite (probe_on_reply w url version metadata Hv Hh Hm).
  destruct metadata as [| |b|n|s| |props];
    try (split; [intros (p & H & _); discriminate | intros _; cbv; reflexivity]).
  - split; [intros (p & H & _); discriminate | intros _].
    destruct (truthy (VBoolean b)); reflexivity.
  - split; [intros (p & H & _); discriminate | intros _].
    destruct (truthy (VNumber n)); reflexivity.
  - split; [intros (p & H & _); discriminate | intros _].
    destruct (truthy (VString s)); reflexivity.
  - change (negb (truthy (VObject props))
            || negb (bool_decide (typeof (VObject props) = str "object"))) with false.
    cbv iota.
    destruct (existsb (field_rejected (VObject props)) requiredFields) eqn:E.
    + split; [|reflexivity].
      intros (p & Hp & Hall). injection Hp as <-.
      assert (existsb (field_rejected (VObject props)) requiredFields = false) as E'.
      { apply existsb_false. intros f Hf. apply field_rejected_false. auto. }
      congruence.
    + split; [reflexivity|].
      intros Hn. exfalso. apply Hn. exists props. split; [reflexivity|].
      intros f Hf. apply field_rejected_false.
      revert f Hf. apply existsb_false. exact E.
Qed.

(** A metadata query that fails is absent as well, not an error. *)
Lemma probe_absent_on_metadata_error (w : world) (url : jsstring) (version : value)
    (e : exn) :
  rpc_send w url (str "web3_clientVersion") = Return version ->
  rpc_send w url (str "fhevm_relayer_metadata") = Throw e ->
  tryFetchFHEVMHardhatNodeRelayerMetadata w url = Return None.
Proof.
  intros Hv Hm.
  unfold tryFetchFHEVMHardhatNodeRelayerMetadata, getWeb3Client, getFHEVMRelayerMetadata.
  rewrite Hv. cbn [bind]. rewrite Hm. destruct (not_hardhat version); reflexivity.
Qed.

(** Only a failing client-version query makes the probe throw. *)
Lemma probe_throws_on_version_error (w : world) (url : jsstring) (e : exn) :
  rpc_send w url (str "web3_clientVersion") = Throw e ->
  exists msg,
    tryFetchFHEVMHardhatNodeRelayerMetadata w url
    = Throw (FhevmError (str "WEB3_CLIENTVERSION_ERROR") msg).
Proof.
  intros Hv. unfold tryFetchFHEVMHardhatNodeRelayerMetadata, getWeb3Client.
  rewrite Hv. eexists. reflexivity.
Qed.

Lemma probe_checks_prefix_only_hardhat :
  (prefixed_addresses Mock.hardhat_metadata ->
   tryFetchFHEVMHardhatNodeRelayerMetadata hardhat_world (str "http://localhost:8545")
   = Return (Some Mock.hardhat_metadata))
  /\ (~ prefixed_addresses Mock.hardhat_metadata ->
      tryFetchFHEVMHardhatNodeRelayerMetadata hardhat_world (str "http://localhost:8545")
      = Return None).
Proof.
  apply (probe_checks_prefix_only hardhat_world (str "http://localhost:8545")
           hardhat_version Mock.hardhat_metadata).
  - reflexivity.
  - vm_compute. reflexivity.
  - reflexivity.
Defined.

(** C5, the claim as stated fails: addresses that are 0x-prefixed but are
    not 40 hexadecimal digits ([isValidAddress] refuses each of them) are
    returned by the probe as metadata, not as absent. *)
Lemma probe_accepts_short_addresses :
  tryFetchFHEVMHardhatNodeRelayerMetadata short_address_world (str "http://localhost:8545")
  = Return (Some short_metadata)
  /\ Validation.isValidAddress (get short_metadata (str "ACLAddress")) = false
  /\ Validation.isValidAddress (get short_metadata (str "InputVerifierAddress")) = false
  /\ Validation.isValidAddress (get short_metadata (str "KMSVerifierAddress")) = false.
Proof. repeat split; vm_compute; reflexivity. Qed.

(** C6.  When the client-version query succeeds with a string in which
    "hardhat" does not occur (in any letter case), the probe returns absent
    and does not throw. *)
Theorem probe_absent_without_marker (w : world) (url version : jsstring) :
  rpc_send w url (str "web3_clientVersion") = Return (VString version) ->
  ~ (exists pre post, toLowerCase version = pre ++ str "hardhat" ++ post) ->
  tryFetchFHEVMHardhatNodeRelayerMetadata w url = Return None.
Proof.
  intros Hv Hno.
  unfold tryFetchFHEVMHardhatNodeRelayerMetadata, getWeb3Client.
  rewrite Hv. cbn [bind].
  assert (not_hardhat (VString version) = true) as ->; [|reflexivity].
  unfold not_hardhat.
  destruct (includes (toLowerCase version) (str "hardhat")) eqn:E.
  - apply includes_spec in E. contradiction.
  - apply orb_true_r.
Qed.

Lemma probe_absent_without_marker_geth :
  tryFetchFHEVMHardhatNodeRelayerMetadata geth_world (str "http://localhost:8545")
  = Return None.
Proof.
  apply (probe_absent_without_marker geth_world (str "http://localhost:8545")
           (str "Geth/v1.13.14-stable/linux-amd64/go1.21.7")).
  - reflexivity.
  - intros H. apply includes_spec in H. vm_compute in H. discriminate.
Defined.

End Probe.

(** ** Network resolution *)

Section Resolve.
Import Instance.

(** The merged table holds 31337 and the caller's chain ids, nothing else. *)
Lemma merged_mockChains_dom (mockChains : option (gmap Z jsstring)) (z : Z) :
  z ∈ dom (merged_mockChains mockChains)
  <-> z = 31337 \/ z ∈ dom (default ∅ mockChains).
Proof.
  unfold merged_mockChains. rewrite !elem_of_dom, lookup_union_is_Some.
  rewrite lookup_singleton_is_Some. split; intros [H|H]; auto.
Qed.

(** The caller's entry for a chain id wins over the default one. *)
Lemma merged_mockChains_override (mockChains : option (gmap Z jsstring)) (z : Z)
    (u : jsstring) :
  default ∅ mockChains !! z = Some u -> merged_mockChains mockChains !! z = Some u.
Proof. intros H. unfold merged_mockChains. by apply lookup_union_Some_l. Qed.

Lemma merged_mockChains_default :
  merged_mockChains None !! 31337 = Some (str "http://localhost:8545").
Proof. reflexivity. Qed.

Lemma resolve_on_chainId (w : world) (p : value) (mockChains : option (gmap Z jsstring))
    (c : number) :
  getChainId w p = Return c ->
  resolve w p mockChains
  = let url := match p with VString u => Some u | _ => None end in
    match table_lookup (merged_mockChains mockChains) c with
    | Some entry =>
        Return {| isMock := true; chainId := c;
                  rpcUrl := if no_url url then Some entry else url |}
    | None => Return {| isMock := false; chainId := c; rpcUrl := url |}
    end.
Proof.
  intros H. unfold resolve. rewrite H. cbn [bind].
  destruct (table_lookup (merged_mockChains mockChains) c) as [entry|] eqn:E.
  - rewrite bool_decide_true by (exists entry; reflexivity). reflexivity.
  - rewrite bool_decide_false by (intros [? ?]; discriminate). reflexivity.
Qed.

(** C7.  Once the chain id is known, [resolve] does not throw.  It marks the
    chain as mock exactly when the chain id is in the merged table, which
    holds 31337 and the chain ids of the caller's table; any other chain id
    comes back with [isMock] false.  A caller's entry for 31337 replaces the
    URL that a wallet transport is resolved to, and no caller's table takes
    31337 out of the mock chains. *)
Theorem resolve_classifies_by_merged_table (w : world) (p : value)
    (mockChains : option (gmap Z jsstring)) (c : number) :
  getChainId w p = Return c ->
  exists r,
    resolve w p mockChains = Return r /\ chainId r = c
    /\ (isMock r = true
        <-> exists z, c = Num z /\ (z = 31337 \/ z ∈ dom (default ∅ mockChains)))
    /\ (c = Num 31337 -> isMock r = true)
    /\ (forall u, c = Num 31337 -> default ∅ mockChains !! 31337 = Some u ->
                  (forall s, p <> VString s) -> rpcUrl r = Some u).
Proof.
  intros H. rewrite (resolve_on_chainId w p mockChains c H). cbv zeta.
  destruct (table_lookup (merged_mockChains mockChains) c) as [entry|] eqn:E.
  - eexists. split; [reflexivity|]. cbn [chainId isMock rpcUrl].
    split; [reflexivity|]. split; [|split].
    + split; [intros _|reflexivity].
      destruct c as [z|]; [|discriminate]. exists z. split; [reflexivity|].
      apply merged_mockChains_dom, elem_of_dom. exists entry. exact E.
    + reflexivity.
    + intros u -> Hu Hp. cbn [table_lookup] in E.
      rewrite (merged_mockChains_override _ _ _ Hu) in E. injection E as <-.
      destruct p; try reflexivity. by destruct (Hp s).
  - eexists. split; [reflexivity|]. cbn [chainId isMock rpcUrl].
    split; [reflexivity|].
    assert (forall z, c = Num z -> z ∉ dom (merged_mockChains mockChains)) as Hout.
    { intros z -> Hz. apply elem_of_dom in Hz as [x Hx].
      cbn [table_lookup] in E. congruence. }
    split; [|split].
    + split; [discriminate|]. intros (z & Hz & Hin). exfalso.
      apply (Hout z Hz). by apply merged_mockChains_dom.
    + intros Hz. exfalso. apply (Hout 31337 Hz).
      apply merged_mockChains_dom. by left.
    + intros u Hz. exfalso. apply (Hout 31337 Hz).
      apply merged_mockChains_dom. by left.
Qed.

Lemma resolve_classifies_by_merged_table_hardhat :
  exists r,
    resolve hardhat_world wallet (Some {[ 31337 := str "http://127.0.0.1:8545" ]})
    = Return r
    /\ chainId r = Num 31337
    /\ (isMock r = true
        <-> exists z, Num 31337 = Num z
              /\ (z = 31337
                  \/ z ∈ dom (default ∅
                                (Some ({[ 31337 := str "http://127.0.0.1:8545" ]}
                                       : gmap Z jsstring)))))
    /\ (Num 31337 = Num 31337 -> isMock r = true)
    /\ (forall u, Num 31337 = Num 31337 ->
          default ∅ (Some ({[ 31337 := str "http://127.0.0.1:8545" ]} : gmap Z jsstring))
            !! 31337 = Some u ->
          (forall s, wallet <> VString s) -> rpcUrl r = Some u).
Proof.
  apply (resolve_classifies_by_merged_table hardhat_world wallet
           (Some {[ 31337 := str "http://127.0.0.1:8545" ]}) (Num 31337)).
  reflexivity.
Defined.

(** A chain id outside the merged table, here 1 with the default table:
    [resolve] returns it as an ordinary chain. *)
Lemma resolve_unknown_chain :
  resolve geth_world wallet None
  = Return {| isMock := false; chainId := Num 1; rpcUrl := None |}.
Proof. reflexivity. Qed.

End Resolve.

(** ** Instance creation on an unsupported network *)

Section Unsupported.
Import Instance.

(** Outside a mock environment the mock branch yields no instance: the
    probe either answers absent or throws, and the [catch] swallows that. *)
Lemma createMockInstance_absent (w : world) (url : jsstring) (c : number)
    (signal : AbortSignal) :
  (forall metadata,
     tryFetchFHEVMHardhatNodeRelayerMetadata w url <> Return (Some metadata)) ->
  createMockInstance w url c signal = Return None
  \/ exists e, createMockInstance w url c signal = Throw e.
Proof.
  intros H. unfold createMockInstance.
  destruct (tryFetchFHEVMHardhatNodeRelayerMetadata w url) as [[metadata|]|e].
  - by destruct (H metadata).
  - left. reflexivity.
  - right. exists e. reflexivity.
Qed.

(** In a mock environment, with the mock module imported and no
    cancellation, the mock instance is returned, whatever the chain id. *)
Lemma createFhevmInstance_mock (w : world) (p : value)
    (mockChains : option (gmap Z jsstring)) (signal : AbortSignal) (r : ResolveResult)
    (url : jsstring) (metadata : value) :
  resolve w p mockChains = Return r ->
  isMock r = true -> rpcUrl r = Some url -> url <> [] ->
  tryFetchFHEVMHardhatNodeRelayerMetadata w url = Return (Some metadata) ->
  import_fhevmMock w = Return tt ->
  signal 0%nat = false -> signal 1%nat = false ->
  createFhevmInstance w p mockChains signal
  = Return (MockInstance (Mock.newMockFhevmInstance (chainId r) url metadata)).
Proof.
  intros Hr Hm Hu Hne Hp Hi H0 H1.
  unfold createFhevmInstance. rewrite Hr. cbn [bind].
  unfold throwIfAborted at 1. rewrite H0. cbn [bind].
  rewrite Hu, Hm. cbn [no_url].
  rewrite (bool_decide_false _ Hne). cbn [andb negb].
  unfold createMockInstance. rewrite Hp. cbn [bind]. rewrite Hi. cbn [bind].
  unfold Mock.createFhevmMockInstance. cbn [bind].
  unfold throwIfAborted. rewrite H1. reflexivity.
Qed.

(** The scenario of the specification: the wallet reports 0x7a69, the
    table maps 31337 to the local node, the node is Hardhat and answers
    with three addresses. *)
Lemma createFhevmInstance_hardhat :
  createFhevmInstance hardhat_world wallet
    (Some {[ 31337 := str "http://localhost:8545" ]}) (fun _ => false)
  = Return (MockInstance Mock.hardhat_instance).
Proof. reflexivity. Qed.

(** The probe finds metadata exactly in a node that names Hardhat and
    answers with three prefixed addresses. *)
Lemma probe_found_iff (w : world) (url : jsstring) (metadata : value) :
  tryFetchFHEVMHardhatNodeRelayerMetadata w url = Return (Some metadata)
  <-> exists version,
        rpc_send w url (str "web3_clientVersion") = Return (VString version)
        /\ (exists pre post, toLowerCase version = pre ++ str "hardhat" ++ post)
        /\ rpc_send w url (str "fhevm_relayer_metadata") = Return metadata
        /\ prefixed_addresses metadata.
Proof.
  split.
  - unfold tryFetchFHEVMHardhatNodeRelayerMetadata, getWeb3Client, getFHEVMRelayerMetadata.
    destruct (rpc_send w url (str "web3_clientVersion")) as [version|e0];
      cbn [bind]; [|discriminate].
    destruct (not_hardhat version) eqn:Hh; [discriminate|].
    destruct (rpc_send w url (str "fhevm_relayer_metadata")) as [md|e1];
      [|discriminate].
    destruct (negb (truthy md) || negb (bool_decide (typeof md = str "object")))
      eqn:Hobj; [discriminate|].
    destruct (existsb (field_rejected md) requiredFields) eqn:Hf; [discriminate|].
    intros [= ->].
    unfold not_hardhat in Hh. destruct version as [| | | |v| |]; try discriminate Hh.
    exists v. split; [reflexivity|].
    apply orb_false_iff in Hh as [_ Hh]. apply negb_false_iff in Hh.
    split; [by apply includes_spec|]. split; [reflexivity|].
    apply orb_false_iff in Hobj as [Ht Ho].
    apply negb_false_iff, bool_decide_eq_true in Ho.
    destruct metadata as [| | | | | |props]; try discriminate.
    exists props. split; [reflexivity|].
    intros field Hin. apply field_rejected_false.
    revert field Hin. by apply existsb_false.
  - intros (version & Hv & Hh & Hm & props & -> & Hfields).
    rewrite (probe_on_reply w url (VString version) (VObject props) Hv); [|
      unfold not_hardhat; rewrite bool_decide_true by reflexivity;
      apply includes_spec in Hh; by rewrite Hh | exact Hm].
    cbn [truthy typeof negb]. rewrite bool_decide_true by reflexivity. cbn [negb orb].
    assert (existsb (field_rejected (VObject props)) requiredFields = false) as ->;
      [|reflexivity].
    apply existsb_false. intros field Hin. apply field_rejected_false. by apply Hfields.
Qed.

(** C10 (as amended).  For a chain id that is neither a mock environment
    (a mock chain whose node names Hardhat and answers with three
    addresses that begin with ["0x"], of whatever length) nor Sepolia,
    instance creation fails and never returns an instance: with the
    unsupported-network error, unless the attempt's signal is already
    aborted when network resolution returns, in which case with the abort
    error.  In a mock environment, with the mock module loaded and the
    signal not aborted at the two checks, a mock instance is returned,
    also when its addresses are not well-formed. *)
Theorem createFhevmInstance_unsupported (w : world) (p : value)
    (mockChains : option (gmap Z jsstring)) (signal : AbortSignal) (r : ResolveResult) :
  resolve w p mockChains = Return r ->
  (chainId r <> Num SEPOLIA_chainId ->
   ~ mock_environment w r ->
   createFhevmInstance w p mockChains signal
   = Throw (if signal 0%nat then FhevmAbortError else unsupported_network (chainId r)))
  /\ (mock_environment w r ->
      import_fhevmMock w = Return tt -> signal 0%nat = false -> signal 1%nat = false ->
      exists m, createFhevmInstance w p mockChains signal = Return (MockInstance m)).
Proof.
  intros Hr. split.
  - intros Hc Hm. unfold createFhevmInstance. rewrite Hr. cbn [bind].
    unfold throwIfAborted. destruct (signal 0%nat); [reflexivity|]. cbn [bind].
    rewrite (bool_decide_false _ Hc).
    destruct (rpcUrl r) as [url|] eqn:Eu; [|reflexivity].
    destruct (isMock r) eqn:Em; [|reflexivity].
    destruct (no_url (Some url)) eqn:En; [reflexivity|]. cbn [andb negb].
    assert (forall metadata,
              tryFetchFHEVMHardhatNodeRelayerMetadata w url <> Return (Some metadata))
      as Hp.
    { intros metadata Hmd. apply Hm. split; [exact Em|].
      apply probe_found_iff in Hmd as (version & Hv & Hh & Hmd & Hpre).
      exists url, version, metadata. split; [exact Eu|]. split; [|done].
      intros ->. discriminate. }
    destruct (createMockInstance_absent w url (chainId r) signal Hp) as [->|[e ->]];
      reflexivity.
  - intros (Hm & url & version & metadata & Hu & Hne & Hv & Hh & Hmd & Hpre) Hi H0 H1.
    eexists.
    apply (createFhevmInstance_mock w p mockChains signal r url metadata); try done.
    apply probe_found_iff. by exists version.
Qed.

Lemma createFhevmInstance_unsupported_mainnet :
  createFhevmInstance geth_world wallet None (fun _ => false)
  = Throw (unsupported_network (Num 1)).
Proof.
  destruct (createFhevmInstance_unsupported geth_world wallet None (fun _ => false)
              {| isMock := false; chainId := Num 1; rpcUrl := None |} eq_refl) as [H _].
  apply H; [discriminate|]. intros [Hm _]. discriminate Hm.
Defined.

(** C10, the claim as stated fails, in two ways.  On chain 1, with no
    mock environment, a cancelled attempt fails with the abort error and
    not with the unsupported-network error.  And on chain 31337, which is
    not Sepolia, with a Hardhat node whose three addresses begin with
    ["0x"] but are no addresses (none passes [isValidAddress]), creation
    does not fail: it returns a mock instance. *)
Lemma createFhevmInstance_unsupported_fails :
  (resolve geth_world wallet None
   = Return {| isMock := false; chainId := Num 1; rpcUrl := None |}
   /\ createFhevmInstance geth_world wallet None (fun _ => true) = Throw FhevmAbortError
   /\ Throw FhevmAbortError <> (Throw (unsupported_network (Num 1)) : outcome FhevmInstance))
  /\ (resolve short_address_world wallet None
      = Return {| isMock := true; chainId := Num 31337;
                  rpcUrl := Some (str "http://localhost:8545") |}
      /\ Num 31337 <> Num SEPOLIA_chainId
      /\ Validation.isValidAddress (get short_metadata (str "ACLAddress")) = false
      /\ Validation.isValidAddress (get short_metadata (str "InputVerifierAddress")) = false
      /\ Validation.isValidAddress (get short_metadata (str "KMSVerifierAddress")) = false
      /\ createFhevmInstance short_address_world wallet None (fun _ => false)
         = Return (MockInstance (Mock.newMockFhevmInstance (Num 31337)
                                   (str "http://localhost:8545") short_metadata))).
Proof.
  split.
  - split; [reflexivity|]. split; [reflexivity|discriminate].
  - split; [reflexivity|]. split; [discriminate|]. repeat split; reflexivity.
Qed.

End Unsupported.

(** ** The SDK loader: one load in flight *)

Section SingleFlight.
Import Validation Loader.

(** A promise that has settled stays as it is: if it is pending after
    [settle], it was pending before. *)
Lemma settle_pending_inv (w : page) (q : nat) (st : promise_state) (p : nat) :
  st <> Pending ->
  promises (settle w q st) !! p = Some Pending -> promises w !! p = Some Pending.
Proof.
  intros Hst. unfold settle.
  destruct (promises w !! q) as [[| |e]|] eqn:E; try done.
  cbn [with_promises promises]. intros H.
  destruct (decide (q = p)) as [->|Hne].
  - rewrite list_lookup_insert_eq in H by (by eapply lookup_lt_Some).
    congruence.
  - by rewrite list_lookup_insert_ne in H.
Qed.

Lemma step_pending_inv (w : page) (e : event) (p : nat) :
  promises (step w e) !! p = Some Pending -> promises w !! p = Some Pending.
Proof.
  destruct e as [t|k|k|sdk]; cbn [step].
  - destruct (timers w !! t) as [[tm|]|]; try done.
    destruct tm as [q|q|q];
      repeat match goal with |- context [if ?b then _ else _] => destruct b end;
      intros H; apply settle_pending_inv in H; done.
  - destruct (handlers w !! k) as [[q timeout]|]; done.
  - destruct (handlers w !! k) as [[q timeout]|]; [|done].
    intros H. apply settle_pending_inv in H; done.
  - done.
Qed.

Lemma run_pending_inv (es : list event) :
  forall (w : page) (p : nat),
    promises (run w es) !! p = Some Pending -> promises w !! p = Some Pending.
Proof.
  induction es as [|e es IH]; intros w p H; [exact H|].
  apply step_pending_inv with (e := e). apply IH. exact H.
Qed.

(** What happens on the page adds no script tag. *)
Lemma settle_appended (w : page) (q : nat) (st : promise_state) :
  appended (settle w q st) = appended w.
Proof. unfold settle. destruct (promises w !! q) as [[| |e]|]; reflexivity. Qed.

Lemma step_appended (w : page) (e : event) : appended (step w e) = appended w.
Proof.
  destruct e as [t|k|k|sdk]; cbn [step].
  - destruct (timers w !! t) as [[tm|]|]; try done.
    destruct tm as [q|q|q];
      repeat match goal with |- context [if ?b then _ else _] => destruct b end;
      by rewrite settle_appended.
  - destruct (handlers w !! k) as [[q timeout]|]; done.
  - destruct (handlers w !! k) as [[q timeout]|]; [|done].
    by rewrite settle_appended.
  - done.
Qed.

Lemma run_appended (es : list event) :
  forall w : page, appended (run w es) = appended w.
Proof.
  induction es as [|e es IH]; intros w; [reflexivity|].
  unfold run in *. cbn [foldl]. rewrite IH. apply step_appended.
Qed.

(** [_performLoad] returns a pending promise and appends a script exactly
    when the document has none for the CDN URL. *)
Lemma performLoad_appended (w : page) :
  appended (_performLoad w).2
  = (appended w + (if bool_decide (script_tags w = 0%nat) then 1 else 0))%nat.
Proof.
  unfold _performLoad, new_promise, setTimeout.
  cbn [script_tags with_promises with_timers].
  repeat case_bool_decide; try lia; cbn; lia.
Qed.

(** If the promise that [load()] returned is pending, it is the loader's
    [_loadPromise]. *)
Lemma load_pending (l l1 : RelayerSDKLoader) (w w1 : page) (p1 : nat) :
  load l w = (p1, l1, w1) ->
  promises w1 !! p1 = Some Pending -> _loadPromise l1 = Some p1.
Proof.
  unfold load. destruct (_loadPromise l) as [p|] eqn:El.
  - intros [= <- <- <-] _. exact El.
  - destruct (in_browser w); cbn [negb].
    + destruct (relayerSDK w) as [sdk|].
      * destruct (isValidRelayerSDK sdk); cbn [negb].
        -- intros [= <- <- <-]. cbn. rewrite lookup_app_r, Nat.sub_diag by lia. done.
        -- destruct (_performLoad _) as [p w']. intros [= <- <- <-] _. reflexivity.
      * destruct (_performLoad _) as [p w']. intros [= <- <- <-] _. reflexivity.
    + intros [= <- <- <-]. cbn. rewrite lookup_app_r, Nat.sub_diag by lia. done.
Qed.

(** The count of scripts appended by one call of [load()]. *)
Lemma load_appended (l l1 : RelayerSDKLoader) (w w1 : page) (p1 : nat) :
  load l w = (p1, l1, w1) ->
  appended w1 = (appended w + (if adds_script l w then 1 else 0))%nat.
Proof.
  unfold load, adds_script. destruct (_loadPromise l) as [p|].
  - intros [= <- <- <-]. lia.
  - destruct (in_browser w); cbn [negb andb].
    + destruct (relayerSDK w) as [sdk|].
      * destruct (isValidRelayerSDK sdk); cbn [negb].
        -- intros [= <- <- <-]. cbn. lia.
        -- pose proof (performLoad_appended (with_script_tags (with_relayerSDK w None) 0)) as Ha.
           destruct (_performLoad _) as [p w']. intros [= <- <- <-].
           cbn in Ha. exact Ha.
      * pose proof (performLoad_appended w) as Ha.
        destruct (_performLoad _) as [p w']. intros [= <- <- <-]. exact Ha.
    + intros [= <- <- <-]. cbn. lia.
Qed.

(** C8 (as amended).  On one loader, a second [load()] made while the
    promise of a first [load()] is still pending, whatever happened on the
    page in between, returns the identical promise and changes nothing: it
    starts no fetch.  The two calls start at most one fetch between them:
    exactly one when the first call had to add the script tag, none when it
    found a tag for the CDN URL already in the document or joined a load
    already in progress. *)
Theorem load_twice_single_flight (l l1 : RelayerSDKLoader) (w w1 : page) (p1 : nat)
    (es : list event) :
  load l w = (p1, l1, w1) ->
  promises (run w1 es) !! p1 = Some Pending ->
  load l1 (run w1 es) = (p1, l1, run w1 es)
  /\ appended (run w1 es) = (appended w + (if adds_script l w then 1 else 0))%nat.
Proof.
  intros Hload Hpending.
  apply run_pending_inv in Hpending.
  pose proof (load_pending l l1 w w1 p1 Hload Hpending) as Hl1.
  split.
  - unfold load. rewrite Hl1. reflexivity.
  - rewrite run_appended. exact (load_appended l l1 w w1 p1 Hload).
Qed.

(** On a fresh page the script loads only after the second call: one fetch. *)
Lemma load_twice_single_flight_fresh :
  let w1 := (load newRelayerSDKLoader fresh_page).2 in
  let l1 := (load newRelayerSDKLoader fresh_page).1.2 in
  load l1 (run w1 [SetSDK (Some (VObject [(str "initSDK", VFunction)]))])
  = (0%nat, l1, run w1 [SetSDK (Some (VObject [(str "initSDK", VFunction)]))])
  /\ appended (run w1 [SetSDK (Some (VObject [(str "initSDK", VFunction)]))]) = 1%nat.
Proof.
  exact (load_twice_single_flight newRelayerSDKLoader
           (load newRelayerSDKLoader fresh_page).1.2 fresh_page
           (load newRelayerSDKLoader fresh_page).2 0%nat
           [SetSDK (Some (VObject [(str "initSDK", VFunction)]))]
           eq_refl eq_refl).
Defined.

(** C8, the claim as stated fails: when the document already holds a script
    tag for the CDN URL (here the tag of another loader object, still
    loading), the first call waits on that tag, the second call gets the
    same pending promise, and the two calls start no fetch at all, not one. *)
Lemma load_twice_no_fetch :
  script_tags page_with_tag = 1%nat
  /\ exists p1 l1 w1 w2,
       load newRelayerSDKLoader page_with_tag = (p1, l1, w1)
       /\ promises w1 !! p1 = Some Pending
       /\ load l1 w1 = (p1, l1, w2)
       /\ appended w2 = appended page_with_tag.
Proof. split; [reflexivity|]. eexists _, _, _, _. repeat split. Qed.

End SingleFlight.

(** ** The lifecycle hook: stale attempts are discarded *)

Section StaleAttempts.
Import Hook.
Context {Provider : Type} `{EqDecision Provider} {FhevmInstance : Type}.

#[local] Abbreviation state := (@Hook.state Provider FhevmInstance).
#[local] Abbreviation event := (@Hook.event Provider FhevmInstance).
#[local] Abbreviation attempt := (@Hook.attempt Provider).

Lemma aborted_abort (s : state) (c d : nat) :
  aborted (abort s c) d
  = if bool_decide (c = d /\ (c < length (controllers s))%nat) then true else aborted s d.
Proof.
  unfold aborted, abort. cbn [controllers].
  destruct (decide (c = d)) as [->|Hne].
  - destruct (decide (d < length (controllers s))%nat) as [Hlt|Hge].
    + rewrite bool_decide_true by done. by rewrite list_lookup_insert_eq.
    + rewrite bool_decide_false by tauto. by rewrite list_insert_ge by lia.
  - rewrite bool_decide_false by tauto. by rewrite list_lookup_insert_ne.
Qed.

(** Aborting the current controller leaves no live attempt. *)
Lemma abort_current_all_aborted (s : state) (c : nat) :
  invariant s -> _abortControllerRef s = Some c ->
  forall a : attempt, a ∈ started s -> aborted (abort s c) (thisSignal a) = true.
Proof.
  intros [Hlive Href _] Hc a Ha. rewrite aborted_abort.
  case_bool_decide as Hd; [reflexivity|].
  destruct (aborted s (thisSignal a)) eqn:E; [reflexivity|].
  exfalso. apply Hd. pose proof (Hlive a Ha E) as Hcur.
  rewrite Hc in Hcur. injection Hcur as ->. split; [reflexivity|]. by apply Href.
Qed.

(** With no current controller there is no live attempt. *)
Lemma no_ref_all_aborted (s : state) :
  invariant s -> _abortControllerRef s = None ->
  forall a : attempt, a ∈ started s -> aborted s (thisSignal a) = true.
Proof.
  intros [Hlive _ _] Hc a Ha.
  destruct (aborted s (thisSignal a)) eqn:E; [reflexivity|].
  rewrite (Hlive a Ha E) in Hc. discriminate.
Qed.

(** [refresh()] leaves every attempt started before it aborted. *)
Lemma refresh_aborts_started (provider : option Provider) (chainId : option Z) (s : state) :
  invariant s ->
  started (refresh provider chainId s) = started s
  /\ _abortControllerRef (refresh provider chainId s) = None
  /\ length (controllers (refresh provider chainId s)) = length (controllers s)
  /\ forall a : attempt, a ∈ started s ->
       aborted (refresh provider chainId s) (thisSignal a) = true.
Proof.
  intros Hinv. unfold refresh.
  destruct (_abortControllerRef s) as [c|] eqn:Hc.
  - repeat split; try (destruct provider; reflexivity).
    + destruct provider; cbn; apply length_insert.
    + intros a Ha. pose proof (abort_current_all_aborted s c Hinv Hc a Ha) as Hab.
      destruct provider; exact Hab.
  - repeat split; try (destruct provider; cbn; done).
    intros a Ha. pose proof (no_ref_all_aborted s Hinv Hc a Ha) as Hab.
    destruct provider; exact Hab.
Qed.

Lemma invariant_all_aborted (s : state) :
  _abortControllerRef s = None \/ (exists c, _abortControllerRef s = Some c
                                   /\ (c < length (controllers s))%nat) ->
  (forall a : attempt, a ∈ started s -> aborted s (thisSignal a) = true) ->
  (forall a : attempt, a ∈ started s -> (thisSignal a < length (controllers s))%nat) ->
  invariant s.
Proof.
  intros Href Hall Hsig. split.
  - intros a Ha E. rewrite (Hall a Ha) in E. discriminate.
  - intros c Hc. destruct Href as [Hn|(c' & Hc' & Hlt)]; congruence.
  - exact Hsig.
Qed.

Lemma invariant_mount (provider : option Provider) (chainId : option Z) (enabled : bool) :
  invariant (mount (FhevmInstance := FhevmInstance) provider chainId enabled).
Proof.
  split; cbn.
  - intros a Ha. by apply not_elem_of_nil in Ha.
  - discriminate.
  - intros a Ha. by apply not_elem_of_nil in Ha.
Qed.

Lemma invariant_set_result (s : state) i e st :
  invariant s -> invariant (set_result s i e st).
Proof. intros [H1 H2 H3]. split; assumption. Qed.

Lemma invariant_refresh (provider : option Provider) (chainId : option Z) (s : state) :
  invariant s -> invariant (refresh provider chainId s).
Proof.
  intros Hinv.
  destruct (refresh_aborts_started provider chainId s Hinv) as (Hst & Href & Hlen & Hall).
  apply invariant_all_aborted.
  - left. exact Href.
  - rewrite Hst. exact Hall.
  - rewrite Hst, Hlen. apply Hinv.
Qed.

Lemma invariant_mainEffect (s : state) : invariant s -> invariant (mainEffect s).
Proof.
  intros Hinv. unfold mainEffect.
  destruct (_isRunning s); cbn [negb].
  - destruct (_providerRef s) as [provider|]; [|by apply invariant_set_result].
    destruct (_abortControllerRef s) as [c|] eqn:Hc.
    + destruct (aborted s c) eqn:Eab; [exact Hinv|].
      destruct Hinv as [H1 H2 H3]. split; cbn.
      * intros a Ha E. apply elem_of_app in Ha as [Ha|Ha].
        -- by apply H1.
        -- apply list_elem_of_singleton in Ha. subst a. cbn. exact Hc.
      * exact H2.
      * intros a Ha. apply elem_of_app in Ha as [Ha|Ha]; [by apply H3|].
        apply list_elem_of_singleton in Ha. subst a. cbn. by apply H2.
    + pose proof (no_ref_all_aborted s Hinv Hc) as Hall.
      destruct Hinv as [H1 H2 H3].
      unfold aborted at 1. cbn [controllers].
      rewrite lookup_app_r, Nat.sub_diag by lia. cbn.
      split; cbn.
      * intros a Ha E. apply elem_of_app in Ha as [Ha|Ha].
        -- exfalso. pose proof (Hall a Ha) as Hab. pose proof (H3 a Ha) as Hlt.
           unfold aborted in *. cbn in E.
           rewrite lookup_app_l in E by exact Hlt. congruence.
        -- apply list_elem_of_singleton in Ha. subst a. reflexivity.
      * intros c [= <-]. rewrite length_app. cbn. lia.
      * intros a Ha. rewrite length_app. cbn.
        apply elem_of_app in Ha as [Ha|Ha]; [specialize (H3 a Ha); lia|].
        apply list_elem_of_singleton in Ha. subst a. cbn. lia.
  - apply invariant_set_result.
    destruct (_abortControllerRef s) as [c|] eqn:Hc; [|exact Hinv].
    apply invariant_all_aborted.
    + left. reflexivity.
    + exact (abort_current_all_aborted s c Hinv Hc).
    + cbn. rewrite length_insert. apply Hinv.
Qed.

Lemma invariant_unmount (s : state) : invariant s -> invariant (unmount s).
Proof.
  intros Hinv. unfold unmount.
  destruct (_abortControllerRef s) as [c|] eqn:Hc; [|exact Hinv].
  apply invariant_all_aborted.
  - right. exists c. cbn. rewrite length_insert. split; [exact Hc|]. by apply Hinv.
  - exact (abort_current_all_aborted s c Hinv Hc).
  - cbn. rewrite length_insert. apply Hinv.
Qed.

Lemma invariant_step (s : state) (e : event) : invariant s -> invariant (step s e).
Proof.
  intros Hinv. destruct e as [provider chainId|enabled| |k i|k e| ]; cbn [step].
  - by apply invariant_refresh.
  - destruct Hinv as [H1 H2 H3]. split; assumption.
  - by apply invariant_mainEffect.
  - destruct (started s !! k) as [a|]; [|exact Hinv].
    unfold onResolved. destruct (may_set s a); [by apply invariant_set_result|exact Hinv].
  - destruct (started s !! k) as [a|]; [|exact Hinv].
    unfold onRejected. destruct (may_set s a); [by apply invariant_set_result|exact Hinv].
  - by apply invariant_unmount.
Qed.

Lemma invariant_run (es : list event) :
  forall s : state, invariant s -> invariant (run s es).
Proof.
  induction es as [|e es IH]; intros s Hinv; [exact Hinv|].
  apply IH. by apply invariant_step.
Qed.

(** An aborted signal stays aborted. *)
Lemma lookup_insert_true (l : list bool) (c d : nat) :
  default false (l !! d) = true -> default false (<[c := true]> l !! d) = true.
Proof.
  intros H. destruct (decide (c = d)) as [->|Hne].
  - destruct (l !! d) eqn:E; [|discriminate].
    rewrite list_lookup_insert_eq by (by eapply lookup_lt_Some). reflexivity.
  - by rewrite list_lookup_insert_ne.
Qed.

Lemma lookup_snoc_true (l : list bool) (d : nat) :
  default false (l !! d) = true -> default false ((l ++ [false]) !! d) = true.
Proof.
  intros H. destruct (l !! d) eqn:E; [|discriminate].
  by rewrite (lookup_app_l_Some _ _ _ _ E).
Qed.

Lemma aborted_step (s : state) (e : event) (d : nat) :
  aborted s d = true -> aborted (step s e) d = true.
Proof.
  unfold aborted. intros H.
  destruct e as [provider chainId|enabled| |k i|k e| ]; cbn [step].
  - unfold refresh. destruct (_abortControllerRef s) as [c|];
      destruct provider; cbn; auto using lookup_insert_true.
  - exact H.
  - unfold mainEffect. destruct (_isRunning s); cbn [negb].
    + destruct (_providerRef s) as [provider|]; [|exact H].
      destruct (_abortControllerRef s) as [c|].
      * destruct (Hook.aborted s c); exact H.
      * destruct (Hook.aborted _ _); cbn; auto using lookup_snoc_true.
    + destruct (_abortControllerRef s) as [c|]; cbn; auto using lookup_insert_true.
  - destruct (started s !! k) as [a|]; [|exact H].
    unfold onResolved. destruct (may_set s a); exact H.
  - destruct (started s !! k) as [a|]; [|exact H].
    unfold onRejected. destruct (may_set s a); exact H.
  - unfold unmount. destruct (_abortControllerRef s) as [c|]; cbn;
      auto using lookup_insert_true.
Qed.

(** The attempts started so far keep their place. *)
Lemma started_step (s : state) (e : event) (k : nat) (a : attempt) :
  started s !! k = Some a -> started (step s e) !! k = Some a.
Proof.
  intros H.
  destruct e as [provider chainId|enabled| |k' i|k' e| ]; cbn [step].
  - unfold refresh. destruct (_abortControllerRef s) as [c|];
      destruct provider; exact H.
  - exact H.
  - unfold mainEffect. destruct (_isRunning s); cbn [negb].
    + destruct (_providerRef s) as [provider|]; [|exact H].
      destruct (_abortControllerRef s) as [c|].
      * destruct (aborted s c); [exact H|]. cbn. by apply lookup_app_l_Some.
      * destruct (aborted _ _); [exact H|]. cbn. by apply lookup_app_l_Some.
    + destruct (_abortControllerRef s) as [c|]; exact H.
  - destruct (started s !! k') as [a'|]; [|exact H].
    unfold onResolved. destruct (may_set s a'); exact H.
  - destruct (started s !! k') as [a'|]; [|exact H].
    unfold onRejected. destruct (may_set s a'); exact H.
  - unfold unmount. destruct (_abortControllerRef s) as [c|]; exact H.
Qed.

Lemma stale_run (es : list event) :
  forall (s : state) (k : nat) (a : attempt),
    started s !! k = Some a -> aborted s (thisSignal a) = true ->
    started (run s es) !! k = Some a /\ aborted (run s es) (thisSignal a) = true.
Proof.
  induction es as [|e es IH]; intros s k a Hk Hab; [done|].
  apply IH; [by apply started_step|by apply aborted_step].
Qed.

(** The callbacks of an attempt whose signal is aborted change nothing. *)
Lemma aborted_attempt_discarded (s : state) (k : nat) (a : attempt) :
  started s !! k = Some a -> aborted s (thisSignal a) = true ->
  (forall newInstance, step s (Resolved k newInstance) = s)
  /\ (forall e, step s (Rejected k e) = s).
Proof.
  intros Hk Hab. split; intros x; cbn [step]; rewrite Hk;
    unfold onResolved, onRejected, may_set; rewrite Hab; reflexivity.
Qed.

(** What does hold of stale attempts.  Take any run of a mounted hook in
    which [refresh()] is called (by the caller, or because [provider] or
    [chainId] changed) after attempt [a] was started.  Whatever happens
    afterwards, when the promise of [a] settles, fulfilled or rejected,
    the callbacks leave the state as it is: [instance], [error] and
    [status] are only ever set by attempts started after that
    [refresh()].  More generally the callbacks of any attempt whose signal
    is aborted change nothing, so a cancelled attempt never puts the hook
    in the error state.  An attempt that is followed by another without a
    [refresh()] between them is not covered. *)
Theorem stale_attempt_discarded (provider0 : option Provider) (chainId0 : option Z)
    (enabled : bool) (es1 es2 : list event) (provider : option Provider)
    (chainId : option Z) (k : nat) (a : attempt) :
  started (run (mount provider0 chainId0 enabled) es1) !! k = Some a ->
  let s : state :=
    run (mount provider0 chainId0 enabled) (es1 ++ Refresh provider chainId :: es2) in
  aborted s (thisSignal a) = true
  /\ (forall newInstance, step s (Resolved k newInstance) = s)
  /\ (forall e, step s (Rejected k e) = s)
  /\ (forall (s' : state) (k' : nat) (a' : attempt),
        started s' !! k' = Some a' -> aborted s' (thisSignal a') = true ->
        forall e, observable (step s' (Rejected k' e)) = observable s').
Proof.
  intros Hk s.
  set (s1 := run (mount provider0 chainId0 enabled) es1) in *.
  assert (invariant s1) as Hinv by apply invariant_run, invariant_mount.
  destruct (refresh_aborts_started provider chainId s1 Hinv) as (Hst & _ & _ & Hall).
  assert (started (refresh provider chainId s1) !! k = Some a) as Hk'
    by (rewrite Hst; exact Hk).
  assert (aborted (refresh provider chainId s1) (thisSignal a) = true) as Hab
    by (apply Hall; eapply list_elem_of_lookup_2; exact Hk).
  destruct (stale_run es2 _ k a Hk' Hab) as [Hk2 Hab2].
  assert (s = run (refresh provider chainId s1) es2) as Hs
    by (subst s s1; unfold run; rewrite foldl_app; reflexivity).
  rewrite Hs. split; [exact Hab2|].
  destruct (aborted_attempt_discarded _ k a Hk2 Hab2) as [Hres Hrej].
  split; [exact Hres|]. split; [exact Hrej|].
  intros s' k' a' Hk0 Hab0 e.
  destruct (aborted_attempt_discarded s' k' a' Hk0 Hab0) as [_ Hrej'].
  by rewrite Hrej'.
Qed.

End StaleAttempts.

Section StaleAttemptsExamples.
Import Hook.

(** A wallet on chain 31337 is replaced by another on chain 1 while the
    first attempt is in flight: the first attempt is attempt 0, on
    controller 0, and its callbacks are dead once [refresh()] has run. *)
Lemma stale_attempt_discarded_wallet_swap :
  let s : Hook.state (Provider := nat) (FhevmInstance := nat) :=
    run (mount (Some 7%nat) (Some 31337) true)
        ([Refresh (Some 7%nat) (Some 31337); MainEffect]
         ++ Refresh (Some 8%nat) (Some 1) :: [MainEffect]) in
  aborted s 0 = true
  /\ (forall newInstance, step s (Resolved 0 newInstance) = s)
  /\ (forall e, step s (Rejected 0 e) = s)
  /\ (forall (s' : Hook.state (Provider := nat) (FhevmInstance := nat)) (k' : nat)
             (a' : attempt),
        started s' !! k' = Some a' -> aborted s' (thisSignal a') = true ->
        forall e, observable (step s' (Rejected k' e)) = observable s').
Proof.
  exact (stale_attempt_discarded (Some 7%nat) (Some 31337) true
           [Refresh (Some 7%nat) (Some 31337); MainEffect] [MainEffect]
           (Some 8%nat) (Some 1) 0%nat {| thisSignal := 0; thisProvider := 7%nat |}
           eq_refl).
Defined.

(** The second attempt of that run is live: when it resolves, the hook is
    ready with its instance. *)
Lemma live_attempt_sets_ready :
  observable
    (run (mount (FhevmInstance := nat) (Some 7%nat) (Some 31337) true)
       [Refresh (Some 7%nat) (Some 31337); MainEffect;
        Refresh (Some 8%nat) (Some 1); MainEffect;
        Rejected 0 FhevmAbortError; Resolved 1 42%nat])
  = (Some 42%nat, None, ready).
Proof. reflexivity. Qed.

(** Two runs of the main effect with no [refresh()] between them (the
    effect runs again when [_providerChanged] has changed) find the
    controller of the first run in [_abortControllerRef] and reuse it.
    The two attempts share one signal and neither is stale for the
    other. *)
Remark main_effect_rerun_shares_controller :
  started
    (run (mount (FhevmInstance := nat) (Some 7%nat) (Some 31337) true)
       [Refresh (Some 7%nat) (Some 31337); MainEffect; MainEffect])
  = [ {| thisSignal := 0; thisProvider := 7%nat |};
      {| thisSignal := 0; thisProvider := 7%nat |} ].
Proof. reflexivity. Qed.

End StaleAttemptsExamples.

(** ** The mock instance: what a handle holds *)

Section MockHandles.
Import Mock.

(** The lower-case hexadecimal digits. *)
#[local] Abbreviation hexdigits := (str "0123456789abcdef").

Lemma digit_char_hexdigit (d : N) : (d < 16)%N -> digit_char d ∈ hexdigits.
Proof.
  intros Hd.
  assert (d = 0 \/ d = 1 \/ d = 2 \/ d = 3 \/ d = 4 \/ d = 5 \/ d = 6 \/ d = 7
          \/ d = 8 \/ d = 9 \/ d = 10 \/ d = 11 \/ d = 12 \/ d = 13 \/ d = 14
          \/ d = 15)%N as H by lia.
  repeat (destruct H as [->|H]); try subst d;
    vm_compute; repeat (first [apply list_elem_of_here | apply list_elem_of_further]).
Qed.

Lemma to_digits_hexdigits (fuel : nat) :
  forall n : N, Forall (fun c => c ∈ hexdigits) (to_digits 16 fuel n).
Proof.
  induction fuel as [|fuel IH]; intros n; simpl; [constructor|].
  destruct (N.ltb_spec n 16) as [Hlt|Hge].
  - constructor; [|constructor]. by apply digit_char_hexdigit.
  - apply Forall_app. split; [apply IH|].
    constructor; [|constructor]. apply digit_char_hexdigit.
    apply N.mod_lt. lia.
Qed.

Lemma length_toString16_u256 (v : Z) :
  0 <= v < 2 ^ 256 -> (length (toString16 v) <= 64)%nat.
Proof.
  intros Hv. unfold toString16, Z_to_string.
  destruct (Z.ltb_spec v 0) as [?|_]; [lia|].
  unfold N_to_string. apply length_to_digits; [lia|lia|].
  change (16 ^ N.of_nat 64)%N with (Z.to_N (2 ^ 256)). lia.
Qed.

(** The word of a number below [2^256]: 64 hexadecimal digits. *)
Lemma padded_word (v : Z) :
  0 <= v < 2 ^ 256 ->
  length (padStart (toString16 v) 64 "0") = 64%nat
  /\ Forall (fun c => c ∈ hexdigits) (padStart (toString16 v) 64 "0").
Proof.
  intros Hv. pose proof (length_toString16_u256 v Hv) as Hl. split.
  - rewrite length_padStart. lia.
  - unfold padStart. apply Forall_app. split.
    + apply Forall_replicate. vm_compute. apply list_elem_of_here.
    + unfold toString16, Z_to_string.
      destruct (Z.ltb_spec v 0) as [?|_]; [lia|]. apply to_digits_hexdigits.
Qed.

Lemma of_digits_leading_zeros (base : N) (k : nat) (s : jsstring) :
  of_digits base (replicate k "0"%char ++ s) = of_digits base s.
Proof.
  unfold of_digits. rewrite fold_left_app. f_equal.
  induction k as [|k IH]; [reflexivity|]. simpl. exact IH.
Qed.

Lemma of_digits_padded (v : Z) :
  0 <= v -> Z.of_N (of_digits 16 (padStart (toString16 v) 64 "0")) = v.
Proof.
  intros Hv. unfold padStart. rewrite of_digits_leading_zeros.
  unfold toString16, Z_to_string.
  destruct (Z.ltb_spec v 0) as [?|_]; [lia|].
  rewrite of_digits_N_to_string by lia. lia.
Qed.

(** X1.  Booleans survive the mock: [decrypt] of a handle made by
    [encryptBool], or by the builder for an [addBool] call, asked for
    ['bool'] or ['ebool'], gives back the boolean that went in. *)
Theorem decrypt_encryptBool (inst : MockFhevmInstance) (b : bool) :
  decrypt inst (encryptBool inst b) (str "bool") = DBoolean b
  /\ decrypt inst (encryptBool inst b) (str "ebool") = DBoolean b
  /\ decrypt inst (handle_of (input_of_call (AddBool b))) (str "ebool") = DBoolean b.
Proof. destruct b; repeat split; vm_compute; reflexivity. Qed.

(** X2.  Every handle is a 32-byte word in hexadecimal: for a boolean, and
    for an integer from zero to below [2^256] given to [encrypt8],
    [encrypt16], [encrypt32] (as a number that holds it) or [encrypt64]
    (as a BigInt) alike, none of which looks at the width its name
    announces, the handle is ["0x"] followed by exactly 64 lower-case
    hexadecimal digits. *)
Theorem handle_is_bytes32 (inst : MockFhevmInstance) (c : call) :
  match c with
  | Add8 v | Add16 v | Add32 v | Add64 v => 0 <= v < 2 ^ 256
  | AddBool _ => True
  end ->
  exists word,
    instance_handle inst c = str "0x" ++ word
    /\ length word = 64%nat
    /\ Forall (fun ch => ch ∈ hexdigits) word.
Proof.
  destruct c as [v|v|v|v|b]; intros Hv;
    try (exists (padStart (toString16 v) 64 "0"); split; [reflexivity|];
         by apply padded_word).
  exists (repeat (if b then str "01" else str "00") 32). split; [reflexivity|].
  destruct b; (split; [reflexivity|]);
    vm_compute; repeat constructor;
    repeat (first [apply list_elem_of_here | apply list_elem_of_further]).
Qed.

Lemma handle_is_bytes32_wide_u8 :
  exists word,
    instance_handle hardhat_instance (Add8 (2 ^ 255)) = str "0x" ++ word
    /\ length word = 64%nat
    /\ Forall (fun ch => ch ∈ hexdigits) word.
Proof. apply (handle_is_bytes32 hardhat_instance (Add8 (2 ^ 255))). simpl. lia. Defined.



End MockHandles.

(** ** The mock proof: what it binds *)

Section ProofBinding.
Import Mock Reader.

Lemma read_json_escape (c : ascii) (tail : jsstring) :
  read_json_chars (json_escape c ++ tail)
  = match read_json_chars tail with
    | Some (body, after) => Some (c :: body, after)
    | None => None
    end.
Proof. destruct c as [[] [] [] [] [] [] [] []]; reflexivity. Qed.

(** Reading back an escaped string finds its end and its characters. *)
Lemma read_json_chars_escaped (s rest : jsstring) :
  read_json_chars (concat (map json_escape s) ++ dquote :: rest) = Some (s, rest).
Proof.
  induction s as [|c s IH]; [reflexivity|].
  cbn [map concat]. rewrite <- app_assoc, read_json_escape, IH. reflexivity.
Qed.

Lemma read_json_string_quote (s rest : jsstring) :
  read_json_string (json_quote s ++ rest) = Some (s, rest).
Proof.
  unfold json_quote. cbn [app]. rewrite <- app_assoc. cbn [app].
  unfold read_json_string. change (Ascii.eqb dquote dquote) with true. cbv iota.
  apply read_json_chars_escaped.
Qed.

(** Proof steps on an equation between two serialised texts: drop the
    characters both sides begin with; read a string literal whose opening
    quote has been dropped. *)
Ltac peel H :=
  cbn [app] in H;
  repeat match type of H with _ :: _ = _ :: _ => injection H as H end.

Ltac unquote H Hs :=
  rewrite <- ?app_assoc in H; cbn [app] in H;
  apply (f_equal read_json_chars) in H;
  rewrite !read_json_chars_escaped in H;
  injection H as Hs H.

Lemma json_quote_prefix_inj (s1 s2 r1 r2 : jsstring) :
  json_quote s1 ++ r1 = json_quote s2 ++ r2 -> s1 = s2 /\ r1 = r2.
Proof.
  intros H. apply (f_equal read_json_string) in H.
  rewrite !read_json_string_quote in H. by injection H.
Qed.

Lemma split_at_first (c : ascii) (d1 d2 r1 r2 : jsstring) :
  c ∉ d1 -> c ∉ d2 -> d1 ++ c :: r1 = d2 ++ c :: r2 -> d1 = d2 /\ r1 = r2.
Proof.
  revert d2. induction d1 as [|x d1 IH]; intros [|y d2] H1 H2 H; cbn [app] in H.
  - by injection H.
  - injection H as -> _. exfalso. apply H2. apply list_elem_of_here.
  - injection H as -> _. exfalso. apply H1. apply list_elem_of_here.
  - injection H as -> H.
    apply not_elem_of_cons in H1 as [_ H1], H2 as [_ H2].
    destruct (IH d2 H1 H2 H) as [-> ->]. done.
Qed.

#[local] Abbreviation decimal := (str "-0123456789").

Lemma digit_char_decimal (d : N) : (d < 10)%N -> digit_char d ∈ decimal.
Proof.
  intros Hd.
  assert (d = 0 \/ d = 1 \/ d = 2 \/ d = 3 \/ d = 4 \/ d = 5 \/ d = 6 \/ d = 7
          \/ d = 8 \/ d = 9)%N as H by lia.
  repeat (destruct H as [->|H]); try subst d;
    vm_compute; repeat (first [apply list_elem_of_here | apply list_elem_of_further]).
Qed.

Lemma to_digits_decimal (fuel : nat) :
  forall n : N, Forall (fun c => c ∈ decimal) (to_digits 10 fuel n).
Proof.
  induction fuel as [|fuel IH]; intros n; simpl; [constructor|].
  destruct (N.ltb_spec n 10) as [Hlt|Hge].
  - constructor; [|constructor]. by apply digit_char_decimal.
  - apply Forall_app. split; [apply IH|].
    constructor; [|constructor]. apply digit_char_decimal.
    apply N.mod_lt. lia.
Qed.

(** A number in decimal is made of digits and at most a sign. *)
Lemma toString10_decimal (z : Z) : Forall (fun c => c ∈ decimal) (toString10 z).
Proof.
  unfold toString10, Z_to_string. destruct (z <? 0).
  - constructor; [vm_compute; apply list_elem_of_here|]. apply to_digits_decimal.
  - apply to_digits_decimal.
Qed.

Lemma not_decimal (c : ascii) (z : Z) :
  c ∉ decimal -> c ∉ toString10 z.
Proof.
  intros Hc Hin. apply Hc.
  pose proof (toString10_decimal z) as H. rewrite Forall_forall in H. by apply H.
Qed.

Ltac not_in_literal :=
  let H := fresh in
  intros H; vm_compute in H;
  repeat (apply elem_of_cons in H as [H|H]; [discriminate H|]);
  by apply elem_of_nil in H.

(** What [JSON.stringify] writes for a stored value holds no comma, and
    tells the value. *)
Lemma json_plain_no_comma (v : plain) (s : jsstring) :
  json_plain v = Return s -> ","%char ∉ s.
Proof.
  destruct v as [z|z|[]]; intros H; simplify_eq/=.
  - apply not_decimal. not_in_literal.
  - not_in_literal.
  - not_in_literal.
Qed.

Lemma json_plain_inj (v1 v2 : plain) (s : jsstring) :
  json_plain v1 = Return s -> json_plain v2 = Return s -> v1 = v2.
Proof.
  assert (forall z b, toString10 z <> (if b : bool then str "true" else str "false")) as Hne.
  { intros z b Heq. pose proof (toString10_decimal z) as H. rewrite Heq in H.
    destruct b; apply Forall_cons in H as [H _]; revert H; not_in_literal. }
  destruct v1 as [z1|z1|b1], v2 as [z2|z2|b2]; simpl; intros H1 H2;
    try discriminate; injection H1 as <-; injection H2 as H2.
  - f_equal. symmetry. by apply toString10_inj.
  - symmetry in H2. by apply Hne in H2.
  - by apply Hne in H2.
  - destruct b1, b2; done.
Qed.

Lemma json_input_inj (i1 i2 : input) (s1 s2 r1 r2 : jsstring) :
  json_input i1 = Return s1 -> json_input i2 = Return s2 ->
  s1 ++ r1 = s2 ++ r2 -> i1 = i2 /\ r1 = r2.
Proof.
  unfold json_input. intros H1 H2 H.
  destruct (json_plain (value i1)) as [v1|] eqn:E1; [|discriminate].
  destruct (json_plain (value i2)) as [v2|] eqn:E2; [|discriminate].
  cbn [bind] in H1, H2. injection H1 as <-. injection H2 as <-.
  peel H. rewrite <- ?app_assoc in H. cbn [app] in H.
  apply split_at_first in H as [-> H];
    [|by eapply json_plain_no_comma..].
  peel H. unquote H Ht. split; [|exact H].
  pose proof (json_plain_inj _ _ _ E1 E2) as Hv.
  destruct i1, i2; simpl in *; congruence.
Qed.

Lemma json_input_head (i : input) (s : jsstring) :
  json_input i = Return s -> exists s', s = "{"%char :: s'.
Proof.
  unfold json_input. destruct (json_plain (value i)); [|discriminate].
  cbn [bind]. intros [= <-]. eexists. reflexivity.
Qed.

Lemma json_elements_cons (i : input) (l : list input) :
  json_elements (i :: l)
  = bind (json_input i) (fun s =>
    match l with
    | [] => Return s
    | _ => bind (json_elements l) (fun rest => Return (s ++ str "," ++ rest))
    end).
Proof. destruct l; simpl; destruct (json_input i); reflexivity. Qed.

(** The serialised [inputs] array tells its elements. *)
Lemma json_elements_inj (l1 : list input) :
  forall (l2 : list input) (e1 e2 r1 r2 : jsstring),
    json_elements l1 = Return e1 -> json_elements l2 = Return e2 ->
    e1 ++ "]"%char :: r1 = e2 ++ "]"%char :: r2 -> l1 = l2 /\ r1 = r2.
Proof.
  induction l1 as [|i1 l1 IH]; intros [|i2 l2] e1 e2 r1 r2 H1 H2 H.
  - simpl in H1, H2. simplify_eq/=. done.
  - simpl in H1. injection H1 as <-. rewrite json_elements_cons in H2.
    destruct (json_input i2) as [s2|] eqn:E2; [|discriminate].
    apply json_input_head in E2 as [s' ->]. cbn [bind] in H2.
    destruct l2; [|destruct (json_elements (_ :: _)); [|discriminate]];
      cbn [bind] in H2; injection H2 as <-; discriminate H.
  - simpl in H2. injection H2 as <-. rewrite json_elements_cons in H1.
    destruct (json_input i1) as [s1|] eqn:E1; [|discriminate].
    apply json_input_head in E1 as [s' ->]. cbn [bind] in H1.
    destruct l1; [|destruct (json_elements (_ :: _)); [|discriminate]];
      cbn [bind] in H1; injection H1 as <-; discriminate H.
  - rewrite json_elements_cons in H1, H2.
    destruct (json_input i1) as [s1|] eqn:E1; [|discriminate].
    destruct (json_input i2) as [s2|] eqn:E2; [|discriminate].
    cbn [bind] in H1, H2.
    destruct l1 as [|j1 l1], l2 as [|j2 l2].
    + injection H1 as <-. injection H2 as <-.
      destruct (json_input_inj _ _ _ _ _ _ E1 E2 H) as [-> Hr].
      by injection Hr as ->.
    + injection H1 as <-.
      destruct (json_elements (j2 :: l2)) as [rest2|]; [|discriminate].
      cbn [bind] in H2. injection H2 as <-. rewrite <- app_assoc in H.
      destruct (json_input_inj _ _ _ _ _ _ E1 E2 H) as [_ Hr]. discriminate Hr.
    + injection H2 as <-.
      destruct (json_elements (j1 :: l1)) as [rest1|]; [|discriminate].
      cbn [bind] in H1. injection H1 as <-. rewrite <- app_assoc in H.
      destruct (json_input_inj _ _ _ _ _ _ E1 E2 H) as [_ Hr]. discriminate Hr.
    + destruct (json_elements (j1 :: l1)) as [rest1|] eqn:R1; [|discriminate].
      destruct (json_elements (j2 :: l2)) as [rest2|] eqn:R2; [|discriminate].
      cbn [bind] in H1, H2. injection H1 as <-. injection H2 as <-.
      rewrite <- !app_assoc in H.
      destruct (json_input_inj _ _ _ _ _ _ E1 E2 H) as [-> Hr].
      peel Hr. rewrite <- ?app_assoc in Hr.
      destruct (IH (j2 :: l2) _ _ _ _ eq_refl R2 Hr) as [-> ->]. done.
Qed.

(** X4.  The mock proof binds what went into it.  Take two builders whose
    inputs are booleans and integers below [10^21] in absolute value (the
    numbers that [JSON.stringify] writes with all their digits; [NaN] and
    the infinities, which it writes as [null], are left out).  If two
    calls of [encrypt()] on them return the same [inputProof], then the
    builders have the same contract address, the same user address and
    the same inputs (values and types, in order), and the calls were made
    at the same [Date.now()]. *)
Theorem inputProof_binds (b1 b2 : MockFhevmEncryptedInput) (t1 t2 : Z)
    (r1 r2 : EncryptResult) :
  Plain.inputs_written_in_full b1 -> Plain.inputs_written_in_full b2 ->
  Z.abs t1 < 10 ^ 21 -> Z.abs t2 < 10 ^ 21 ->
  encrypt b1 t1 = Return r1 -> encrypt b2 t2 = Return r2 ->
  inputProof r1 = inputProof r2 ->
  b1 = b2 /\ t1 = t2.
Proof.
  intros _ _ _ _. unfold encrypt, json_proofData. intros H1 H2 H.
  destruct (json_elements (inputs b1)) as [e1|] eqn:E1; [|discriminate].
  destruct (json_elements (inputs b2)) as [e2|] eqn:E2; [|discriminate].
  cbn [bind] in H1, H2. injection H1 as <-. injection H2 as <-.
  cbn [inputProof] in H. peel H. apply buffer_hex_inj in H.
  peel H. unquote H Hc. peel H. unquote H Hu. peel H.
  rewrite <- ?app_assoc in H. cbn [app] in H.
  destruct (json_elements_inj _ _ _ _ _ _ E1 E2 H) as [Hi Hr].
  peel Hr. rewrite <- ?app_assoc in Hr. cbn [app] in Hr.
  apply split_at_first in Hr as [Hr _];
    [|apply not_decimal; not_in_literal..].
  apply toString10_inj in Hr. split; [|exact Hr].
  destruct b1, b2; simpl in *; congruence.
Qed.

Lemma inputProof_binds_add32 :
  add32 (createEncryptedInput hardhat_instance (str "0xC0") (str "0xA1")) 5
  = add32 (createEncryptedInput hardhat_instance (str "0xC0") (str "0xA1")) 5
  /\ 1700000000000 = 1700000000000.
Proof.
  eapply (inputProof_binds _ _ 1700000000000 1700000000000).
  - constructor; [reflexivity|constructor].
  - constructor; [reflexivity|constructor].
  - reflexivity.
  - reflexivity.
  - reflexivity.
  - reflexivity.
  - reflexivity.
Defined.

End ProofBinding.

(** ** Addresses and the SDK diagnosis *)

Section Diagnostics.
Import Validation Loader Status.

Lemma is_hex_char_spec (c : ascii) :
  is_hex_char c = bool_decide (c ∈ str "0123456789abcdefABCDEF").
Proof. destruct c as [[] [] [] [] [] [] [] []]; vm_compute; reflexivity. Qed.

(** X5.  [isValidAddress] accepts exactly the strings made of ["0x"] and
    40 hexadecimal digits of either case; everything that is not a string
    is rejected.  No checksum of the letters' case is looked at. *)
Theorem isValidAddress_iff (address : value) :
  isValidAddress address = true
  <-> exists digits,
        address = VString (str "0x" ++ digits)
        /\ length digits = 40%nat
        /\ Forall (fun c => c ∈ str "0123456789abcdefABCDEF") digits.
Proof.
  split.
  - destruct address as [| | | |a| |]; try discriminate.
    unfold isValidAddress.
    destruct (startsWith a (str "0x")) eqn:Hp; cbn [negb]; [|discriminate].
    apply startsWith_spec in Hp as [digits ->].
    case_bool_decide as Hl; cbn [negb]; [|discriminate].
    intros Hall. exists digits. split; [reflexivity|].
    split; [simpl in Hl; lia|].
    change (drop 2 (str "0x" ++ digits)) with digits in Hall.
    apply Forall_forall. intros c Hc.
    rewrite forallb_forall in Hall. specialize (Hall c).
    rewrite is_hex_char_spec in Hall. eapply bool_decide_eq_true_1.
    apply Hall. by apply list_elem_of_In.
  - intros (digits & -> & Hl & Hall). unfold isValidAddress.
    rewrite startsWith_app. cbn [negb].
    rewrite bool_decide_true by (simpl; lia). cbn [negb].
    change (drop 2 (str "0x" ++ digits)) with digits.
    apply forallb_forall. intros c Hc. rewrite is_hex_char_spec.
    apply bool_decide_eq_true_2. rewrite Forall_forall in Hall. apply Hall.
    by apply list_elem_of_In.
Qed.

Lemma lookup_prop_name (props : list (jsstring * value)) (name : jsstring) (v : value) :
  lookup_prop props name = Some v -> name ∈ map fst props.
Proof.
  induction props as [|[k x] props IH]; simpl; [discriminate|].
  case_bool_decide as Hk; [intros _; subst; apply list_elem_of_here|].
  intros H. apply list_elem_of_further. by apply IH.
Qed.

(** A callable member of an object is one of its available methods. *)
Lemma method_available (props : list (jsstring * value)) (name : jsstring) :
  name ∈ availableMethods (VObject props)
  <-> typeof (get (VObject props) name) = str "function".
Proof.
  rewrite availableMethods_elem. split; [by intros [_ ?]|].
  intros H. split; [|exact H]. simpl in *.
  destruct (lookup_prop props name) as [v|] eqn:E; [|discriminate H].
  by eapply lookup_prop_name.
Qed.

(** X6.  [diagnosticSDK] does not always return: when [window.relayerSDK]
    is there but holds a primitive ([undefined], [null], a boolean, a
    number, a string), listing its properties or testing ['SepoliaConfig'
    in sdk] throws a [TypeError], where [isValidFhevmWindow] answers
    [false] for the same page.  In every other case it returns, and
    [windowExists] and [relayerSDKExists] say what the page has. *)
Theorem diagnosticSDK_outcome (w : page) :
  match diagnosticSDK w with
  | Return d =>
      windowExists d = in_browser w
      /\ relayerSDKExists d = in_browser w && bool_decide (is_Some (relayerSDK w))
      /\ (relayerSDKExists d = true ->
          exists sdk, relayerSDK w = Some sdk
                      /\ (sdk = VFunction \/ exists props, sdk = VObject props))
  | Throw e =>
      (exists msg, e = TypeError msg)
      /\ in_browser w = true
      /\ isValidFhevmWindow (window w) = false
      /\ exists sdk, relayerSDK w = Some sdk
                     /\ sdk <> VFunction /\ forall props, sdk <> VObject props
  end.
Proof.
  unfold diagnosticSDK, window.
  destruct (in_browser w); cbn [negb andb]; [|by repeat split].
  destruct (relayerSDK w) as [sdk|]; cbn [negb andb].
  2:{ rewrite bool_decide_false by (intros [? ?]; discriminate). by repeat split. }
  rewrite bool_decide_true by (by eexists). cbn [default from_option id].
  destruct sdk as [| |b|n|s| |props]; cbn [can_list_properties can_test_in negb].
  all: repeat split; eauto; try discriminate.
Qed.

(** X7.  On a page whose [window.relayerSDK] is not a function, a
    diagnosis without issues means: a browser page whose
    [window.relayerSDK] is an object that has [SepoliaConfig] and whose
    [initSDK] and [createInstance] are both functions.  Such a page passes
    [isValidFhevmWindow]; the diagnosis asks for more than the validator
    does.  (A function that carries these members gets no issues from the
    code either, and is refused by the validator.) *)
Theorem diagnosticSDK_no_issues (w : page) (d : Diagnosis) :
  (forall sdk, relayerSDK w = Some sdk -> typeof sdk <> str "function") ->
  diagnosticSDK w = Return d ->
  (issues d = []
   <-> in_browser w = true
       /\ exists props,
            relayerSDK w = Some (VObject props)
            /\ is_Some (lookup_prop props (str "SepoliaConfig"))
            /\ typeof (get (VObject props) (str "initSDK")) = str "function"
            /\ typeof (get (VObject props) (str "createInstance")) = str "function")
  /\ (issues d = [] -> isValidFhevmWindow (window w) = true).
Proof.
  intros _ Hd.
  assert (issues d = []
          -> in_browser w = true
             /\ exists props,
                  relayerSDK w = Some (VObject props)
                  /\ is_Some (lookup_prop props (str "SepoliaConfig"))
                  /\ typeof (get (VObject props) (str "initSDK")) = str "function"
                  /\ typeof (get (VObject props) (str "createInstance")) = str "function")
    as Hclean.
  { revert Hd. unfold diagnosticSDK.
    destruct (in_browser w); cbn [negb andb]; [|by intros [= <-]].
    destruct (relayerSDK w) as [sdk|]; cbn [negb andb].
    2:{ rewrite bool_decide_false by (intros [? ?]; discriminate). by intros [= <-]. }
    rewrite bool_decide_true by (by eexists). cbn [default from_option id].
    destruct sdk as [| |b|n|s| |props]; cbn [can_list_properties can_test_in negb];
      try discriminate.
    - intros [= <-]. cbn [issues]. intros H. discriminate H.
    - intros [= <-]. cbn [issues]. intros H. apply app_eq_nil in H as [H3 H4].
      split; [reflexivity|]. exists props. split; [reflexivity|].
      apply map_eq_nil in H4.
      unfold requiredMethods in H4. rewrite !filter_cons, filter_nil in H4.
      repeat case_decide; try discriminate.
      repeat split.
      + revert H3. case_bool_decide; [done|discriminate].
      + by apply method_available.
      + by apply method_available. }
  split; [split; [exact Hclean|]|].
  - intros (Hb & props & Hs & Hc & Hi & Hk). revert Hd. unfold diagnosticSDK.
    rewrite Hb, Hs. cbn [negb andb].
    rewrite bool_decide_true by (by eexists).
    cbn [default from_option id can_list_properties can_test_in negb has].
    rewrite (bool_decide_true _ Hc). intros [= <-]. cbn [issues app].
    unfold requiredMethods. rewrite !filter_cons, filter_nil.
    apply method_available in Hi, Hk. repeat case_decide; done.
  - intros H. apply Hclean in H as (Hb & props & Hs & Hc & Hi & Hk).
    unfold window. rewrite Hs.
    unfold isValidFhevmWindow.
    change (has (VObject [(str "relayerSDK", VObject props)]) (str "relayerSDK")) with true.
    change (get (VObject [(str "relayerSDK", VObject props)]) (str "relayerSDK"))
      with (VObject props).
    cbn [typeof negb]. rewrite bool_decide_true by reflexivity. cbn [negb].
    apply (accepted_with_method props (str "initSDK")); [|exact Hi].
    apply method_available in Hi. apply availableMethods_elem in Hi as [Hi _]. exact Hi.
Qed.

(** A page whose SDK has the two core methods and the Sepolia configuration. *)
Lemma diagnosticSDK_no_issues_complete_sdk :
  let w := with_relayerSDK fresh_page
             (Some (VObject [(str "initSDK", VFunction); (str "createInstance", VFunction);
                             (str "SepoliaConfig", VObject [])])) in
  exists d, diagnosticSDK w = Return d /\ issues d = []
            /\ isValidFhevmWindow (window w) = true.
Proof.
  intros w. eexists. split; [reflexivity|].
  assert (forall sdk, relayerSDK w = Some sdk -> typeof sdk <> str "function") as Hfn
    by (intros sdk [= <-]; discriminate).
  pose proof (diagnosticSDK_no_issues w _ Hfn eq_refl) as [H1 H2].
  split; [|apply H2]; vm_compute; reflexivity.
Defined.

End Diagnostics.

(** ** The SDK loader: reloading, failing, reporting *)

Section LoaderLifecycle.
Import Validation Loader Status.

(** The loader's test for a page that needs no load is the one of
    [isLoaded]. *)
Lemma isValidFhevmWindow_window (w : page) :
  isValidFhevmWindow (window w)
  = match relayerSDK w with
    | Some sdk => isValidRelayerSDK sdk
    | None => false
    end.
Proof.
  unfold window. destruct (relayerSDK w) as [sdk|]; [|reflexivity].
  unfold isValidFhevmWindow.
  change (has (VObject [(str "relayerSDK", sdk)]) (str "relayerSDK")) with true.
  change (get (VObject [(str "relayerSDK", sdk)]) (str "relayerSDK")) with sdk.
  cbn [typeof negb]. rewrite bool_decide_true by reflexivity. reflexivity.
Qed.

Lemma lookup_new_promise (w : page) (st : promise_state) :
  promises (new_promise w st).2 !! (new_promise w st).1 = Some st.
Proof.
  unfold new_promise. cbn [fst snd with_promises promises].
  rewrite lookup_app_r by lia. by rewrite Nat.sub_diag.
Qed.

(** What [_performLoad] leaves behind: a new pending promise, and a script
    tag in the document. *)
Lemma performLoad_spec (w : page) :
  (_performLoad w).1 = length (promises w)
  /\ promises (_performLoad w).2 !! (_performLoad w).1 = Some Pending
  /\ relayerSDK (_performLoad w).2 = relayerSDK w
  /\ in_browser (_performLoad w).2 = in_browser w
  /\ script_tags (_performLoad w).2
     = (if bool_decide (script_tags w = 0%nat) then 1%nat else script_tags w).
Proof.
  unfold _performLoad, new_promise, setTimeout.
  cbn [with_promises with_timers script_tags promises timers].
  assert (forall ps : list promise_state, (ps ++ [Pending]) !! length ps = Some Pending)
    as Hnew by (intros ps; by rewrite lookup_app_r, Nat.sub_diag by lia).
  repeat case_bool_decide; try lia;
    cbn [fst snd promises relayerSDK in_browser script_tags with_timers];
    repeat split; try done; try apply Hnew; lia.
Qed.

(** X8.  [forceReload()] starts over whatever the page and the loader
    hold: in a browser it forgets the loader's promise, removes the script
    tags and [window.relayerSDK] (a valid SDK too), and its [load()] then
    always adds one script tag, so exactly one fetch starts, and returns a
    new pending promise, kept as the loader's promise.  Outside a browser
    the call itself throws, as [document] is read before [window] is
    tested. *)
Theorem forceReload_restarts (l : RelayerSDKLoader) (w : page) :
  match forceReload l w with
  | Some (p, l1, w1) =>
      in_browser w = true
      /\ p = length (promises w)
      /\ promises w1 !! p = Some Pending
      /\ _loadPromise l1 = Some p
      /\ appended w1 = S (appended w)
      /\ script_tags w1 = 1%nat
      /\ relayerSDK w1 = None
  | None => in_browser w = false
  end.
Proof.
  unfold forceReload. destruct (in_browser w) eqn:Hb; cbn [negb]; [|reflexivity].
  set (w0 := match relayerSDK (with_script_tags w 0) with
             | Some _ => with_relayerSDK (with_script_tags w 0) None
             | None => with_script_tags w 0
             end).
  assert (relayerSDK w0 = None /\ script_tags w0 = 0%nat /\ in_browser w0 = true
          /\ promises w0 = promises w /\ appended w0 = appended w)
    as (Hs & Ht & Hb0 & Hp & Ha).
  { subst w0. cbn [with_script_tags relayerSDK].
    destruct (relayerSDK w) eqn:E; cbn; rewrite ?E; done. }
  unfold load. cbn [_loadPromise]. rewrite Hb0, Hs. cbn [negb].
  pose proof (performLoad_spec w0) as (H1 & H2 & H3 & _ & H5).
  pose proof (performLoad_appended w0) as H6.
  destruct (_performLoad w0) as [p w1]. cbn [fst snd] in *.
  rewrite bool_decide_true in H5, H6 by exact Ht.
  repeat split; try done; congruence || lia.
Qed.

(** X9.  [load()] on a loader with no load in progress, in a browser: the
    returned promise is already fulfilled exactly when [isLoaded()] says
    [true], and then nothing is fetched and the loader keeps no promise;
    otherwise the promise is pending and kept as the loader's promise. *)
Theorem load_fulfilled_iff_loaded (l : RelayerSDKLoader) (w : page) :
  _loadPromise l = None -> in_browser w = true ->
  (promises (load l w).2 !! (load l w).1.1 = Some Fulfilled <-> isLoaded w = Return true)
  /\ (isLoaded w = Return true ->
      (load l w).1.2 = l /\ appended (load l w).2 = appended w)
  /\ (isLoaded w <> Return true ->
      promises (load l w).2 !! (load l w).1.1 = Some Pending
      /\ _loadPromise (load l w).1.2 = Some (load l w).1.1).
Proof.
  intros Hl Hb. unfold isLoaded, load. rewrite Hl, Hb, isValidFhevmWindow_window.
  cbn [negb].
  destruct (relayerSDK w) as [sdk|] eqn:Hs.
  - destruct (isValidRelayerSDK sdk) eqn:Hv; cbn [negb].
    + pose proof (lookup_new_promise w Fulfilled) as Hn.
      destruct (new_promise w Fulfilled) as [p w1] eqn:E. cbn [fst snd] in *.
      repeat split; try done.
      unfold new_promise in E. injection E as <- <-. reflexivity.
    + pose proof (performLoad_spec (with_script_tags (with_relayerSDK w None) 0))
        as (_ & H2 & _).
      destruct (_performLoad _) as [p w1]. cbn [fst snd _loadPromise] in *.
      repeat split; try done; rewrite H2; discriminate.
  - pose proof (performLoad_spec w) as (_ & H2 & _).
    destruct (_performLoad w) as [p w1]. cbn [fst snd _loadPromise] in *.
    repeat split; try done; rewrite H2; discriminate.
Qed.

Lemma load_fulfilled_iff_loaded_page :
  let w := with_relayerSDK fresh_page (Some (VObject [(str "initSDK", VFunction)])) in
  promises (load newRelayerSDKLoader w).2 !! (load newRelayerSDKLoader w).1.1 = Some Fulfilled
  /\ (load newRelayerSDKLoader w).1.2 = newRelayerSDKLoader
  /\ appended (load newRelayerSDKLoader w).2 = 0%nat.
Proof.
  intros w.
  destruct (load_fulfilled_iff_loaded newRelayerSDKLoader w eq_refl eq_refl) as (H1 & H2 & _).
  split; [apply H1; reflexivity|]. apply H2. reflexivity.
Defined.

Lemma settle_settled (w : page) (q : nat) (st' : promise_state) (p : nat)
    (st : promise_state) :
  promises w !! p = Some st -> st <> Pending ->
  promises (settle w q st') !! p = Some st.
Proof.
  intros Hp Hst. unfold settle.
  destruct (promises w !! q) as [[]|] eqn:E; try exact Hp.
  cbn [with_promises promises].
  destruct (decide (q = p)) as [->|Hne]; [congruence|].
  by rewrite list_lookup_insert_ne.
Qed.

Lemma step_settled (w : page) (e : event) (p : nat) (st : promise_state) :
  promises w !! p = Some st -> st <> Pending ->
  promises (step w e) !! p = Some st.
Proof.
  intros Hp Hst. destruct e as [t|k|k|sdk]; cbn [step].
  - destruct (timers w !! t) as [[tm|]|]; try exact Hp.
    destruct tm; [destruct (negb _)..|]; by apply settle_settled.
  - destruct (handlers w !! k) as [[q t]|]; exact Hp.
  - destruct (handlers w !! k) as [[q t]|]; [|exact Hp]. by apply settle_settled.
  - exact Hp.
Qed.

(** A settled promise stays as it is. *)
Lemma run_settled (es : list event) :
  forall (w : page) (p : nat) (st : promise_state),
    promises w !! p = Some st -> st <> Pending ->
    promises (run w es) !! p = Some st.
Proof.
  induction es as [|e es IH]; intros w p st Hp Hst; [exact Hp|].
  apply IH; [|exact Hst]. by apply step_settled.
Qed.

(** X10.  A failed load is not retried by [load()]: once the loader's
    promise is rejected, whatever happens on the page afterwards (a valid
    SDK may even appear), every [load()] returns that same rejected
    promise and changes nothing, so no fetch starts; and [getStatus()]
    reports [isLoading] for as long as the page has no valid SDK, although
    nothing is loading.  Only [forceReload()] starts another load. *)
Theorem rejected_load_not_retried (l : RelayerSDKLoader) (w : page) (p : nat) (e : exn)
    (es : list event) :
  _loadPromise l = Some p ->
  promises w !! p = Some (Rejected e) ->
  load l (run w es) = (p, l, run w es)
  /\ promises (run w es) !! p = Some (Rejected e)
  /\ isLoading (getStatus l (run w es))
     = negb (in_browser (run w es) && isValidFhevmWindow (window (run w es))).
Proof.
  intros Hl Hp. split; [|split].
  - unfold load. by rewrite Hl.
  - by apply run_settled.
  - unfold getStatus. cbn [isLoading]. rewrite Hl.
    rewrite bool_decide_true by (by eexists). reflexivity.
Qed.

Lemma rejected_load_not_retried_after_script_error :
  let l := (load newRelayerSDKLoader fresh_page).1.2 in
  let w := run (load newRelayerSDKLoader fresh_page).2 [ScriptError 0] in
  let es := [SetSDK (Some (VObject [(str "initSDK", VFunction)]))] in
  load l (run w es) = (0%nat, l, run w es)
  /\ promises (run w es) !! 0%nat = Some (Rejected load_failed)
  /\ isLoading (getStatus l (run w es))
     = negb (in_browser (run w es) && isValidFhevmWindow (window (run w es))).
Proof.
  intros l w es.
  apply (rejected_load_not_retried l w 0 load_failed es); reflexivity.
Defined.

Lemma settle_timers (w : page) (q : nat) (st : promise_state) :
  timers (settle w q st) = timers w.
Proof. unfold settle. by destruct (promises w !! q) as [[]|]. Qed.

Lemma lookup_cleared (ts : list (option timer)) (t t' : nat) :
  ts !! t = Some None -> <[t' := None]> ts !! t = Some None.
Proof.
  intros H. destruct (decide (t' = t)) as [->|Hne].
  - rewrite list_lookup_insert_eq; [done|]. by eapply lookup_lt_Some.
  - by rewrite list_lookup_insert_ne.
Qed.

(** A cleared timer is never armed again. *)
Lemma step_cleared (w : page) (e : event) (t : nat) :
  timers w !! t = Some None -> timers (step w e) !! t = Some None.
Proof.
  intros H. destruct e as [t'|k|k|sdk]; cbn [step].
  - destruct (timers w !! t') as [[tm|]|]; try exact H.
    destruct tm; [destruct (negb _)..|]; rewrite settle_timers;
      cbn [clearTimeout with_timers timers]; by apply lookup_cleared.
  - destruct (handlers w !! k) as [[q t']|]; [|exact H].
    cbn [setTimeout clearTimeout with_timers timers snd].
    apply lookup_app_l_Some. by apply lookup_cleared.
  - destruct (handlers w !! k) as [[q t']|]; [|exact H].
    rewrite settle_timers. cbn [clearTimeout with_timers timers].
    by apply lookup_cleared.
  - exact H.
Qed.

Lemma run_cleared (es : list event) :
  forall (w : page) (t : nat),
    timers w !! t = Some None -> timers (run w es) !! t = Some None.
Proof.
  induction es as [|e es IH]; intros w t H; [exact H|].
  apply IH. by apply step_cleared.
Qed.

(** X11.  Once the load event of an appended script has fired, its 30 s
    timeout is cleared for good: whatever happens next, the timeout's
    callback does not run, so the promise can no longer be rejected with
    the load-timeout error by it. *)
Theorem load_event_disarms_timeout (w : page) (k p t : nat) (es : list event) :
  handlers w !! k = Some (p, t) -> (t < length (timers w))%nat ->
  timers (run (step w (ScriptLoad k)) es) !! t = Some None
  /\ step (run (step w (ScriptLoad k)) es) (FireTimer t) = run (step w (ScriptLoad k)) es.
Proof.
  intros Hk Ht.
  assert (timers (run (step w (ScriptLoad k)) es) !! t = Some None) as H.
  { apply run_cleared. cbn [step]. rewrite Hk.
    cbn [setTimeout clearTimeout with_timers timers snd].
    apply lookup_app_l_Some. by rewrite list_lookup_insert_eq. }
  split; [exact H|].
  generalize dependent (run (step w (ScriptLoad k)) es). intros w' H.
  cbn [step]. by rewrite H.
Qed.

Lemma load_event_disarms_timeout_fresh :
  let w := (load newRelayerSDKLoader fresh_page).2 in
  timers (run (step w (ScriptLoad 0)) [SetSDK (Some VNull)]) !! 0%nat = Some None
  /\ step (run (step w (ScriptLoad 0)) [SetSDK (Some VNull)]) (FireTimer 0)
     = run (step w (ScriptLoad 0)) [SetSDK (Some VNull)].
Proof.
  intros w.
  apply (load_event_disarms_timeout w 0 0 0 [SetSDK (Some VNull)]);
    [reflexivity|simpl; lia].
Defined.

End LoaderLifecycle.

(** ** The lifecycle hook: what the caller can see, and cancelling *)

Section HookLifecycle.
Import Hook HookStates.
Context {Provider : Type} `{EqDecision Provider} {FhevmInstance : Type}.

#[local] Abbreviation state := (@Hook.state Provider FhevmInstance).
#[local] Abbreviation event := (@Hook.event Provider FhevmInstance).
#[local] Abbreviation attempt := (@Hook.attempt Provider).

Lemma coherent_idle (s : state) : coherent (set_result s None None idle).
Proof. by split. Qed.

Lemma coherent_step (s : state) (e : event) : coherent s -> coherent (step s e).
Proof.
  intros Hs. destruct e as [provider chainId|enabled| |k i|k e|]; cbn [step].
  - unfold refresh. destruct provider; apply coherent_idle.
  - exact Hs.
  - unfold mainEffect. destruct (negb (_isRunning s)); [apply coherent_idle|].
    destruct (_providerRef s); [|apply coherent_idle].
    destruct (_abortControllerRef s) as [c|].
    + destruct (aborted s c); [exact Hs|]. reflexivity.
    + match goal with |- context [aborted ?s' ?c] => destruct (aborted s' c) end;
        [exact Hs|reflexivity].
  - destruct (started s !! k) as [a|]; [|exact Hs].
    unfold onResolved. destruct (may_set s a); [|exact Hs]. by split; [eexists|].
  - destruct (started s !! k) as [a|]; [|exact Hs].
    unfold onRejected. destruct (may_set s a); [|exact Hs]. by split; [|eexists].
  - unfold unmount. destruct (_abortControllerRef s); exact Hs.
Qed.

(** X12.  What the hook returns is coherent in every state it can reach,
    whatever the order of renders, settlements and the unmount: [ready]
    comes with an instance and no error, [error] with an error and no
    instance, [idle] with neither, and [loading] with no error. *)
Theorem status_matches_payload (provider : option Provider) (chainId : option Z)
    (enabled : bool) (es : list event) :
  match observable (run (mount provider chainId enabled) es) with
  | (i, e, idle) => i = None /\ e = None
  | (i, e, loading) => e = None
  | (i, e, ready) => is_Some i /\ e = None
  | (i, e, error_state) => i = None /\ is_Some e
  end.
Proof.
  assert (forall s : state, coherent s -> coherent (run s es)) as Hrun.
  { induction es as [|e es IH]; intros s Hs; [exact Hs|].
    apply IH. by apply coherent_step. }
  specialize (Hrun (mount provider chainId enabled) (conj eq_refl eq_refl)).
  unfold coherent in Hrun. unfold observable.
  destruct (status _); exact Hrun.
Qed.

Lemma run_app (s : state) (es1 es2 : list event) :
  run s (es1 ++ es2) = run (run s es1) es2.
Proof. unfold run. apply foldl_app. Qed.

(** After the main effect has run with the hook disabled, every attempt
    made so far is aborted. *)
Lemma disabled_all_aborted (s : state) :
  invariant s -> _isRunning s = false ->
  started (mainEffect s) = started s
  /\ observable (mainEffect s) = (None, None, idle)
  /\ forall a : attempt, a ∈ started s -> aborted (mainEffect s) (thisSignal a) = true.
Proof.
  intros Hinv Hr. unfold mainEffect. rewrite Hr. cbn [negb].
  destruct (_abortControllerRef s) as [c|] eqn:Hc.
  - repeat split. intros a Ha.
    change (aborted (abort s c) (thisSignal a) = true).
    by apply abort_current_all_aborted.
  - repeat split. intros a Ha.
    change (aborted s (thisSignal a) = true). by apply no_ref_all_aborted.
Qed.

(** X13.  Disabling the hook cancels what is in flight: when the main
    effect runs with [enabled] false, the hook shows [idle] with no
    instance and no error, and every attempt started before is aborted, so
    that neither its success nor its failure changes the state, then or
    after any later events. *)
Theorem disabling_discards_attempts (provider0 : option Provider) (chainId0 : option Z)
    (enabled : bool) (es1 es2 : list event) (k : nat) (a : attempt) :
  started (run (mount provider0 chainId0 enabled) es1) !! k = Some a ->
  let s1 : state :=
    run (mount provider0 chainId0 enabled) (es1 ++ [SetIsRunning false; MainEffect]) in
  observable s1 = (None, None, idle)
  /\ aborted (run s1 es2) (thisSignal a) = true
  /\ (forall newInstance, step (run s1 es2) (Resolved k newInstance) = run s1 es2)
  /\ (forall e, step (run s1 es2) (Rejected k e) = run s1 es2).
Proof.
  intros Hk s1.
  set (s0 := run (mount provider0 chainId0 enabled) es1) in *.
  assert (invariant (setIsRunning false s0)) as Hinv.
  { apply (invariant_step s0 (SetIsRunning false)).
    apply invariant_run, invariant_mount. }
  destruct (disabled_all_aborted _ Hinv eq_refl) as (Hst & Hobs & Hall).
  assert (s1 = mainEffect (setIsRunning false s0)) as Hs1
    by (subst s1 s0; rewrite run_app; reflexivity).
  rewrite Hs1. split; [exact Hobs|].
  assert (started (mainEffect (setIsRunning false s0)) !! k = Some a) as Hk'
    by (rewrite Hst; exact Hk).
  assert (aborted (mainEffect (setIsRunning false s0)) (thisSignal a) = true) as Hab
    by (apply Hall; eapply list_elem_of_lookup_2; exact Hk).
  destruct (stale_run es2 _ k a Hk' Hab) as [Hk2 Hab2].
  split; [exact Hab2|]. exact (aborted_attempt_discarded _ k a Hk2 Hab2).
Qed.

(** X14.  Unmounting cancels what is in flight and shows nothing new: the
    cleanup leaves [instance], [error] and [status] as they are, and every
    attempt started before is aborted, so that its callbacks, run after
    the unmount, do not set the state of the unmounted hook. *)
Theorem unmount_discards_attempts (provider0 : option Provider) (chainId0 : option Z)
    (enabled : bool) (es1 es2 : list event) (k : nat) (a : attempt) :
  started (run (mount provider0 chainId0 enabled) es1) !! k = Some a ->
  let s0 : state := run (mount provider0 chainId0 enabled) es1 in
  let s1 : state := run (mount provider0 chainId0 enabled) (es1 ++ [Unmount]) in
  observable s1 = observable s0
  /\ aborted (run s1 es2) (thisSignal a) = true
  /\ (forall newInstance, step (run s1 es2) (Resolved k newInstance) = run s1 es2)
  /\ (forall e, step (run s1 es2) (Rejected k e) = run s1 es2).
Proof.
  intros Hk s0 s1.
  assert (invariant s0) as Hinv by apply invariant_run, invariant_mount.
  assert (s1 = unmount s0) as Hs1 by (subst s1 s0; rewrite run_app; reflexivity).
  assert (started (unmount s0) = started s0 /\ observable (unmount s0) = observable s0
          /\ aborted (unmount s0) (thisSignal a) = true) as (Hst & Hobs & Hab).
  { unfold unmount. destruct (_abortControllerRef s0) as [c|] eqn:Hc.
    - repeat split. apply (abort_current_all_aborted s0 c Hinv Hc a).
      eapply list_elem_of_lookup_2; exact Hk.
    - repeat split. apply (no_ref_all_aborted s0 Hinv Hc a).
      eapply list_elem_of_lookup_2; exact Hk. }
  rewrite Hs1. split; [exact Hobs|].
  assert (started (unmount s0) !! k = Some a) as Hk' by (rewrite Hst; exact Hk).
  destruct (stale_run es2 _ k a Hk' Hab) as [Hk2 Hab2].
  split; [exact Hab2|]. exact (aborted_attempt_discarded _ k a Hk2 Hab2).
Qed.

(** X15.  Without a provider nothing is started: as long as no render
    passes one, the hook stays [idle] with no instance and no error,
    makes no [AbortController] and never calls [createFhevmInstance],
    enabled or not. *)
Theorem no_provider_no_attempt (chainId0 : option Z) (enabled : bool) (es : list event) :
  Forall without_provider es ->
  let s : state := run (mount None chainId0 enabled) es in
  observable s = (None, None, idle) /\ started s = [] /\ controllers s = [].
Proof.
  intros Hes s.
  assert (forall s : state,
            (_providerRef s = None /\ _abortControllerRef s = None
             /\ observable s = (None, None, idle) /\ started s = [] /\ controllers s = [])
            -> _providerRef (run s es) = None /\ _abortControllerRef (run s es) = None
               /\ observable (run s es) = (None, None, idle)
               /\ started (run s es) = [] /\ controllers (run s es) = []) as Hrun.
  { clear s. induction Hes as [|e es He _ IH]; intros s Hs; [exact Hs|].
    apply IH. destruct Hs as (Hp & Hc & Hobs & Hst & Hcs).
    destruct e as [[provider|] chainId|en| |k i|k e|]; cbn [step]; try done.
    - unfold refresh. rewrite Hc. by repeat split.
    - unfold mainEffect. rewrite Hc, Hp. destruct (negb (_isRunning s)); by repeat split.
    - by rewrite Hst.
    - by rewrite Hst.
    - unfold unmount. by rewrite Hc. }
  apply Hrun. by repeat split.
Qed.

End HookLifecycle.

Section HookLifecycleExamples.
Import Hook HookStates.

(** The hook is switched off while its first attempt is in flight. *)
Lemma disabling_discards_attempts_in_flight :
  let s1 : Hook.state (Provider := nat) (FhevmInstance := nat) :=
    run (mount (Some 7%nat) (Some 31337) true)
        ([Refresh (Some 7%nat) (Some 31337); MainEffect]
         ++ [SetIsRunning false; MainEffect]) in
  observable s1 = (None, None, idle)
  /\ aborted (run s1 [SetIsRunning true]) 0 = true
  /\ (forall newInstance,
        step (run s1 [SetIsRunning true]) (Resolved 0 newInstance)
        = run s1 [SetIsRunning true])
  /\ (forall e, step (run s1 [SetIsRunning true]) (Rejected 0 e)
                = run s1 [SetIsRunning true]).
Proof.
  exact (disabling_discards_attempts (Some 7%nat) (Some 31337) true
           [Refresh (Some 7%nat) (Some 31337); MainEffect] [SetIsRunning true]
           0%nat {| thisSignal := 0; thisProvider := 7%nat |} eq_refl).
Defined.

(** The component goes away while its first attempt is in flight. *)
Lemma unmount_discards_attempts_in_flight :
  let s0 : Hook.state (Provider := nat) (FhevmInstance := nat) :=
    run (mount (Some 7%nat) (Some 31337) true)
        [Refresh (Some 7%nat) (Some 31337); MainEffect] in
  let s1 : Hook.state (Provider := nat) (FhevmInstance := nat) :=
    run (mount (Some 7%nat) (Some 31337) true)
        ([Refresh (Some 7%nat) (Some 31337); MainEffect] ++ [Unmount]) in
  observable s1 = observable s0
  /\ aborted (run s1 []) 0 = true
  /\ (forall newInstance, step (run s1 []) (Resolved 0 newInstance) = run s1 [])
  /\ (forall e, step (run s1 []) (Rejected 0 e) = run s1 []).
Proof.
  exact (unmount_discards_attempts (Some 7%nat) (Some 31337) true
           [Refresh (Some 7%nat) (Some 31337); MainEffect] []
           0%nat {| thisSignal := 0; thisProvider := 7%nat |} eq_refl).
Defined.

(** A page with no wallet: the effects run, nothing starts. *)
Lemma no_provider_no_attempt_no_wallet :
  let s : Hook.state (Provider := nat) (FhevmInstance := nat) :=
    run (mount None None true) [Refresh None None; SetIsRunning true; MainEffect] in
  observable s = (None, None, idle) /\ started s = [] /\ controllers s = [].
Proof.
  apply (no_provider_no_attempt (Provider := nat) (FhevmInstance := nat) None true
           [Refresh None None; SetIsRunning true; MainEffect]).
  repeat constructor.
Defined.

End HookLifecycleExamples.

(** ** Instance creation: the chain id, the mock branch, the SDK branch *)

Section InstanceCreation.
Import Validation Instance Providers.

Lemma bind_Return_inv {A B} (m : outcome A) (k : A -> outcome B) (b : B) :
  bind m k = Return b -> exists a, m = Return a /\ k a = Return b.
Proof. destruct m as [a|e]; [|discriminate]. intros H. by exists a. Qed.

Lemma throwIfAborted_Return (signal : AbortSignal) (k : nat) (u : unit) :
  throwIfAborted signal k = Return u -> signal k = false.
Proof. unfold throwIfAborted. by destruct (signal k). Qed.

(** [parseInt] reads a run of digits to its end. *)
Lemma read_digits_all (base : N) (s : jsstring) :
  forall (acc : N) (seen : bool),
    Forall (fun c => exists d, digit_value c = Some d /\ (d <? base)%N = true) s ->
    read_digits base acc seen s
    = (fold_left (fun acc c => (acc * base + default 0 (digit_value c))%N) s acc,
       seen || bool_decide (s <> [])).
Proof.
  induction s as [|c s IH]; intros acc seen Hs; simpl.
  - by rewrite orb_false_r.
  - apply Forall_cons in Hs as [(d & Hd & Hlt) Hs].
    rewrite Hd, Hlt, (IH _ _ Hs). simpl. by rewrite orb_true_r.
Qed.

Lemma to_digits_digits (base : N) (fuel : nat) :
  (1 < base <= 36)%N ->
  forall n : N,
    Forall (fun c => exists d, digit_value c = Some d /\ (d <? base)%N = true)
      (to_digits base fuel n).
Proof.
  intros Hb. induction fuel as [|fuel IH]; intros n; simpl; [constructor|].
  destruct (N.ltb_spec n base) as [Hlt|Hge].
  - constructor; [|constructor]. exists n.
    split; [apply digit_value_digit_char; lia|]. by apply N.ltb_lt.
  - apply Forall_app. split; [apply IH|].
    constructor; [|constructor].
    assert (n mod base < base)%N by (apply N.mod_lt; lia).
    exists (n mod base)%N. split; [apply digit_value_digit_char; lia|]. by apply N.ltb_lt.
Qed.

(** [parseInt(s, 16)] gives back what [toString(16)] printed, with the
    ["0x"] of a JSON-RPC quantity in front. *)
Lemma parseInt16_quantity (n : Z) :
  0 <= n -> parseInt16 (str "0x" ++ toString16 n) = Num n.
Proof.
  intros Hn.
  assert (forall s, parseInt16 (str "0x" ++ s)
                    = match read_digits 16 0 false s with
                      | (m, true) => Num (Z.of_N m)
                      | (_, false) => NaN
                      end) as -> by reflexivity.
  unfold toString16, Z_to_string. destruct (Z.ltb_spec n 0) as [?|_]; [lia|].
  pose proof (read_digits_all 16 (N_to_string 16 (Z.to_N n)) 0 false) as Hr.
  fold (of_digits 16 (N_to_string 16 (Z.to_N n))) in Hr.
  rewrite Hr by (apply to_digits_digits; lia).
  rewrite bool_decide_true by apply to_digits_nonempty. cbn [orb].
  rewrite of_digits_N_to_string by lia. f_equal. lia.
Qed.

Lemma valid_provider_object (p : value) :
  isValidEip1193Provider p = VBoolean true
  <-> (exists props, p = VObject props)
      /\ typeof (get p (str "request")) = str "function".
Proof.
  unfold isValidEip1193Provider. split.
  - destruct p as [| |b|[z|]|s| |props]; cbn [truthy negb typeof]; try discriminate.
    + destruct b; discriminate.
    + destruct (negb (z =? 0)); cbn [negb]; [|discriminate].
      rewrite bool_decide_false by discriminate. discriminate.
    + case_bool_decide; cbn [negb]; [discriminate|].
      rewrite bool_decide_false by discriminate. discriminate.
    + rewrite bool_decide_true by reflexivity. cbn [negb].
      case_bool_decide; [|discriminate]. intros _. split; [by eexists|done].
  - intros [[props ->] Hr]. cbn [truthy negb typeof].
    rewrite bool_decide_true by reflexivity. cbn [negb].
    by rewrite bool_decide_true.
Qed.

(** X16.  [getChainId] decodes the wallet's answer: for a provider that
    [isValidEip1193Provider] accepts and a wallet that answers
    [eth_chainId] with the hexadecimal quantity of a chain id [n] (from
    zero to below [2^53], the integers a number holds exactly), the result
    is [n]. *)
Theorem getChainId_reads_quantity (w : world) (p : value) (n : Z) :
  isValidEip1193Provider p = VBoolean true ->
  0 <= n < 2 ^ 53 ->
  provider_request w p (str "eth_chainId") = Return (str "0x" ++ toString16 n) ->
  getChainId w p = Return (Num n).
Proof.
  intros Hp Hn Hreq. apply valid_provider_object in Hp as [[props ->] Hr].
  unfold getChainId. cbn [truthy negb typeof].
  rewrite bool_decide_true by reflexivity. cbn [negb].
  rewrite (bool_decide_true _ Hr). cbn [negb].
  rewrite Hreq, parseInt16_quantity by lia. reflexivity.
Qed.

Lemma getChainId_reads_quantity_sepolia :
  getChainId (node_world 11155111 (str "0xaa36a7") (VString []) (Throw FhevmAbortError))
    wallet
  = Return (Num 11155111).
Proof.
  apply (getChainId_reads_quantity _ wallet 11155111); [reflexivity|lia|reflexivity].
Defined.

(** X17.  For a provider that is not a URL, [getChainId] asks the wallet
    exactly when [isValidEip1193Provider] accepts the provider.  Then a
    failure of the wallet comes out as a plain [Error], whatever was
    thrown: its message is ["Failed to get chainId: "] followed by the
    message of the error the wallet threw, or by ["Unknown error"] when
    what it threw is not an instance of [Error].  Otherwise [getChainId]
    fails with an [Error] of its own, and makes no request (the outcome is
    the same in every world). *)
Theorem getChainId_guard (w : world) (p : value) :
  (forall u, p <> VString u) ->
  match isValidEip1193Provider p with
  | VBoolean true =>
      getChainId w p
      = match provider_request w p (str "eth_chainId") with
        | Return chainId => Return (parseInt16 chainId)
        | Throw NonError => Throw (Error (str "Failed to get chainId: Unknown error"))
        | Throw e => Throw (Error (str "Failed to get chainId: " ++ message e))
        end
  | _ =>
      (exists msg, getChainId w p = Throw (Error msg))
      /\ forall w', getChainId w' p = getChainId w p
  end.
Proof.
  intros Hs. unfold isValidEip1193Provider, getChainId.
  destruct p as [| |b|[z|]|s| |props]; cbn [truthy negb typeof];
    try (by split; [eexists|]).
  - destruct b; by split; [eexists|].
  - destruct (negb (z =? 0)); cbn [negb]; [|by split; [eexists|]].
    rewrite !bool_decide_false by discriminate. cbn [negb]. by split; [eexists|].
  - by destruct (Hs s).
  - rewrite !bool_decide_true by reflexivity. cbn [negb].
    case_bool_decide; cbn [negb]; [|by split; [eexists|]].
    destruct (provider_request w (VObject props) (str "eth_chainId")) as [c|[]];
      reflexivity.
Qed.

Lemma getChainId_guard_wallet :
  getChainId Worlds.rejecting_wallet_world wallet
  = Throw (Error (str "Failed to get chainId: Unknown error")).
Proof.
  pose proof (getChainId_guard Worlds.rejecting_wallet_world wallet) as H.
  cbv beta iota in H. rewrite H; [reflexivity|discriminate].
Defined.

(** Reading a property after a write. *)
Lemma lookup_assign_eq (props : list (jsstring * value)) (name : jsstring) (v : value) :
  lookup_prop (assign_prop props name v) name = Some v.
Proof.
  induction props as [|[k x] props IH]; simpl.
  - by rewrite bool_decide_true.
  - case_bool_decide as Hk; simpl; [by rewrite bool_decide_true|].
    by rewrite bool_decide_false.
Qed.

Lemma lookup_assign_ne (props : list (jsstring * value)) (name other : jsstring)
    (v : value) :
  name <> other ->
  lookup_prop (assign_prop props name v) other = lookup_prop props other.
Proof.
  intros Hne. induction props as [|[k x] props IH]; simpl.
  - by rewrite bool_decide_false.
  - case_bool_decide as Hk; simpl.
    + subst k. by rewrite !bool_decide_false.
    + case_bool_decide; [reflexivity|exact IH].
Qed.

Lemma get_set_eq (props : list (jsstring * value)) (name : jsstring) (v : value) :
  get (set (VObject props) name v) name = v.
Proof. simpl. by rewrite lookup_assign_eq. Qed.

Lemma get_set_ne (o : value) (name other : jsstring) (v : value) :
  name <> other -> get (set o name v) other = get o other.
Proof.
  intros Hne. destruct o; try reflexivity. simpl. by rewrite lookup_assign_ne.
Qed.

Lemma names_assign (props : list (jsstring * value)) (name other : jsstring) (v : value) :
  other ∈ map fst props -> other ∈ map fst (assign_prop props name v).
Proof.
  induction props as [|[k x] props IH]; simpl; [by intros ?%elem_of_nil|].
  case_bool_decide; simpl; [done|].
  intros [->|Hin]%elem_of_cons; [apply list_elem_of_here|].
  apply list_elem_of_further. by apply IH.
Qed.

(** The real SDK's branch gives an SDK instance, made by [createInstance]
    from the Sepolia configuration, the caller's provider and no keys. *)
Lemma createSepoliaInstance_Return (w : world) (p : value) (signal : AbortSignal)
    (i : FhevmInstance) :
  createSepoliaInstance w p signal = Return i ->
  exists (relayerSDK config instance : value),
    i = SdkInstance instance
    /\ signal 2%nat = false /\ signal 5%nat = false /\ signal 6%nat = false
    /\ isValidAddress (get (get relayerSDK (str "SepoliaConfig")) (str "aclContractAddress"))
       = true
    /\ typeof (get relayerSDK (str "createInstance")) = str "function"
    /\ sdk_createInstance w config = Return instance
    /\ get config (str "network") = p
    /\ get config (str "publicKey") = VString []
    /\ get config (str "publicParams") = VString []
    /\ get config (str "aclContractAddress")
       = get (get relayerSDK (str "SepoliaConfig")) (str "aclContractAddress").
Proof.
  unfold createSepoliaInstance. intros H.
  apply bind_Return_inv in H as (u2 & H2%throwIfAborted_Return & H).
  apply bind_Return_inv in H as (sdk & _ & H).
  apply bind_Return_inv in H as (relayerSDK & _ & H).
  apply bind_Return_inv in H as (aclAddress & Hacl & H).
  destruct (isValidAddress aclAddress) eqn:Hvalid; cbn [negb] in H; [|discriminate].
  apply bind_Return_inv in H as (u5 & H5%throwIfAborted_Return & H).
  apply bind_Return_inv in H as (instance & Hcall & H).
  apply bind_Return_inv in H as (u6 & H6%throwIfAborted_Return & H).
  injection H as <-.
  assert (exists props, get relayerSDK (str "SepoliaConfig") = VObject props
                        /\ aclAddress = get (VObject props) (str "aclContractAddress"))
    as (props & Hcfg & ->).
  { unfold member in Hacl.
    destruct (get relayerSDK (str "SepoliaConfig")) as [| | | | | |props]; try discriminate;
      injection Hacl as <-; try discriminate Hvalid.
    by exists props. }
  rewrite Hcfg in *.
  unfold call_method in Hcall. case_bool_decide as Hfn; [|discriminate].
  eexists relayerSDK, _, instance. rewrite Hcfg.
  split; [reflexivity|]. do 3 (split; [assumption|]).
  split; [exact Hvalid|]. split; [exact Hfn|]. split; [exact Hcall|].
  split; [|split; [|split]].
  - rewrite !get_set_ne by discriminate. apply get_set_eq.
  - rewrite get_set_ne by discriminate.
    change (set (set (VObject props) (str "network") p) (str "publicKey") (VString []))
      with (VObject (assign_prop (assign_prop props (str "network") p)
                       (str "publicKey") (VString []))).
    apply get_set_eq.
  - change (set (set (VObject props) (str "network") p) (str "publicKey") (VString []))
      with (VObject (assign_prop (assign_prop props (str "network") p)
                       (str "publicKey") (VString []))).
    apply get_set_eq.
  - by rewrite !get_set_ne by discriminate.
Qed.

(** What the mock branch of [createFhevmInstance] comes to. *)
Lemma createMockInstance_Return (w : world) (url : jsstring) (c : number)
    (signal : AbortSignal) (i : FhevmInstance) :
  createMockInstance w url c signal = Return (Some i)
  <-> exists metadata,
        tryFetchFHEVMHardhatNodeRelayerMetadata w url = Return (Some metadata)
        /\ import_fhevmMock w = Return tt
        /\ signal 1%nat = false
        /\ i = MockInstance (Mock.newMockFhevmInstance c url metadata).
Proof.
  unfold createMockInstance, Mock.createFhevmMockInstance. split.
  - intros H. apply bind_Return_inv in H as ([metadata|] & Hprobe & H); [|discriminate].
    apply bind_Return_inv in H as ([] & Himport & H). cbn [bind] in H.
    apply bind_Return_inv in H as (u & H1%throwIfAborted_Return & H).
    injection H as <-. by exists metadata.
  - intros (metadata & -> & -> & H1 & ->). cbn [bind].
    unfold throwIfAborted. rewrite H1. reflexivity.
Qed.

(** A mock instance can only come out of the mock branch. *)
Lemma mock_instance_inv (w : world) (p : value)
    (mockChains : option (gmap Z jsstring)) (signal : AbortSignal)
    (m : Mock.MockFhevmInstance) :
  createFhevmInstance w p mockChains signal = Return (MockInstance m) ->
  exists r url metadata,
    resolve w p mockChains = Return r
    /\ signal 0%nat = false
    /\ isMock r = true /\ rpcUrl r = Some url /\ url <> []
    /\ tryFetchFHEVMHardhatNodeRelayerMetadata w url = Return (Some metadata)
    /\ import_fhevmMock w = Return tt
    /\ signal 1%nat = false
    /\ m = Mock.newMockFhevmInstance (chainId r) url metadata.
Proof.
  unfold createFhevmInstance. intros H.
  apply bind_Return_inv in H as (r & Hr & H).
  apply bind_Return_inv in H as (u & H0%throwIfAborted_Return & H).
  assert (forall i, createSepoliaInstance w p signal = Return i -> i <> MockInstance m)
    as Hsdk.
  { intros i Hi. apply createSepoliaInstance_Return in Hi as (? & ? & ? & -> & _).
    discriminate. }
  assert (forall mock : option FhevmInstance,
            match mock with
            | Some mockInstance => Return mockInstance
            | None =>
                if bool_decide (chainId r = Num SEPOLIA_chainId)
                then createSepoliaInstance w p signal
                else Throw (unsupported_network (chainId r))
            end = Return (MockInstance m) -> mock = Some (MockInstance m)) as Hfinal.
  { intros [i|] Hi; [by injection Hi as ->|].
    destruct (bool_decide (chainId r = Num SEPOLIA_chainId));
      [by apply Hsdk in Hi|discriminate]. }
  apply Hfinal in H. clear Hfinal Hsdk.
  destruct (rpcUrl r) as [url|] eqn:Hurl; [|discriminate].
  destruct (isMock r) eqn:Hm; cbn [andb] in H; [|discriminate].
  unfold no_url in H.
  destruct (bool_decide (url = [])) eqn:Hne; cbn [negb] in H; [discriminate|].
  apply bool_decide_eq_false in Hne.
  destruct (createMockInstance w url (chainId r) signal) as [[i|]|e] eqn:Hmock;
    try discriminate.
  injection H as ->.
  apply createMockInstance_Return in Hmock as (metadata & Hp & Hi & H1 & [= ->]).
  by exists r, url, metadata.
Qed.

(** X18.  When [createFhevmInstance] gives a mock instance: exactly when
    the chain is a mock chain with an RPC URL, the probe of that URL finds
    the relayer metadata, the mock module loads, and the signal is not
    aborted at the two checks on the way; the instance then carries the
    chain id, the URL and the metadata.  The real SDK's branch never
    gives one. *)
Theorem createFhevmInstance_mock_iff (w : world) (p : value)
    (mockChains : option (gmap Z jsstring)) (signal : AbortSignal)
    (m : Mock.MockFhevmInstance) :
  createFhevmInstance w p mockChains signal = Return (MockInstance m)
  <-> exists r url metadata,
        resolve w p mockChains = Return r
        /\ signal 0%nat = false
        /\ isMock r = true /\ rpcUrl r = Some url /\ url <> []
        /\ tryFetchFHEVMHardhatNodeRelayerMetadata w url = Return (Some metadata)
        /\ import_fhevmMock w = Return tt
        /\ signal 1%nat = false
        /\ m = Mock.newMockFhevmInstance (chainId r) url metadata.
Proof.
  split; [apply mock_instance_inv|].
  intros (r & url & metadata & Hr & H0 & Hm & Hurl & Hne & Hp & Hi & H1 & ->).
  by apply (createFhevmInstance_mock w p mockChains signal r url metadata).
Qed.

(** X19.  An abort noticed right after the mock instance is made is
    swallowed: the check sits inside the [try] around the mock branch, so
    its [FhevmAbortError] is caught there and the function goes on to the
    other networks.  On a mock chain other than Sepolia the promise is
    then rejected with the unsupported-network error for that chain, not
    with the abort error. *)
Theorem mock_abort_is_swallowed (w : world) (p : value)
    (mockChains : option (gmap Z jsstring)) (signal : AbortSignal) (r : ResolveResult)
    (url : jsstring) (metadata : value) :
  resolve w p mockChains = Return r ->
  isMock r = true -> rpcUrl r = Some url -> url <> [] ->
  tryFetchFHEVMHardhatNodeRelayerMetadata w url = Return (Some metadata) ->
  signal 0%nat = false -> signal 1%nat = true ->
  chainId r <> Num SEPOLIA_chainId ->
  createFhevmInstance w p mockChains signal = Throw (unsupported_network (chainId r)).
Proof.
  intros Hr Hm Hurl Hne Hp H0 H1 Hc. unfold createFhevmInstance.
  rewrite Hr. cbn [bind]. unfold throwIfAborted at 1. rewrite H0. cbn [bind].
  rewrite Hurl, Hm. cbn [andb]. unfold no_url.
  rewrite (bool_decide_false _ Hne). cbn [negb].
  assert (createMockInstance w url (chainId r) signal = Throw FhevmAbortError
          \/ exists e, createMockInstance w url (chainId r) signal = Throw e) as Hmock.
  { unfold createMockInstance. rewrite Hp. cbn [bind].
    destruct (import_fhevmMock w) as [[]|e]; cbn [bind]; [|by right; eexists].
    unfold throwIfAborted. rewrite H1. by left. }
  destruct Hmock as [->|[e ->]]; by rewrite (bool_decide_false _ Hc).
Qed.

Lemma mock_abort_is_swallowed_hardhat :
  createFhevmInstance hardhat_world wallet None (fun k => bool_decide (k = 1%nat))
  = Throw (unsupported_network (Num 31337)).
Proof.
  apply (mock_abort_is_swallowed hardhat_world wallet None
           (fun k => bool_decide (k = 1%nat))
           {| isMock := true; chainId := Num 31337;
              rpcUrl := Some (str "http://localhost:8545") |}
           (str "http://localhost:8545") Mock.hardhat_metadata);
    try reflexivity; discriminate.
Defined.

(** X20.  With the default mock table, or a caller's table that names no
    chain but 31337, an instance is only ever made for a supported chain:
    a mock instance on chain 31337, an SDK instance on Sepolia; these are
    the chains [isFhevmSupported] accepts. *)
Theorem created_on_supported_chain (w : world) (p : value)
    (mockChains : option (gmap Z jsstring)) (signal : AbortSignal) (i : FhevmInstance) :
  (forall z, z ∈ dom (default ∅ mockChains) -> z = 31337) ->
  createFhevmInstance w p mockChains signal = Return i ->
  exists r,
    resolve w p mockChains = Return r
    /\ isFhevmSupported (Some (chainId r)) = true
    /\ chainId r = match i with
                   | MockInstance _ => Num 31337
                   | SdkInstance _ => Num SEPOLIA_chainId
                   end.
Proof.
  intros Hdom H.
  assert (exists r, resolve w p mockChains = Return r) as [r Hr].
  { unfold createFhevmInstance in H. apply bind_Return_inv in H as (r & Hr & _).
    by exists r. }
  exists r. split; [exact Hr|].
  assert (chainId r = match i with
                      | MockInstance _ => Num 31337
                      | SdkInstance _ => Num SEPOLIA_chainId
                      end) as Hc.
  { destruct i as [m|v].
    - apply mock_instance_inv in H
        as (r' & url & metadata & Hr' & _ & Hm & _).
      rewrite Hr in Hr'. injection Hr' as <-.
      unfold resolve in Hr. apply bind_Return_inv in Hr as (c & _ & Hr).
      destruct (bool_decide (is_Some (table_lookup (merged_mockChains mockChains) c)))
        eqn:Ht; injection Hr as <-; [|discriminate Hm].
      cbn [chainId]. apply bool_decide_eq_true in Ht.
      destruct c as [z|]; [|by destruct Ht]. cbn [table_lookup] in Ht.
      apply elem_of_dom, merged_mockChains_dom in Ht as [->|Hz]; [reflexivity|].
      by rewrite (Hdom z Hz).
    - unfold createFhevmInstance in H. rewrite Hr in H. cbn [bind] in H.
      apply bind_Return_inv in H as (u & _ & H).
      match type of H with
      | match ?mock with _ => _ end = _ => destruct mock as [j|] eqn:Hmock
      end.
      + injection H as ->. exfalso.
        destruct (rpcUrl r) as [url|]; [|discriminate].
        destruct (isMock r && negb (no_url (Some url))); [|discriminate].
        destruct (createMockInstance w url (chainId r) signal) as [[j|]|e] eqn:Hj;
          try discriminate.
        injection Hmock as ->.
        apply createMockInstance_Return in Hj as (? & _ & _ & _ & [=]).
      + case_bool_decide as Hs; [exact Hs|discriminate]. }
  split; [|exact Hc]. rewrite Hc. by destruct i.
Qed.

Lemma created_on_supported_chain_hardhat :
  exists r,
    resolve hardhat_world wallet None = Return r
    /\ isFhevmSupported (Some (chainId r)) = true
    /\ chainId r = Num 31337.
Proof.
  apply (created_on_supported_chain hardhat_world wallet None (fun _ => false)
           (MockInstance (Mock.newMockFhevmInstance (Num 31337)
                            (str "http://localhost:8545") Mock.hardhat_metadata))).
  - intros z Hz. apply elem_of_dom in Hz as [u Hz]. discriminate Hz.
  - reflexivity.
Defined.

Lemma isValidFhevmWindow_window_of (sdk : option value) :
  isValidFhevmWindow (window_of sdk)
  = match sdk with
    | Some sdk => isValidRelayerSDK sdk
    | None => false
    end.
Proof.
  destruct sdk as [sdk|]; [|reflexivity].
  unfold window_of, isValidFhevmWindow.
  change (has (VObject [(str "relayerSDK", sdk)]) (str "relayerSDK")) with true.
  change (get (VObject [(str "relayerSDK", sdk)]) (str "relayerSDK")) with sdk.
  cbn [typeof negb]. rewrite bool_decide_true by reflexivity. reflexivity.
Qed.

(** X22.  What a successful [initFhevmSDK] leaves on the page: [initSDK]
    resolved to a truthy value, that value is stored as
    [__initialized__], and the SDK still passes the validator.
    [isFhevmInitialized] then answers [true] only if the value is [true]
    itself: after any other truthy value the next [createFhevmInstance]
    calls [initSDK] again. *)
Theorem initFhevmSDK_then_initialized (w : world) (sdk : option value) (sdk' : value) :
  initFhevmSDK w sdk = Return sdk' ->
  exists result,
    sdk_initSDK w = Return result /\ truthy result = true
    /\ get sdk' (str "__initialized__") = result
    /\ isValidFhevmWindow (window_of (Some sdk')) = true
    /\ isFhevmInitialized (Some sdk')
       = match result with VBoolean true => true | _ => false end.
Proof.
  unfold initFhevmSDK. rewrite isValidFhevmWindow_window_of.
  destruct sdk as [s|]; [|discriminate].
  destruct (isValidRelayerSDK s) eqn:Hv; cbn [negb]; [|discriminate].
  apply accepted_has_method in Hv as (props & -> & _).
  cbn [default from_option id]. intros H.
  apply bind_Return_inv in H as (result & Hcall & H).
  unfold call_method in Hcall. case_bool_decide as Hfn; [|discriminate].
  destruct (truthy result) eqn:Ht; cbn [negb] in H; [|discriminate].
  assert (sdk' = set (VObject props) (str "__initialized__") result) as Hs
    by (injection H as H; symmetry; exact H).
  clear H. exists result.
  assert (isValidRelayerSDK sdk' = true) as Hvalid.
  { rewrite Hs. apply (accepted_with_method _ (str "initSDK")).
    - apply names_assign. cbn [get] in Hfn.
      destruct (lookup_prop props (str "initSDK")) as [v|] eqn:E; [|discriminate Hfn].
      by eapply lookup_prop_name.
    - change (VObject (assign_prop props (str "__initialized__") result))
        with (set (VObject props) (str "__initialized__") result).
      by rewrite get_set_ne by discriminate. }
  assert (get sdk' (str "__initialized__") = result) as Hget
    by (rewrite Hs; apply get_set_eq).
  clear Hs.
  split; [exact Hcall|]. split; [exact Ht|]. split; [exact Hget|].
  split; [by rewrite isValidFhevmWindow_window_of|].
  unfold isFhevmInitialized. rewrite isValidFhevmWindow_window_of, Hvalid.
  cbn [negb default from_option id]. by rewrite Hget.
Qed.

Lemma initFhevmSDK_then_initialized_sepolia :
  exists result,
    sdk_initSDK Worlds.sepolia_world = Return result /\ truthy result = true
    /\ get (set Worlds.relayer_sdk (str "__initialized__") (VBoolean true))
         (str "__initialized__") = result
    /\ isValidFhevmWindow
         (window_of (Some (set Worlds.relayer_sdk (str "__initialized__") (VBoolean true))))
       = true
    /\ isFhevmInitialized
         (Some (set Worlds.relayer_sdk (str "__initialized__") (VBoolean true)))
       = match result with VBoolean true => true | _ => false end.
Proof.
  apply (initFhevmSDK_then_initialized Worlds.sepolia_world (Some Worlds.relayer_sdk)).
  vm_compute. reflexivity.
Defined.

(** X23.  What the validator lets through fails later: an object that
    [isValidRelayerSDK] accepts without a callable [initSDK] (any other
    callable member is enough for it) and that is not marked initialised
    makes [initFhevmSDK] end in a [TypeError], not in its own "not
    available" error; and [createFhevmInstance]'s SDK branch on a page
    that holds such an object ends the same way. *)
Theorem unusable_sdk_fails_late (w : world) (p : value) (signal : AbortSignal)
    (sdk : value) :
  isValidRelayerSDK sdk = true ->
  typeof (get sdk (str "initSDK")) <> str "function" ->
  get sdk (str "__initialized__") <> VBoolean true ->
  (exists msg, initFhevmSDK w (Some sdk) = Throw (TypeError msg))
  /\ (window_relayerSDK w = Some sdk -> signal 2%nat = false ->
      exists msg, createSepoliaInstance w p signal = Throw (TypeError msg)).
Proof.
  intros Hv Hfn Hinit.
  assert (exists msg, initFhevmSDK w (Some sdk) = Throw (TypeError msg)) as [msg Hthrow].
  { unfold initFhevmSDK. rewrite isValidFhevmWindow_window_of, Hv. cbn [negb].
    cbn [default from_option id]. unfold call_method.
    rewrite (bool_decide_false _ Hfn). by eexists. }
  split; [by exists msg|].
  intros Hw H2. exists msg. unfold createSepoliaInstance.
  unfold throwIfAborted at 1. rewrite H2. cbn [bind].
  rewrite Hw, isValidFhevmWindow_window_of, Hv. cbn [negb bind].
  assert (isFhevmInitialized (Some sdk) = false) as ->.
  { unfold isFhevmInitialized. rewrite isValidFhevmWindow_window_of, Hv.
    cbn [negb default from_option id].
    destruct (get sdk (str "__initialized__")) as [| |[]| | | |]; done. }
  cbn [negb]. by rewrite Hthrow.
Qed.

Lemma unusable_sdk_fails_late_stub :
  (exists msg, initFhevmSDK geth_world (Some Worlds.stub_sdk) = Throw (TypeError msg))
  /\ (window_relayerSDK geth_world = Some Worlds.stub_sdk ->
      Worlds.never_aborted 2%nat = false ->
      exists msg,
        createSepoliaInstance geth_world wallet Worlds.never_aborted = Throw (TypeError msg)).
Proof.
  apply (unusable_sdk_fails_late geth_world wallet Worlds.never_aborted Worlds.stub_sdk);
    [reflexivity|discriminate|discriminate].
Defined.

(** What a successful [initFhevmSDK] did: it found an object, and wrote
    its [__initialized__]. *)
Lemma initFhevmSDK_Return_inv (w : world) (sdk : option value) (sdk' : value) :
  initFhevmSDK w sdk = Return sdk' ->
  exists props result,
    sdk = Some (VObject props)
    /\ isValidRelayerSDK (VObject props) = true
    /\ sdk' = set (VObject props) (str "__initialized__") result.
Proof.
  unfold initFhevmSDK. rewrite isValidFhevmWindow_window_of.
  destruct sdk as [s|]; [|discriminate].
  destruct (isValidRelayerSDK s) eqn:Hv; cbn [negb]; [|discriminate].
  pose proof Hv as Hv'. apply accepted_has_method in Hv' as (props & -> & _).
  cbn [default from_option id]. intros H.
  apply bind_Return_inv in H as (result & _ & H).
  destruct (truthy result); cbn [negb] in H; [|discriminate].
  exists props, result. split; [reflexivity|]. split; [exact Hv|].
  injection H as H. symmetry. exact H.
Qed.

(** The SDK that the real SDK's branch works on is the page's: the one in
    [window.relayerSDK] if the window is valid, the one the loader brings
    if not; initialising it changes its [__initialized__] only. *)
Lemma createSepoliaInstance_page (w : world) (p : value) (signal : AbortSignal)
    (i : FhevmInstance) :
  createSepoliaInstance w p signal = Return i ->
  exists (sdk config instance : value),
    i = SdkInstance instance
    /\ signal 2%nat = false /\ signal 5%nat = false /\ signal 6%nat = false
    /\ (if isValidFhevmWindow (window_of (window_relayerSDK w))
        then window_relayerSDK w = Some sdk
        else sdk_load w = Return (Some sdk) /\ signal 3%nat = false)
    /\ isValidRelayerSDK sdk = true
    /\ typeof (get sdk (str "createInstance")) = str "function"
    /\ isValidAddress (get (get sdk (str "SepoliaConfig")) (str "aclContractAddress"))
       = true
    /\ sdk_createInstance w config = Return instance
    /\ get config (str "network") = p
    /\ get config (str "publicKey") = VString []
    /\ get config (str "publicParams") = VString []
    /\ forall name,
         name <> str "network" -> name <> str "publicKey" -> name <> str "publicParams" ->
         get config name = get (get sdk (str "SepoliaConfig")) name.
Proof.
  unfold createSepoliaInstance. intros H.
  apply bind_Return_inv in H as (u2 & H2%throwIfAborted_Return & H).
  apply bind_Return_inv in H as (sdkopt & Hpage & H).
  apply bind_Return_inv in H as (relayerSDK & Hinit & H).
  assert (exists sdk,
            sdkopt = Some sdk /\ isValidRelayerSDK sdk = true
            /\ forall name, name <> str "__initialized__" ->
                            get relayerSDK name = get sdk name)
    as (sdk & -> & Hvalid & Hsame).
  { destruct (isFhevmInitialized sdkopt) eqn:Hi; cbn [negb] in Hinit.
    - injection Hinit as <-. unfold isFhevmInitialized in Hi.
      rewrite isValidFhevmWindow_window_of in Hi.
      destruct sdkopt as [sdk|]; [|discriminate].
      destruct (isValidRelayerSDK sdk) eqn:Hv; [|discriminate].
      by exists sdk.
    - apply bind_Return_inv in Hinit as (sdk' & Hinit & Hret).
      apply bind_Return_inv in Hret as (u4 & _ & [= <-]).
      apply initFhevmSDK_Return_inv in Hinit as (props & result & -> & Hv & ->).
      exists (VObject props). split; [reflexivity|]. split; [exact Hv|].
      intros name Hne. apply get_set_ne. congruence. }
  assert (if isValidFhevmWindow (window_of (window_relayerSDK w))
          then window_relayerSDK w = Some sdk
          else sdk_load w = Return (Some sdk) /\ signal 3%nat = false) as Hfrom.
  { destruct (isValidFhevmWindow (window_of (window_relayerSDK w))); cbn [negb] in Hpage.
    - by injection Hpage.
    - apply bind_Return_inv in Hpage as (loaded & Hload & Hret).
      apply bind_Return_inv in Hret as (u3 & H3%throwIfAborted_Return & [= ->]).
      by split. }
  clear Hpage Hinit.
  rewrite !Hsame in H by discriminate.
  apply bind_Return_inv in H as (aclAddress & Hacl & H).
  destruct (isValidAddress aclAddress) eqn:Haddr; cbn [negb] in H; [|discriminate].
  apply bind_Return_inv in H as (u5 & H5%throwIfAborted_Return & H).
  apply bind_Return_inv in H as (instance & Hcall & H).
  apply bind_Return_inv in H as (u6 & H6%throwIfAborted_Return & H).
  injection H as <-.
  assert (exists props, get sdk (str "SepoliaConfig") = VObject props
                        /\ aclAddress = get (VObject props) (str "aclContractAddress"))
    as (props & Hcfg & ->).
  { unfold member in Hacl.
    destruct (get sdk (str "SepoliaConfig")) as [| | | | | |props]; try discriminate;
      injection Hacl as <-; try discriminate Haddr.
    by exists props. }
  rewrite Hcfg in *.
  unfold call_method in Hcall. case_bool_decide as Hfn; [|discriminate].
  rewrite Hsame in Hfn by discriminate.
  eexists sdk, _, instance. rewrite Hcfg.
  split; [reflexivity|]. do 3 (split; [assumption|]).
  split; [exact Hfrom|]. split; [exact Hvalid|]. split; [exact Hfn|].
  split; [exact Haddr|]. split; [exact Hcall|].
  split; [|split; [|split]].
  - rewrite !get_set_ne by discriminate. apply get_set_eq.
  - rewrite get_set_ne by discriminate.
    change (set (set (VObject props) (str "network") p) (str "publicKey") (VString []))
      with (VObject (assign_prop (assign_prop props (str "network") p)
                       (str "publicKey") (VString []))).
    apply get_set_eq.
  - change (set (set (VObject props) (str "network") p) (str "publicKey") (VString []))
      with (VObject (assign_prop (assign_prop props (str "network") p)
                       (str "publicKey") (VString []))).
    apply get_set_eq.
  - intros name Hn Hk Hpp. rewrite !get_set_ne by congruence. reflexivity.
Qed.

(** X21.  An SDK instance comes from Sepolia only, and from the page's
    own SDK: the chain id is Sepolia's; the signal was not aborted at the
    first check nor at the three checks of the SDK branch that every path
    passes; the SDK is the one in [window.relayerSDK] when the window is
    valid, and otherwise the one the loader brought (the signal not
    aborted after the load); it passes the validator, its
    [createInstance] is a function and the [aclContractAddress] of its
    [SepoliaConfig] is a valid address; and [createInstance] was given
    that [SepoliaConfig], every member as it is, except for [network],
    which is the caller's provider, and [publicKey] and [publicParams],
    which are empty. *)
Theorem sdk_instance_from_sepolia_config (w : world) (p : value)
    (mockChains : option (gmap Z jsstring)) (signal : AbortSignal) (instance : value) :
  createFhevmInstance w p mockChains signal = Return (SdkInstance instance) ->
  exists (r : ResolveResult) (sdk config : value),
    resolve w p mockChains = Return r
    /\ chainId r = Num SEPOLIA_chainId
    /\ signal 0%nat = false /\ signal 2%nat = false
    /\ signal 5%nat = false /\ signal 6%nat = false
    /\ (if isValidFhevmWindow (window_of (window_relayerSDK w))
        then window_relayerSDK w = Some sdk
        else sdk_load w = Return (Some sdk) /\ signal 3%nat = false)
    /\ isValidRelayerSDK sdk = true
    /\ typeof (get sdk (str "createInstance")) = str "function"
    /\ isValidAddress (get (get sdk (str "SepoliaConfig")) (str "aclContractAddress"))
       = true
    /\ sdk_createInstance w config = Return instance
    /\ get config (str "network") = p
    /\ get config (str "publicKey") = VString []
    /\ get config (str "publicParams") = VString []
    /\ forall name,
         name <> str "network" -> name <> str "publicKey" -> name <> str "publicParams" ->
         get config name = get (get sdk (str "SepoliaConfig")) name.
Proof.
  unfold createFhevmInstance. intros H.
  apply bind_Return_inv in H as (r & Hr & H).
  apply bind_Return_inv in H as (u & H0%throwIfAborted_Return & H).
  match type of H with
  | match ?mock with _ => _ end = _ => destruct mock as [j|] eqn:Hmock
  end.
  - injection H as ->. exfalso.
    destruct (rpcUrl r) as [url|]; [|discriminate].
    destruct (isMock r && negb (no_url (Some url))); [|discriminate].
    destruct (createMockInstance w url (chainId r) signal) as [[j|]|e] eqn:Hj;
      try discriminate.
    injection Hmock as ->.
    apply createMockInstance_Return in Hj as (? & _ & _ & _ & [=]).
  - case_bool_decide as Hs; [|discriminate].
    apply createSepoliaInstance_page in H
      as (sdk & config & instance' & [= <-] & H2 & H5 & H6 & Hrest).
    exists r, sdk, config. repeat split; try assumption; apply Hrest.
Qed.

Lemma sdk_instance_from_sepolia_config_loaded_page :
  exists (r : ResolveResult) (sdk config : value),
    resolve Worlds.sepolia_world wallet None = Return r
    /\ chainId r = Num SEPOLIA_chainId
    /\ Worlds.never_aborted 0%nat = false /\ Worlds.never_aborted 2%nat = false
    /\ Worlds.never_aborted 5%nat = false /\ Worlds.never_aborted 6%nat = false
    /\ (if isValidFhevmWindow (window_of (window_relayerSDK Worlds.sepolia_world))
        then window_relayerSDK Worlds.sepolia_world = Some sdk
        else sdk_load Worlds.sepolia_world = Return (Some sdk)
             /\ Worlds.never_aborted 3%nat = false)
    /\ isValidRelayerSDK sdk = true
    /\ typeof (get sdk (str "createInstance")) = str "function"
    /\ isValidAddress (get (get sdk (str "SepoliaConfig")) (str "aclContractAddress"))
       = true
    /\ sdk_createInstance Worlds.sepolia_world config
       = Return (VObject [(str "encrypt32", VFunction)])
    /\ get config (str "network") = wallet
    /\ get config (str "publicKey") = VString []
    /\ get config (str "publicParams") = VString []
    /\ forall name,
         name <> str "network" -> name <> str "publicKey" -> name <> str "publicParams" ->
         get config name = get (get sdk (str "SepoliaConfig")) name.
Proof.
  apply (sdk_instance_from_sepolia_config Worlds.sepolia_world wallet None
           Worlds.never_aborted (VObject [(str "encrypt32", VFunction)])).
  vm_compute. reflexivity.
Defined.

End InstanceCreation.

(** ** The deprecated client and the two lists of supported chains *)

Section ClientAndChains.
Import Mock Providers.

(** X24.  The deprecated client on a mock instance: when the signer's
    address is at hand, [createEncryptedInput] returns the handle the
    instance itself gives for the value ([encrypt32] of it, or
    [encryptBool] of [Boolean(value)]) with the proof of the builder's
    [encrypt()], and never calls the fallback; when the address cannot be
    had, the result is the fallback's. *)
Theorem client_encrypts_with_instance (inst : MockFhevmInstance) (user contract : jsstring)
    (compatible : nat -> outcome Client.EncryptedInput) (value : Z)
    (type : Client.input_type) (now : Z) :
  (exists r res,
     Client.createEncryptedInput (Some inst) (Return user) compatible contract value type now
     = Return r
     /\ Client.handle r
        = match type with
          | Client.euint32 => encrypt32 inst value
          | Client.ebool => encryptBool inst (negb (value =? 0))
          end
     /\ encrypt (apply_call (createEncryptedInput inst contract user)
                   match type with
                   | Client.euint32 => Add32 value
                   | Client.ebool => AddBool (negb (value =? 0))
                   end) now = Return res
     /\ Client.proof r = inputProof res)
  /\ (forall e,
        Client.createEncryptedInput (Some inst) (Throw e) compatible contract value type now
        = compatible 0%nat).
Proof.
  split; [|reflexivity].
  destruct type.
  - eexists _, _. split; [|split; [|split]]; [| |reflexivity|]; reflexivity.
  - destruct (negb (value =? 0)) eqn:Hb;
      eexists _, _; (split; [|split; [|split]]; [| |reflexivity|]);
      unfold Client.createEncryptedInput; rewrite ?Hb; reflexivity.
Qed.

(** X25.  The client and the hook list the same supported chains:
    [FHEVMClient.isFHEVMSupported] and [isFhevmSupported] agree on every
    number, and accept exactly Sepolia (11155111) and the local Hardhat
    chain (31337); [isFhevmSupported] rejects [undefined]. *)
Theorem support_checks_agree (chainId : number) :
  Client.isFHEVMSupported chainId = isFhevmSupported (Some chainId)
  /\ (isFhevmSupported (Some chainId) = true
      <-> chainId = Num 11155111 \/ chainId = Num 31337)
  /\ isFhevmSupported None = false.
Proof.
  split; [|split; [|reflexivity]].
  - destruct chainId as [c|]; [|reflexivity]. simpl.
    destruct (Z.eqb_spec c 0) as [->|_]; reflexivity.
  - destruct chainId as [c|]; simpl.
    + destruct (Z.eqb_spec c 0) as [->|_].
      * split; [discriminate|]. intros [[=]|[=]].
      * rewrite orb_true_iff, !Z.eqb_eq. split; intros [?|?]; (subst || simplify_eq); auto.
    + split; [discriminate|]. intros [[=]|[=]].
Qed.

(** X26.  [getChainName] knows the chains that [isFhevmSupported]
    accepts, and only those: the name begins with ["Unknown ("] exactly
    when the chain is not supported. *)
Theorem chain_name_unknown_iff_unsupported (chainId : option number) :
  startsWith (getChainName chainId) (str "Unknown (") = negb (isFhevmSupported chainId).
Proof.
  destruct chainId as [[c|]|]; try reflexivity. simpl.
  destruct (Z.eqb_spec c 11155111) as [->|H1]; [reflexivity|].
  destruct (Z.eqb_spec c 31337) as [->|H2]; [reflexivity|].
  destruct (c =? 0); reflexivity.
Qed.

End ClientAndChains.

(** ** The mock instance: what [decrypt] reads *)

Section MockDecrypt.
Import Mock.

(** A character that [parseInt(_, 16)] takes for a digit. *)
#[local] Abbreviation hex c :=
  (exists d, digit_value c = Some d /\ (d <? 16)%N = true).

Lemma hex_not_prefix (c : ascii) :
  hex c ->
  is_space c = false /\ Ascii.eqb c "-" = false /\ Ascii.eqb c "+" = false
  /\ Ascii.eqb "x" c = false /\ Ascii.eqb "X" c = false.
Proof.
  destruct c as [[] [] [] [] [] [] [] []]; intros (d & Hd & Hlt);
    vm_compute in Hd; try discriminate Hd; injection Hd as <-;
    vm_compute in Hlt; try discriminate Hlt; repeat split; reflexivity.
Qed.

Lemma startsWith_two (a b : ascii) (s : jsstring) :
  startsWith s [a; b]
  = match s with
    | x :: y :: _ => Ascii.eqb a x && Ascii.eqb b y
    | _ => false
    end.
Proof.
  destruct s as [|x [|y s]]; cbn [startsWith]; [reflexivity| |].
  - by destruct (Ascii.eqb a x).
  - by destruct (Ascii.eqb a x), (Ascii.eqb b y).
Qed.

(** [parseInt(s, 16)] of a non-empty run of hexadecimal digits. *)
Lemma parseInt16_digits (s : jsstring) :
  s <> [] -> Forall (fun c => hex c) s ->
  parseInt16 s = Num (Z.of_N (of_digits 16 s)).
Proof.
  intros Hne Hs. destruct s as [|c s]; [done|].
  pose proof Hs as Hall. apply Forall_cons in Hs as [Hc Hs].
  destruct (hex_not_prefix c Hc) as (Hsp & Hminus & Hplus & _).
  unfold parseInt16. cbn [skip_spaces]. rewrite Hsp, Hminus, Hplus.
  assert (startsWith (c :: s) (str "0x") || startsWith (c :: s) (str "0X") = false) as ->.
  { change (str "0x") with ["0"; "x"]%char. change (str "0X") with ["0"; "X"]%char.
    rewrite !startsWith_two. destruct s as [|x s]; [reflexivity|].
    apply Forall_cons in Hs as [Hx _].
    destruct (hex_not_prefix x Hx) as (_ & _ & _ & -> & ->).
    by rewrite !andb_false_r. }
  pose proof (read_digits_all 16 (c :: s) 0 false Hall) as Hr.
  fold (of_digits 16 (c :: s)) in Hr. rewrite Hr.
  rewrite bool_decide_true by done. reflexivity.
Qed.

Lemma of_digits_app (base : N) (s1 s2 : jsstring) :
  of_digits base (s1 ++ s2)
  = (of_digits base s1 * base ^ N.of_nat (length s2) + of_digits base s2)%N.
Proof.
  induction s2 as [|c s2 IH] using rev_ind.
  - rewrite app_nil_r. simpl. unfold of_digits at 3. simpl. lia.
  - rewrite app_assoc, !of_digits_snoc, IH, length_app. simpl length.
    replace (N.of_nat (length s2 + 1)) with (N.succ (N.of_nat (length s2))) by lia.
    rewrite N.pow_succ_r'. lia.
Qed.

Lemma of_digits_lt (s : jsstring) :
  Forall (fun c => hex c) s -> (of_digits 16 s < 16 ^ N.of_nat (length s))%N.
Proof.
  induction s as [|c s IH] using rev_ind; intros Hs.
  - unfold of_digits. simpl. lia.
  - apply Forall_app in Hs as [Hs Hc]. apply Forall_cons in Hc as [(d & Hd & Hlt) _].
    rewrite of_digits_snoc, Hd, length_app. simpl length. cbn [default from_option id].
    replace (N.of_nat (length s + 1)) with (N.succ (N.of_nat (length s))) by lia.
    rewrite N.pow_succ_r'. apply N.ltb_lt in Hlt. specialize (IH Hs). lia.
Qed.

Lemma padded_word_hex (v : Z) :
  0 <= v -> Forall (fun c => hex c) (padStart (toString16 v) 64 "0").
Proof.
  intros Hv. unfold padStart. apply Forall_app. split.
  - apply Forall_replicate. by exists 0%N.
  - unfold toString16, Z_to_string.
    destruct (Z.ltb_spec v 0) as [?|_]; [lia|]. apply to_digits_digits. lia.
Qed.

(** X27.  [decrypt] with a numeric type reads the four most significant
    bytes of the 32-byte word: for the handle of any integer [v] from zero
    to below [2^256], made by [encrypt64] from a BigInt or by [encrypt32]
    from a number that holds [v], it returns [v] divided by [2^224],
    rounded down.  A plaintext of up to 224 bits therefore decrypts to
    zero. *)
Theorem decrypt_reads_top_bytes (inst : MockFhevmInstance) (v : Z) (ty : jsstring) :
  0 <= v < 2 ^ 256 -> ty <> str "bool" -> ty <> str "ebool" ->
  decrypt inst (encrypt64 inst v) ty = DNumber (Num (v / 2 ^ 224))
  /\ decrypt inst (encrypt32 inst v) ty = DNumber (Num (v / 2 ^ 224)).
Proof.
  intros Hv Hb He.
  assert (decrypt inst (str "0x" ++ padStart (toString16 v) 64 "0") ty
          = DNumber (Num (v / 2 ^ 224))) as H; [|by split].
  unfold decrypt.
  rewrite (bool_decide_false _ Hb), (bool_decide_false _ He). cbn [orb].
  rewrite replace_prefix. cbn [app].
  unfold substring. cbn [Nat.max Nat.min]. rewrite drop_0.
  change (8 - 0)%nat with 8%nat.
  destruct (padded_word v Hv) as [Hlen _].
  pose proof (padded_word_hex v ltac:(lia)) as Hhex.
  pose proof (of_digits_padded v ltac:(lia)) as Hval.
  set (word := padStart (toString16 v) 64 "0") in *.
  assert (Forall (fun c => hex c) (take 8 word)) as Htake by by apply Forall_take.
  assert (Forall (fun c => hex c) (drop 8 word)) as Hdrop by by apply Forall_drop.
  rewrite parseInt16_digits; [|by destruct word as [|? [|? ?]]|exact Htake].
  do 2 f_equal.
  pose proof (of_digits_app 16 (take 8 word) (drop 8 word)) as Happ.
  rewrite take_drop in Happ.
  pose proof (of_digits_lt _ Hdrop) as Hlt.
  rewrite length_drop, Hlen in Happ, Hlt.
  change (N.of_nat (64 - 8)) with 56%N in Happ, Hlt.
  apply (Z.div_unique_pos v (2 ^ 224) _ (Z.of_N (of_digits 16 (drop 8 word)))).
  - change (2 ^ 224) with (Z.of_N (16 ^ 56)). lia.
  - change (2 ^ 224) with (Z.of_N (16 ^ 56)). lia.
Qed.

Lemma decrypt_reads_top_bytes_high :
  decrypt hardhat_instance (encrypt64 hardhat_instance (5 * 2 ^ 224 + 9)) (str "euint64")
  = DNumber (Num ((5 * 2 ^ 224 + 9) / 2 ^ 224))
  /\ decrypt hardhat_instance (encrypt32 hardhat_instance (5 * 2 ^ 224 + 9)) (str "euint64")
     = DNumber (Num ((5 * 2 ^ 224 + 9) / 2 ^ 224)).
Proof.
  apply (decrypt_reads_top_bytes hardhat_instance (5 * 2 ^ 224 + 9) (str "euint64"));
    [lia|discriminate|discriminate].
Defined.

End MockDecrypt.

(** ** The Hardhat probe: how it can end *)

Section ProbeOutcome.
Import Instance.

(** X28.  The three ways the probe ends.  It throws only when the
    client-version query fails, and then a [FhevmError] with the code
    [WEB3_CLIENTVERSION_ERROR]: a failing metadata query is never an
    error.  It returns the metadata only for a node whose version string
    holds the Hardhat marker, and then exactly what the node answered,
    with its three addresses beginning with ["0x"]. *)
Theorem probe_outcome (w : world) (url : jsstring) :
  match tryFetchFHEVMHardhatNodeRelayerMetadata w url with
  | Throw e =>
      (exists e0, rpc_send w url (str "web3_clientVersion") = Throw e0)
      /\ exists msg, e = FhevmError (str "WEB3_CLIENTVERSION_ERROR") msg
  | Return None =>
      exists version, rpc_send w url (str "web3_clientVersion") = Return version
  | Return (Some metadata) =>
      (exists version,
         rpc_send w url (str "web3_clientVersion") = Return (VString version)
         /\ includes (toLowerCase version) (str "hardhat") = true)
      /\ rpc_send w url (str "fhevm_relayer_metadata") = Return metadata
      /\ prefixed_addresses metadata
  end.
Proof.
  unfold tryFetchFHEVMHardhatNodeRelayerMetadata, getWeb3Client, getFHEVMRelayerMetadata.
  destruct (rpc_send w url (str "web3_clientVersion")) as [version|e0] eqn:Hv;
    cbn [bind]; [|split; by eexists].
  destruct (not_hardhat version) eqn:Hh; [by eexists|].
  destruct (rpc_send w url (str "fhevm_relayer_metadata")) as [metadata|e1] eqn:Hm;
    [|by eexists].
  destruct (negb (truthy metadata) || negb (bool_decide (typeof metadata = str "object")))
    eqn:Hobj; [by eexists|].
  destruct (existsb (field_rejected metadata) requiredFields) eqn:Hf; [by eexists|].
  split; [|split; [reflexivity|]].
  - unfold not_hardhat in Hh. destruct version as [| | | |s| |]; try discriminate Hh.
    exists s. split; [reflexivity|].
    apply orb_false_iff in Hh as [_ Hh]. by apply negb_false_iff in Hh.
  - apply orb_false_iff in Hobj as [Ht Ho].
    apply negb_false_iff in Ht. apply negb_false_iff, bool_decide_eq_true in Ho.
    destruct metadata as [| | | | | |props]; try discriminate.
    exists props. split; [reflexivity|].
    intros field Hin. apply field_rejected_false.
    revert field Hin. by apply existsb_false.
Qed.

End ProbeOutcome.

(** ** The loader and the hook on the way to success *)

Section LoaderValidation.
Import Validation Loader.

(** X29.  After the load event of an appended script, the 50 ms check
    decides: whatever [window.relayerSDK] was when the script arrived, the
    promise, still pending, is settled by the state of the page when the
    check runs, fulfilled if [isValidFhevmWindow] holds then and rejected
    with the "script loaded but invalid" error if not. *)
Theorem validation_decides (w : page) (k p t : nat) (sdk : option value) :
  handlers w !! k = Some (p, t) -> promises w !! p = Some Pending ->
  timers (step w (ScriptLoad k)) !! length (timers w) = Some (Some (Validate p))
  /\ promises (run (step w (ScriptLoad k)) [SetSDK sdk; FireTimer (length (timers w))]) !! p
     = Some (if isValidFhevmWindow (window (with_relayerSDK w sdk))
             then Fulfilled else Rejected invalid_loaded).
Proof.
  intros Hk Hp.
  assert (forall ts : list (option timer),
            (<[t := None]> ts ++ [Some (Validate p)]) !! length ts
            = Some (Some (Validate p))) as Hnew.
  { intros ts. rewrite lookup_app_r by (rewrite length_insert; lia).
    by rewrite length_insert, Nat.sub_diag. }
  split.
  - cbn [step]. rewrite Hk. cbn [setTimeout clearTimeout with_timers timers snd].
    apply Hnew.
  - unfold run. cbn [foldl]. cbn [step]. rewrite Hk.
    cbn [setTimeout clearTimeout with_timers with_relayerSDK timers snd].
    rewrite Hnew. unfold window. cbn [relayerSDK].
    assert (forall st w', promises w' = promises w ->
              promises (settle w' p st) !! p = Some st) as Hsettle.
    { intros st w' Hw'. unfold settle. rewrite Hw', Hp. cbn [with_promises promises].
      rewrite ?Hw'. apply list_lookup_insert_eq. by eapply lookup_lt_Some. }
    change (relayerSDK (clearTimeout _ _)) with sdk.
    change (relayerSDK (with_relayerSDK w sdk)) with sdk.
    destruct (isValidFhevmWindow _); cbn [negb]; by apply Hsettle.
Qed.

Lemma validation_decides_fresh :
  let w := (load newRelayerSDKLoader fresh_page).2 in
  let sdk := Some (VObject [(str "initSDK", VFunction)]) in
  timers (step w (ScriptLoad 0)) !! length (timers w) = Some (Some (Validate 0))
  /\ promises (run (step w (ScriptLoad 0)) [SetSDK sdk; FireTimer (length (timers w))])
       !! 0%nat
     = Some (if isValidFhevmWindow (window (with_relayerSDK w sdk))
             then Fulfilled else Rejected invalid_loaded).
Proof.
  intros w sdk. apply (validation_decides w 0 0 0 sdk); reflexivity.
Defined.

End LoaderValidation.

Section HookDelivery.
Import Hook.
Context {Provider : Type} `{EqDecision Provider} {FhevmInstance : Type}.

#[local] Abbreviation state := (@Hook.state Provider FhevmInstance).
#[local] Abbreviation event := (@Hook.event Provider FhevmInstance).
#[local] Abbreviation attempt := (@Hook.attempt Provider).

(** The main effect of an enabled hook that has a provider and no
    controller: a new controller, a new attempt on it, [loading]. *)
Lemma mainEffect_starts (s : state) (p : Provider) :
  _isRunning s = true -> _providerRef s = Some p -> _abortControllerRef s = None ->
  started (mainEffect s)
  = started s ++ [{| thisSignal := length (controllers s); thisProvider := p |}]
  /\ observable (mainEffect s) = (instance s, None, loading)
  /\ aborted (mainEffect s) (length (controllers s)) = false
  /\ _providerRef (mainEffect s) = Some p.
Proof.
  intros Hr Hp Hc. unfold mainEffect. rewrite Hr, Hp, Hc. cbn [negb].
  assert (default false ((controllers s ++ [false]) !! length (controllers s)) = false)
    as Hnew by (by rewrite lookup_app_r, Nat.sub_diag by lia).
  unfold aborted. cbn [controllers]. rewrite !Hnew.
  cbn [controllers set_result started observable instance error status _providerRef].
  by repeat split.
Qed.


End HookDelivery.

Section HookDeliveryExamples.
Import Hook.


End HookDeliveryExamples.

(** ** The lifecycle hook: the main effect run twice *)

Section MainEffectRerun.
Import Hook.
Context {Provider : Type} `{EqDecision Provider} {FhevmInstance : Type}.

#[local] Abbreviation state := (@Hook.state Provider FhevmInstance).
#[local] Abbreviation event := (@Hook.event Provider FhevmInstance).
#[local] Abbreviation attempt := (@Hook.attempt Provider).

(** The first run leaves its controller in [_abortControllerRef]. *)
Lemma mainEffect_keeps_controller (s : state) (p : Provider) :
  _isRunning s = true -> _providerRef s = Some p -> _abortControllerRef s = None ->
  _isRunning (mainEffect s) = true
  /\ _abortControllerRef (mainEffect s) = Some (length (controllers s)).
Proof.
  intros Hr Hp Hc. unfold mainEffect. rewrite Hr, Hp, Hc. cbn [negb].
  assert (default false ((controllers s ++ [false]) !! length (controllers s)) = false)
    as Hnew by (by rewrite lookup_app_r, Nat.sub_diag by lia).
  unfold aborted. cbn [controllers]. rewrite !Hnew. by split.
Qed.

(** A later run of the main effect finds that controller, not aborted, and
    starts its attempt on it. *)
Lemma mainEffect_reuses (s : state) (p : Provider) (c : nat) :
  _isRunning s = true -> _providerRef s = Some p -> _abortControllerRef s = Some c ->
  aborted s c = false ->
  started (mainEffect s) = started s ++ [{| thisSignal := c; thisProvider := p |}]
  /\ observable (mainEffect s) = (instance s, None, loading)
  /\ aborted (mainEffect s) c = false
  /\ _providerRef (mainEffect s) = Some p.
Proof.
  intros Hr Hp Hc Hab. unfold mainEffect. rewrite Hr, Hp, Hc. cbn [negb].
  rewrite Hab. by repeat split.
Qed.

(** C9.  The claim fails where the main effect runs twice with no
    [refresh()] between the runs, as it does at every mount with a
    provider: [refresh()] bumps [_providerChanged], the main effect runs
    in the same commit and starts attempt A on a new controller, and the
    bump makes it run again, which starts attempt B on the same
    controller.  In any reachable state, after [refresh()] with a
    provider, the [enabled] effect with [true] and these two runs, the two
    attempts share one signal, which is not aborted; when B's promise is
    fulfilled the hook is ready with B's instance, and when A's promise
    settles after that, A's outcome is not discarded: its instance
    replaces B's, or its error puts the hook in the error state. *)
Theorem main_effect_rerun_keeps_stale_attempt (provider0 : option Provider)
    (chainId0 : option Z) (enabled : bool) (es : list event) (p : Provider)
    (c : option Z) (iA iB : FhevmInstance) (e : exn) :
  let s0 : state := run (mount provider0 chainId0 enabled) es in
  let s2 : state :=
    run s0 [Refresh (Some p) c; SetIsRunning true; MainEffect; MainEffect] in
  let a : attempt := {| thisSignal := length (controllers s0); thisProvider := p |} in
  let kA := length (started s0) in
  let kB := S (length (started s0)) in
  started s2 = started s0 ++ [a; a]
  /\ aborted s2 (thisSignal a) = false
  /\ observable (run s2 [Resolved kB iB]) = (Some iB, None, ready)
  /\ observable (run s2 [Resolved kB iB; Resolved kA iA]) = (Some iA, None, ready)
  /\ observable (run s2 [Resolved kB iB; Rejected kA e]) = (None, Some e, error_state).
Proof.
  intros s0 s2 a kA kB.
  assert (invariant s0) as Hinv by apply invariant_run, invariant_mount.
  destruct (refresh_aborts_started (Some p) c s0 Hinv) as (Hst & Hc & Hlen & _).
  assert (_providerRef (refresh (Some p) c s0) = Some p) as Hp
    by (unfold refresh; by destruct (_abortControllerRef s0)).
  set (sE := setIsRunning true (refresh (Some p) c s0)).
  assert (_isRunning sE = true) as HrE by reflexivity.
  assert (_providerRef sE = Some p) as HpE by exact Hp.
  assert (_abortControllerRef sE = None) as HcE by exact Hc.
  assert (started sE = started s0) as HstE by exact Hst.
  assert (length (controllers sE) = length (controllers s0)) as HlenE by exact Hlen.
  destruct (mainEffect_starts sE p HrE HpE HcE) as (Hst1 & _ & Hab1 & Hp1).
  destruct (mainEffect_keeps_controller sE p HrE HpE HcE) as (Hr1 & Hc1).
  destruct (mainEffect_reuses (mainEffect sE) p _ Hr1 Hp1 Hc1 Hab1)
    as (Hst2 & _ & Hab2 & Hp2).
  change s2 with (mainEffect (mainEffect sE)).
  rewrite Hst1, HstE, HlenE, <- app_assoc in Hst2. cbn [app] in Hst2.
  rewrite HlenE in Hab2.
  fold a in Hst2. change (length (controllers s0)) with (thisSignal a) in Hab2.
  split; [exact Hst2|]. split; [exact Hab2|].
  assert (forall s : state,
            started s = started s0 ++ [a; a] ->
            aborted s (thisSignal a) = false -> _providerRef s = Some p ->
            (forall i, step s (Resolved kB i) = set_result s (Some i) None ready)
            /\ (forall i, step s (Resolved kA i) = set_result s (Some i) None ready)
            /\ (forall x, step s (Rejected kA x) = set_result s None (Some x) error_state))
    as Hlive.
  { intros s Hs Hab Hps.
    assert (started s !! kA = Some a) as HkA
      by (rewrite Hs; subst kA; by rewrite lookup_app_r, Nat.sub_diag by lia).
    assert (started s !! kB = Some a) as HkB.
    { rewrite Hs. subst kB. rewrite lookup_app_r by lia.
      by replace (S (length (started s0)) - length (started s0))%nat with 1%nat by lia. }
    assert (may_set s a = true) as Hmay.
    { unfold may_set. rewrite Hab, Hps. cbn [negb andb thisProvider].
      by rewrite bool_decide_true. }
    repeat split; intros x; cbn [step]; rewrite ?HkA, ?HkB;
      unfold onResolved, onRejected; by rewrite Hmay. }
  destruct (Hlive _ Hst2 Hab2 Hp2) as (HB & _ & _).
  unfold run. cbn [foldl]. rewrite !HB.
  destruct (Hlive (set_result (mainEffect (mainEffect sE)) (Some iB) None ready)
              Hst2 Hab2 Hp2) as (_ & HA & HE).
  rewrite HA, HE. by repeat split.
Qed.

End MainEffectRerun.

Section MainEffectRerunExamples.
Import Hook.

(** The mount of an enabled hook on a wallet: the first attempt resolves
    last and its instance is the one shown. *)
Lemma mount_shows_first_attempt :
  observable
    (run (mount (FhevmInstance := nat) (Some 7%nat) (Some 31337) true)
       [Refresh (Some 7%nat) (Some 31337); SetIsRunning true; MainEffect; MainEffect;
        Resolved 1 42%nat; Resolved 0 41%nat])
  = (Some 41%nat, None, ready).
Proof. reflexivity. Qed.

End MainEffectRerunExamples.
